(** * TriVital_Monitor: the ECG, RESP and SpO2 signal pipelines

    A shallow embedding of [App/ECG/ECG.c] (which also carries the SpO2
    module) and [App/RESP/RESP.c], and the properties of the monitor's
    specification checked against it.

    Conventions of the embedding.
    - A C [double] is an exact rational ([Q]), kept in lowest terms by the
      arithmetic operations: rounding, infinities and NaN are not
      represented.  A division by zero and a conversion of a [double] that
      does not fit the integer type are undefined in C; the functions that
      may run into one return [option], [None] standing for the undefined
      execution.
    - [int] is a [Z] kept in the 32-bit range, [u16] and [u32] are [Z] with
      the wrap-around written out.
    - A C array is a list read with [rd] and written with [wr]; a [for]
      loop is one of the combinators of [Loops].
    - The file-level [static] variables of a module are the fields of its
      state record; the function-level statics of the smoothers are fields
      too, since they persist between calls.
    - Calls that leave the processor (OLED, serial port, GPIO, DAC) are
      recorded as a list of events; so are the calls of [Analyze_SPO2Wave]
      and [calSpO2], to tell a wrap that analyses from one that does not.
    - [GetTimeCounter()], [ReadSPO2ADC()] and the level of the lead-off pin
      are inputs of the entry point that reads them. *)

From Stdlib Require Import ZArith QArith Qround Lqa Bool Lia String List
  Permutation.
Import ListNotations.
Local Open Scope Z_scope.

(* ------------------------------------------------------------------------- *)
(** ** C numbers *)

Module CNum.

Definition double := Q.

Definition INT_MIN : Z := -2147483648.
Definition INT_MAX : Z := 2147483647.

Definition in_int (z : Z) : bool := (INT_MIN <=? z) && (z <=? INT_MAX).

(** Truncation toward zero, the value of a C cast [(int)d]. *)
Definition trunc (q : double) : Z := Z.quot (Qnum q) (Zpos (Qden q)).

(** [(int)d]: undefined when the truncated value is not an [int]. *)
Definition d2i (q : double) : option Z :=
  let z := trunc q in if in_int z then Some z else None.

(** Integer to [double]. *)
Definition i2d (z : Z) : double := inject_Z z.

Definition to_u16 (z : Z) : Z := z mod 65536.
Definition to_u32 (z : Z) : Z := z mod 4294967296.

(** [u32] to [int], two's complement as the ARM compilers do it. *)
Definition to_int (z : Z) : Z :=
  let m := z mod 4294967296 in if m <=? INT_MAX then m else m - 4294967296.

(** [int] addition and subtraction: overflow is undefined. *)
Definition int_add (a b : Z) : option Z :=
  if in_int (a + b) then Some (a + b) else None.
Definition int_sub (a b : Z) : option Z :=
  if in_int (a - b) then Some (a - b) else None.

(** Comparisons of doubles. *)
Definition dlt (a b : double) : bool :=
  match Qcompare a b with Lt => true | _ => false end.
Definition dgt (a b : double) : bool := dlt b a.
Definition dle (a b : double) : bool := negb (dlt b a).
Definition dge (a b : double) : bool := negb (dlt a b).

(** Arithmetic on doubles; the results are in lowest terms. *)
Definition dadd (a b : double) : double := Qred (a + b).
Definition dsub (a b : double) : double := Qred (a - b).
Definition dmul (a b : double) : double := Qred (a * b).

(** [a / c] for a constant [c] that is not zero. *)
Definition dquo (a c : double) : double := Qred (a / c).

(** [a / b] on doubles: undefined for a zero divisor. *)
Definition ddiv (a b : double) : option double :=
  if Qeq_bool b 0 then None else Some (dquo a b).

End CNum.
Import CNum.

Declare Scope double_scope.
Delimit Scope double_scope with D.
Infix "+" := dadd : double_scope.
Infix "-" := dsub : double_scope.
Infix "*" := dmul : double_scope.
Infix "/" := dquo : double_scope.

(** Sequencing of computations that may be undefined. *)
Definition bind {A B} (m : option A) (k : A -> option B) : option B :=
  match m with Some a => k a | None => None end.

Notation "x <- m ;; k" := (bind m (fun x => k))
  (at level 61, m at next level, right associativity).
Notation "' pat <- m ;; k" := (bind m (fun x => match x with pat => k end))
  (at level 61, pat pattern, m at next level, right associativity).

(* ------------------------------------------------------------------------- *)
(** ** Arrays and loops *)

Module Loops.

Section Arrays.
Context {A : Type} (d : A).

(** [a[i]] *)
Definition rd (a : list A) (i : Z) : A := nth (Z.to_nat i) a d.

Fixpoint wr_nat (a : list A) (n : nat) (v : A) : list A :=
  match a, n with
  | [], _ => []
  | _ :: t, O => v :: t
  | h :: t, S n' => h :: wr_nat t n' v
  end.

(** [a[i] = v]; every index the programs use lies inside the array (an
    index outside leaves the list as it is). *)
Definition wr (a : list A) (i : Z) (v : A) : list A :=
  if i <? 0 then a else wr_nat a (Z.to_nat i) v.

End Arrays.

(** [for (i = lo; i < ...; i++) body], [n] iterations. *)
Fixpoint for_up {S : Type} (n : nat) (i : Z) (body : Z -> S -> S) (s : S) : S :=
  match n with
  | O => s
  | S n' => for_up n' (i + 1) body (body i s)
  end.

Definition for_range {S : Type} (lo hi : Z) (body : Z -> S -> S) (s : S) : S :=
  for_up (Z.to_nat (hi - lo)) lo body s.

(** The same with a body that may be undefined. *)
Fixpoint for_up_opt {S : Type} (n : nat) (i : Z) (body : Z -> S -> option S)
         (s : S) : option S :=
  match n with
  | O => Some s
  | S n' => s' <- body i s ;; for_up_opt n' (i + 1) body s'
  end.

Definition for_range_opt {S : Type} (lo hi : Z) (body : Z -> S -> option S)
           (s : S) : option S :=
  for_up_opt (Z.to_nat (hi - lo)) lo body s.

(** [for (i = hi; i > ...; i--) body], [n] iterations. *)
Fixpoint for_down {S : Type} (n : nat) (i : Z) (body : Z -> S -> S) (s : S) : S :=
  match n with
  | O => s
  | S n' => for_down n' (i - 1) body (body i s)
  end.

End Loops.
Import Loops.

Global Arguments for_range {S} lo hi body s : simpl never.
Global Arguments for_range_opt {S} lo hi body s : simpl never.

(* ------------------------------------------------------------------------- *)
(** ** Second-order IIR sections *)

Module Biquad.

Definition N : Z := 2.

(** [IIRNotch], [IIRLowpass] and [IIRHighpass] are the same code over their
    own coefficient arrays [b] and [a]; [arrtemp] is the delay line the
    caller passes in. *)
Definition IIR (b a : list double) (input : double) (arrtemp : list double)
  : double * list double :=
  let arrtemp := wr arrtemp 0
        (input - rd 0%Q a 1 * rd 0%Q arrtemp 1
               - rd 0%Q a 2 * rd 0%Q arrtemp 2)%D in
  let output := (rd 0%Q b 0 * rd 0%Q arrtemp 0
               + rd 0%Q b 1 * rd 0%Q arrtemp 1
               + rd 0%Q b 2 * rd 0%Q arrtemp 2)%D in
  let arrtemp := for_down (Z.to_nat N) N
        (fun i t => wr t i (rd 0%Q t (i - 1))) arrtemp in
  (output, arrtemp).

(** Feeding a sequence of samples through one section, collecting the
    outputs; the result carries the delay line as the last call leaves it. *)
Fixpoint run (b a : list double) (xs : list double) (arrtemp : list double)
  : list double * list double :=
  match xs with
  | [] => ([], arrtemp)
  | x :: xs' =>
      let '(y, t) := IIR b a x arrtemp in
      let '(ys, t') := run b a xs' t in
      (y :: ys, t')
  end.

End Biquad.

(* ------------------------------------------------------------------------- *)
(** ** Moving-average smoother *)

Module Smoother.

(** The two function statics of a [SmoothingFilter]. *)
Record state := { i : Z; buf : list double }.

(** Static initialisation: [i = 0], [buf = {0}]. *)
Definition init (W : Z) : state :=
  {| i := 0; buf := repeat 0%Q (Z.to_nat W) |}.

(** [num += buf[n]] with [int num]: the sum is formed in [double] and
    converted back to [int]. *)
Definition accumulate (b : list double) (n : Z) (num : Z) : option Z :=
  d2i (i2d num + rd 0%Q b n)%D.

(** [SmoothingFilter] ([WindowsLen] is 3 in ECG and 100 in RESP),
    [SmoothingFilter_RED] and [SmoothingFilter_IR] ([SMOOTH_LEN] is 5). *)
Definition SmoothingFilter (W : Z) (NewData : double) (st : state)
  : option (double * state) :=
  if i st <? W then
    Some (NewData, {| i := i st + 1; buf := wr (buf st) (i st) NewData |})
  else
    let b := for_range 0 (W - 1) (fun n b => wr b n (rd 0%Q b (n + 1))) (buf st) in
    let b := wr b (W - 1) NewData in
    num <- for_range_opt 0 W (accumulate b) 0 ;;
    Some ((i2d num * 1%Q / i2d W)%D, {| i := i st; buf := b |}).

(** Feeding a sequence of samples, collecting the outputs. *)
Fixpoint run (W : Z) (xs : list double) (st : state)
  : option (list double * state) :=
  match xs with
  | [] => Some ([], st)
  | x :: xs' =>
      '(y, st') <- SmoothingFilter W x st ;;
      '(ys, st'') <- run W xs' st' ;;
      Some (y :: ys, st'')
  end.

End Smoother.

(* ------------------------------------------------------------------------- *)
(** ** Calls that leave the processor, and the two calls of the analysis *)

Module IO.

Inductive event : Type :=
| OLEDShowString (x y : Z) (s : string)
| OLEDShowNum (x y : Z) (num : Z) (len size : Z)
| printf (fmt : string) (args : list Z)
| GPIO_WriteBit (port : string) (pin : Z) (bit : bool)
| AdjustDAC (v : Z)
| Analyze_SPO2Wave_call
| calSpO2_call.

Definition is_AdjustDAC (e : event) : bool :=
  match e with AdjustDAC _ => true | _ => false end.



(** The text of a string that is put on the display or the serial line. *)
Definition shown_text (e : event) : option string :=
  match e with
  | OLEDShowString _ _ s => Some s
  | printf fmt [] => Some fmt
  | _ => None
  end.

End IO.
Import IO.

(* ------------------------------------------------------------------------- *)
(** ** ECG.c *)

Module ECG.

Definition WindowsLen : Z := 3.
Definition HR_WAVE_LEN : Z := 300.

Definition IIRNotch_b : list double :=
  [0.245237275252786; 0.396802246667420; 0.245237275252786]%Q.
Definition IIRNotch_a : list double :=
  [1.0; 0.396802246667420; -0.509525449494429]%Q.
Definition IIRLowpass_b : list double :=
  [0.274726851035635; 0.549453702071270; 0.274726851035635]%Q.
Definition IIRLowpass_a : list double :=
  [1.0; -0.0736238463849785; 0.172531250527518]%Q.
Definition IIRHighpass_b : list double :=
  [0.948080785129270; -1.89616157025854; 0.948080785129270]%Q.
Definition IIRHighpass_a : list double :=
  [1.0; -1.89346414636183; 0.898858994155252]%Q.

Definition IIRNotch := Biquad.IIR IIRNotch_b IIRNotch_a.
Definition IIRLowpass := Biquad.IIR IIRLowpass_b IIRLowpass_a.
Definition IIRHighpass := Biquad.IIR IIRHighpass_b IIRHighpass_a.

Definition SmoothingFilter := Smoother.SmoothingFilter WindowsLen.

Record state : Type := mk {
  IIRNotch_win : list double;
  IIRLowpass_win : list double;
  IIRHighpass_win : list double;
  smooth : Smoother.state;          (* statics [i] and [buf] of SmoothingFilter *)
  arr_ECG_Wave : list double;
  ECG_Wave_index : Z;
  peakThreshold : double;
  lastPeak_index : Z;               (* u32 *)
  currentPeak_index : Z;            (* u32 *)
  heartRate : Z                     (* int *)
}.

(** The static initialisers. *)
Definition boot : state :=
  {| IIRNotch_win := [0; 0; 0]%Q;
     IIRLowpass_win := [0; 0; 0]%Q;
     IIRHighpass_win := [0; 0; 0]%Q;
     smooth := Smoother.init WindowsLen;
     arr_ECG_Wave := repeat 0%Q (Z.to_nat HR_WAVE_LEN);
     ECG_Wave_index := 0;
     peakThreshold := 0%Q;
     lastPeak_index := 0;
     currentPeak_index := 0;
     heartRate := 0 |}.

(** One pass of the scanning loop of [Update_Threshold]. *)
Definition scan_step (data_window : list double) (i : Z)
           (acc : double * double) : double * double :=
  let '(peakMax, peakMin) := acc in
  let peakMax := if dgt (rd 0%Q data_window i) peakMax
                 then rd 0%Q data_window i else peakMax in
  let peakMin := if dlt (rd 0%Q data_window i) peakMin
                 then rd 0%Q data_window i else peakMin in
  (peakMax, peakMin).

(** The loop [for (i = 1; i < windowSize; i++)] from [peakMax = 0.0] and
    [peakMin = 4095.0]. *)
Definition scan (data_window : list double) (windowSize : Z) : double * double :=
  for_range 1 windowSize (scan_step data_window) (0%Q, 4095%Q).

Definition Update_Threshold (data_window : list double) (windowSize : Z) : double :=
  let '(peakMax, peakMin) := scan data_window windowSize in
  (peakMax - (peakMax - peakMin) / 4%Q)%D.

Definition calRate (ppdistance : double) : option Z :=
  q <- ddiv 60000%Q ppdistance ;; d2i q.

Definition ConfigECGGPIO : list event := [GPIO_WriteBit "GPIOB" 1 true].

Definition InitECG (s : state) : state * list event :=
  ({| IIRNotch_win := [0; 0; 0]%Q;
      IIRLowpass_win := [0; 0; 0]%Q;
      IIRHighpass_win := [0; 0; 0]%Q;
      smooth := smooth s;
      arr_ECG_Wave := repeat 0%Q (Z.to_nat HR_WAVE_LEN);
      ECG_Wave_index := 0;
      peakThreshold := 0%Q;
      lastPeak_index := 0;
      currentPeak_index := 0;
      heartRate := 0 |}, ConfigECGGPIO).

(** [ECGTask] up to the end of the window wrap: the filter chain, the
    write into the window and, when the index reaches [HR_WAVE_LEN], the
    reset of the index and the refresh of the threshold. *)
Definition front (inp : Z) (s : state) : option state :=
  let '(output1, nw) := IIRNotch (i2d inp) (IIRNotch_win s) in
  let '(output2, hw) := IIRHighpass output1 (IIRHighpass_win s) in
  let '(output3, lw) := IIRLowpass output2 (IIRLowpass_win s) in
  '(output4, sm) <- SmoothingFilter output3 (smooth s) ;;
  let wave := wr (arr_ECG_Wave s) (ECG_Wave_index s) output4 in
  let index := ECG_Wave_index s + 1 in
  Some {| IIRNotch_win := nw;
          IIRLowpass_win := lw;
          IIRHighpass_win := hw;
          smooth := sm;
          arr_ECG_Wave := wave;
          ECG_Wave_index := if index >=? HR_WAVE_LEN then 0 else index;
          peakThreshold := if index >=? HR_WAVE_LEN
                           then Update_Threshold wave HR_WAVE_LEN
                           else peakThreshold s;
          lastPeak_index := lastPeak_index s;
          currentPeak_index := currentPeak_index s;
          heartRate := heartRate s |}.

(** The condition of the rising-edge detection. *)
Definition peak_detected (s : state) : bool :=
  ((ECG_Wave_index s >? 1) && (ECG_Wave_index s <? HR_WAVE_LEN - 1))
  && (dle (rd 0%Q (arr_ECG_Wave s) (ECG_Wave_index s - 2)) (peakThreshold s)
      && dge (rd 0%Q (arr_ECG_Wave s) (ECG_Wave_index s - 1)) (peakThreshold s)).

(** The detection part of [ECGTask]; [now] is what [GetTimeCounter()]
    returns. *)
Definition detect (now : Z) (s : state) : option state :=
  if peak_detected s then
    let cur := to_u32 now in
    rate <- calRate (i2d (to_u32 (cur - lastPeak_index s))) ;;
    Some {| IIRNotch_win := IIRNotch_win s;
            IIRLowpass_win := IIRLowpass_win s;
            IIRHighpass_win := IIRHighpass_win s;
            smooth := smooth s;
            arr_ECG_Wave := arr_ECG_Wave s;
            ECG_Wave_index := ECG_Wave_index s;
            peakThreshold := peakThreshold s;
            lastPeak_index := cur;
            currentPeak_index := cur;
            heartRate := rate |}
  else Some s.

(** [ECGTask(inp)].  The dump of the waveform on the serial port in
    [WAVE_ECG] mode touches no variable and is left out. *)
Definition ECGTask (inp now : Z) (s : state) : option state :=
  s1 <- front inp s ;; detect now s1.

(** [OLED_ECG]; [lead_off] is the level read on PB0. *)
Definition OLED_ECG (lead_off : Z) (s : state) : state * list event :=
  let head := [OLEDShowString 0 0 "HR:"; OLEDShowString 64 0 "BPM";
               OLEDShowString 0 16 "ECG_LEAD:"] in
  if lead_off =? 1 then
    (s, head ++ [GPIO_WriteBit "GPIOB" 1 true;
                 OLEDShowString 88 16 "Noob";
                 OLEDShowString 32 0 "Err";
                 printf "[[1,Err]]\r\n" []])
  else
    (s, head ++ [GPIO_WriteBit "GPIOB" 1 false;
                 OLEDShowString 88 16 "Good"] ++
        (if (heartRate s >=? 20) && (heartRate s <=? 250) then
           [OLEDShowNum 32 0 (heartRate s) 3 16;
            printf "[[1,%d]]\r\n" [heartRate s]]
         else
           [OLEDShowString 32 0 "Err";
            printf "[[1,Err]]\r\n" []])).

(** A sequence of calls of [ECGTask], each with its sample and the value
    the timer has during the call. *)
Fixpoint run (cs : list (Z * Z)) (s : state) : option state :=
  match cs with
  | [] => Some s
  | (inp, now) :: cs' => s1 <- ECGTask inp now s ;; run cs' s1
  end.

(** The states the module can be in: from the static initialisers, by
    [InitECG] and [ECGTask] ([OLED_ECG] assigns nothing). *)
Inductive reachable : state -> Prop :=
| reach_boot : reachable boot
| reach_init s : reachable s -> reachable (fst (InitECG s))
| reach_task s inp now s' :
    reachable s -> ECGTask inp now s = Some s' -> reachable s'.

End ECG.

(* ------------------------------------------------------------------------- *)
(** ** RESP.c *)

Module RESP.

Definition WindowsLen : Z := 100.
Definition BR_WAVE_LEN : Z := 1000.

Definition IIRNotch_b : list double :=
  [0.245237275252786; 0.396802246667420; 0.245237275252786]%Q.
Definition IIRNotch_a : list double :=
  [1.0; 0.396802246667420; -0.509525449494429]%Q.
Definition IIRLowpass_b : list double :=
  [0.0461318020933129; 0.0922636041866259; 0.0461318020933129]%Q.
Definition IIRLowpass_a : list double :=
  [1.0; -1.30728502884932; 0.491812237222575]%Q.

Definition IIRNotch := Biquad.IIR IIRNotch_b IIRNotch_a.
Definition IIRLowpass := Biquad.IIR IIRLowpass_b IIRLowpass_a.

Definition SmoothingFilter := Smoother.SmoothingFilter WindowsLen.

Record state : Type := mk {
  IIRNotch_win : list double;
  IIRLowpass_win : list double;
  smooth : Smoother.state;          (* statics [i] and [buf] of SmoothingFilter *)
  arr_BR_Wave : list double;
  BR_Wave_index : Z;
  peakThreshold : double;
  lastPeak_index : double;
  currentPeak_index : double;
  breathRate : Z;                   (* int *)
  s_peak2peak : double
}.

Definition boot : state :=
  {| IIRNotch_win := [0; 0; 0]%Q;
     IIRLowpass_win := [0; 0; 0]%Q;
     smooth := Smoother.init WindowsLen;
     arr_BR_Wave := repeat 0%Q (Z.to_nat BR_WAVE_LEN);
     BR_Wave_index := 0;
     peakThreshold := 0%Q;
     lastPeak_index := 0%Q;
     currentPeak_index := 0%Q;
     breathRate := 0;
     s_peak2peak := 0%Q |}.

(** The scanning loop is the one of ECG.c. *)
Definition scan := ECG.scan.

(** [Update_Threshold]: the new [s_peak2peak] and the new threshold. *)
Definition Update_Threshold (data_window : list double) (windowSize : Z)
  : double * double :=
  let '(peakMax, peakMin) := scan data_window windowSize in
  ((peakMax - peakMin)%D, (peakMax - (peakMax - peakMin) / 4%Q)%D).

Definition calRate (ppdistance : double) : option Z :=
  q <- ddiv 60000%Q ppdistance ;; d2i q.

Definition InitRESP (s : state) : state :=
  {| IIRNotch_win := [0; 0; 0]%Q;
     IIRLowpass_win := [0; 0; 0]%Q;
     smooth := smooth s;
     arr_BR_Wave := repeat 0%Q (Z.to_nat BR_WAVE_LEN);
     BR_Wave_index := 0;
     peakThreshold := 0%Q;
     lastPeak_index := 0%Q;
     currentPeak_index := 0%Q;
     breathRate := 0;
     s_peak2peak := 0%Q |}.

Definition front (inp : Z) (s : state) : option state :=
  let '(output1, nw) := IIRNotch (i2d inp) (IIRNotch_win s) in
  let '(output2, lw) := IIRLowpass output1 (IIRLowpass_win s) in
  '(output3, sm) <- SmoothingFilter output2 (smooth s) ;;
  let wave := wr (arr_BR_Wave s) (BR_Wave_index s) output3 in
  let index := BR_Wave_index s + 1 in
  let '(pp, thr) := if index >=? BR_WAVE_LEN
                    then Update_Threshold wave BR_WAVE_LEN
                    else (s_peak2peak s, peakThreshold s) in
  Some {| IIRNotch_win := nw;
          IIRLowpass_win := lw;
          smooth := sm;
          arr_BR_Wave := wave;
          BR_Wave_index := if index >=? BR_WAVE_LEN then 0 else index;
          peakThreshold := thr;
          lastPeak_index := lastPeak_index s;
          currentPeak_index := currentPeak_index s;
          breathRate := breathRate s;
          s_peak2peak := pp |}.

Definition peak_detected (s : state) : bool :=
  ((BR_Wave_index s >? 1) && (BR_Wave_index s <? BR_WAVE_LEN - 1))
  && (dle (rd 0%Q (arr_BR_Wave s) (BR_Wave_index s - 2)) (peakThreshold s)
      && dge (rd 0%Q (arr_BR_Wave s) (BR_Wave_index s - 1)) (peakThreshold s)).

Definition detect (now : Z) (s : state) : option state :=
  if peak_detected s then
    let cur := i2d (to_u32 now) in
    rate <- calRate (cur - lastPeak_index s)%D ;;
    Some {| IIRNotch_win := IIRNotch_win s;
            IIRLowpass_win := IIRLowpass_win s;
            smooth := smooth s;
            arr_BR_Wave := arr_BR_Wave s;
            BR_Wave_index := BR_Wave_index s;
            peakThreshold := peakThreshold s;
            lastPeak_index := cur;
            currentPeak_index := cur;
            breathRate := rate;
            s_peak2peak := s_peak2peak s |}
  else Some s.

(** [RESPTask(inp)], without the dump of the waveform in [WAVE_RESP] mode. *)
Definition RESPTask (inp now : Z) (s : state) : option state :=
  s1 <- front inp s ;; detect now s1.

Definition OLED_RESP (s : state) : state * list event :=
  let head := [OLEDShowString 0 32 "BR:"; OLEDShowString 64 32 "BPM";
               OLEDShowString 0 48 "RESP_LEAD:"] in
  if dlt (s_peak2peak s) 600%Q || dgt (s_peak2peak s) 3000%Q then
    (s, head ++ [OLEDShowString 88 48 "Noob";
                 OLEDShowString 32 32 "Err";
                 printf "[[2,Err]]\r\n" []])
  else
    (s, head ++ [OLEDShowString 88 48 "Good"] ++
        (if (breathRate s >=? 5) && (breathRate s <=? 100) then
           [OLEDShowNum 32 32 (breathRate s) 3 16;
            printf "[[2,%d]]\r\n" [breathRate s]]
         else
           [OLEDShowString 32 32 "Err";
            printf "[[2,Err]]\r\n" []])).

(** A sequence of calls of [RESPTask], each with its sample and the value
    the timer has during the call. *)
Fixpoint run (cs : list (Z * Z)) (s : state) : option state :=
  match cs with
  | [] => Some s
  | (inp, now) :: cs' => s1 <- RESPTask inp now s ;; run cs' s1
  end.

(** The states the module can be in: from the static initialisers, by
    [InitRESP] and [RESPTask] ([OLED_RESP] assigns nothing). *)
Inductive reachable : state -> Prop :=
| reach_boot : reachable boot
| reach_init s : reachable s -> reachable (InitRESP s)
| reach_task s inp now s' :
    reachable s -> RESPTask inp now s = Some s' -> reachable s'.

End RESP.

(* ------------------------------------------------------------------------- *)
(** ** SPO2.c (the second module carried by ECG.c) *)

Module SPO2.

Definition SMOOTH_LEN : Z := 5.
Definition SP_WAVE_LEN : Z := 300.
Definition HR_AVG_N : Z := 5.
Definition R_BUFSIZE : Z := 5.

Definition RED_INTENSITY_MIN : Z := 100.
Definition RED_INTENSITY_MAX : Z := 500.
Definition RED_INTENSITY_STEP : Z := 40.
Definition ADJUST_STABLE_DELAY : Z := 1.

Definition IIRLowpass_b : list double :=
  [0.00512926836610717; 0.0102585367322143; 0.00512926836610717]%Q.
Definition IIRLowpass_a : list double :=
  [1.0; -1.78743251795648; 0.807949591420913]%Q.
Definition IIRHighpass_b : list double :=
  [0.989393726763531; -1.97878745352706; 0.989393726763531]%Q.
Definition IIRHighpass_a : list double :=
  [1.0; -1.97867495733125; 0.978899949722877]%Q.

Definition IIRLowpass := Biquad.IIR IIRLowpass_b IIRLowpass_a.
Definition IIRHighpass := Biquad.IIR IIRHighpass_b IIRHighpass_a.

Definition SmoothingFilter_RED := Smoother.SmoothingFilter SMOOTH_LEN.
Definition SmoothingFilter_IR := Smoother.SmoothingFilter SMOOTH_LEN.

Record state : Type := mk {
  SPO2_Wave_data_RED : Z;           (* int *)
  SPO2_Wave_data_IR : Z;            (* int *)
  IIRLowpass_win_RED : list double;
  IIRLowpass_win_IR : list double;
  IIRHighpass_win_RED : list double;
  IIRHighpass_win_IR : list double;
  smooth_RED : Smoother.state;      (* statics of SmoothingFilter_RED *)
  smooth_IR : Smoother.state;       (* statics of SmoothingFilter_IR *)
  arr_SPO2_Wave_Rate : list double;
  SPO2_Wave_index : Z;
  peakThreshold : double;
  lastPeak_index : Z;               (* int *)
  currentPeak_index : Z;            (* int *)
  heartRate : Z;                    (* int *)
  hr_buf : list Z;
  hr_cnt : Z;
  arr_SPO2_Wave_RED : list double;
  arr_SPO2_Wave_IR : list double;
  peak2peak_RED : double;
  peak2peak_IR : double;
  value_R : double;
  value_SPO2 : double;
  rValue_buf : list Z;
  s_DACdata : Z;                    (* u16 *)
  adjust_wait_cnt : Z;              (* int *)
  led_state : Z                     (* u8, the static [state] of SPO2_LED_Task *)
}.

(** The static initialisers. *)
Definition boot : state :=
  {| SPO2_Wave_data_RED := 0;
     SPO2_Wave_data_IR := 0;
     IIRLowpass_win_RED := [0; 0; 0]%Q;
     IIRLowpass_win_IR := [0; 0; 0]%Q;
     IIRHighpass_win_RED := [0; 0; 0]%Q;
     IIRHighpass_win_IR := [0; 0; 0]%Q;
     smooth_RED := Smoother.init SMOOTH_LEN;
     smooth_IR := Smoother.init SMOOTH_LEN;
     arr_SPO2_Wave_Rate := repeat 0%Q (Z.to_nat SP_WAVE_LEN);
     SPO2_Wave_index := 0;
     peakThreshold := 0%Q;
     lastPeak_index := 0;
     currentPeak_index := 0;
     heartRate := 0;
     hr_buf := [0; 0; 0; 0; 0];
     hr_cnt := 0;
     arr_SPO2_Wave_RED := repeat 0%Q (Z.to_nat SP_WAVE_LEN);
     arr_SPO2_Wave_IR := repeat 0%Q (Z.to_nat SP_WAVE_LEN);
     peak2peak_RED := 0%Q;
     peak2peak_IR := 0%Q;
     value_R := 0%Q;
     value_SPO2 := 0%Q;
     rValue_buf := [0; 0; 0; 0; 0];
     s_DACdata := 0;
     adjust_wait_cnt := 0;
     led_state := 0 |}.

(** Minimum and maximum tracking of one wave inside the loop of
    [Analyze_SPO2Wave]; the accumulator is [(max, min)]. *)
Definition track (wave : list double) (i : Z) (acc : double * double)
  : double * double :=
  let '(wave_max, wave_min) := acc in
  let wave_min := if dlt (rd 0%Q wave i) wave_min
                  then rd 0%Q wave i else wave_min in
  let wave_max := if dgt (rd 0%Q wave i) wave_max
                  then rd 0%Q wave i else wave_max in
  (wave_max, wave_min).

(** The loop [for (i = 0; i < waveSize; i++)] over one wave, from
    [max = 0.0] and [min = 4095.0]. *)
Definition scan (wave : list double) (waveSize : Z) : double * double :=
  for_range 0 waveSize (track wave) (0%Q, 4095%Q).

(** [Analyze_SPO2Wave]: [*ppRed_output], [*ppIR_output] and the new
    [peakThreshold].  The three waves are tracked in one loop in the
    source; they do not interact. *)
Definition Analyze_SPO2Wave (wave1 wave2 wave3 : list double) (waveSize : Z)
  : double * double * double :=
  let '(wave1_max, wave1_min) := scan wave1 waveSize in
  let '(wave2_max, wave2_min) := scan wave2 waveSize in
  let '(wave3_max, wave3_min) := scan wave3 waveSize in
  ((wave1_max - wave1_min)%D,
   (wave2_max - wave2_min)%D,
   (wave3_max - (wave3_max - wave3_min) / 3%Q)%D).

Definition calRate (ppdistance : double) : option Z :=
  q <- ddiv 60000%Q ppdistance ;; d2i q.

(** The body of the inner loop of [bubbleSort]; the swap goes through
    [uint16_t temp]. *)
Definition bubble_swap (j : Z) (arr : list Z) : list Z :=
  if rd 0 arr j >? rd 0 arr (j + 1) then
    let temp := to_u16 (rd 0 arr j) in
    let arr := wr arr j (rd 0 arr (j + 1)) in
    wr arr (j + 1) temp
  else arr.

Definition bubbleSort (arr : list Z) (size : Z) : list Z :=
  for_range 0 (size - 1)
    (fun i arr => for_range 0 (size - i - 1) bubble_swap arr) arr.

(** The median step of [calSpO2]: copy of the history, sort, middle. *)
Definition median (rValue_buf : list Z) : Z :=
  let tempBuf := for_range 0 R_BUFSIZE
                   (fun i t => wr t i (rd 0 rValue_buf i)) [0; 0; 0; 0; 0] in
  let tempBuf := bubbleSort tempBuf R_BUFSIZE in
  if R_BUFSIZE mod 2 =? 0 then
    Z.quot (rd 0 tempBuf (R_BUFSIZE / 2) + rd 0 tempBuf (R_BUFSIZE / 2 + 1)) 2
  else rd 0 tempBuf (R_BUFSIZE / 2).

(** The R-value table of [calSpO2]; the last [else] is empty. *)
Definition table (rInt : Z) (spo2 : double) : double :=
  if rInt <=? 450 then 99%Q
  else if (rInt >=? 451) && (rInt <=? 470) then 98%Q
  else if (rInt >=? 471) && (rInt <=? 510) then 97%Q
  else if (rInt >=? 511) && (rInt <=? 540) then 96%Q
  else if (rInt >=? 541) && (rInt <=? 580) then 95%Q
  else if (rInt >=? 581) && (rInt <=? 600) then 94%Q
  else if (rInt >=? 601) && (rInt <=? 620) then 93%Q
  else if (rInt >=? 621) && (rInt <=? 640) then 92%Q
  else if (rInt >=? 641) && (rInt <=? 680) then 91%Q
  else if (rInt >=? 681) && (rInt <=? 720) then 90%Q
  else if (rInt >=? 721) && (rInt <=? 800) then 89%Q
  else if (rInt >=? 801) && (rInt <=? 940) then 88%Q
  else if (rInt >=? 941) && (rInt <=? 980) then 87%Q
  else if (rInt >=? 981) && (rInt <=? 1020) then 86%Q
  else if (rInt >=? 1021) && (rInt <=? 1060) then 85%Q
  else if (rInt >=? 1061) && (rInt <=? 1080) then 84%Q
  else if (rInt >=? 1081) && (rInt <=? 1100) then 83%Q
  else if (rInt >=? 1101) && (rInt <=? 1120) then 82%Q
  else if (rInt >=? 1121) && (rInt <=? 1150) then 81%Q
  else if (rInt >=? 1151) && (rInt <=? 1170) then 80%Q
  else if (rInt >=? 1171) && (rInt <=? 1200) then 79%Q
  else spo2.

(** The final clamp of [calSpO2]. *)
Definition clamp (spo2 : double) : double :=
  if dgt spo2 100%Q then 100%Q
  else if dlt spo2 70%Q then 70%Q
  else spo2.

(** [calSpO2]: the new [*rValue], [rValue_buf] and [*spo2].  The quotient
    and the product are exact here, as all arithmetic on doubles is; the
    code rounds each of the two to a [double] before the conversion to
    [int] that makes the new entry of the history. *)
Definition calSpO2 (redPeak irPeak : double) (rValue_buf : list Z)
           (spo2 : double) : option (double * list Z * double) :=
  q <- ddiv redPeak irPeak ;;
  let rValue := (q * 1000%Q)%D in
  let rValue_buf := for_range 0 (R_BUFSIZE - 1)
                      (fun i b => wr b i (rd 0 b (i + 1))) rValue_buf in
  r <- d2i rValue ;;
  let rValue_buf := wr rValue_buf (R_BUFSIZE - 1) r in
  let rInt := median rValue_buf in
  Some (rValue, rValue_buf, clamp (table rInt spo2)).

(** The automatic gain step of [SPO2Task]: the new [s_DACdata], the new
    [adjust_wait_cnt] and the calls of [AdjustDAC]. *)
Definition auto_gain (peak2peak_RED : double) (s_DACdata adjust_wait_cnt : Z)
  : Z * Z * list event :=
  if dlt peak2peak_RED 20%Q && (s_DACdata <? RED_INTENSITY_MAX) then
    let d := to_u16 (s_DACdata + RED_INTENSITY_STEP) in
    let d := if d >? RED_INTENSITY_MAX then RED_INTENSITY_MAX else d in
    (d, ADJUST_STABLE_DELAY, [AdjustDAC d])
  else if dgt peak2peak_RED 80%Q && (s_DACdata >? RED_INTENSITY_MIN) then
    let d := to_u16 (s_DACdata - RED_INTENSITY_STEP) in
    let d := if d <? RED_INTENSITY_MIN then RED_INTENSITY_MIN else d in
    (d, ADJUST_STABLE_DELAY, [AdjustDAC d])
  else (s_DACdata, adjust_wait_cnt, []).

Definition ConfigCSGPIO : list event :=
  [GPIO_WriteBit "GPIOA" 5 true; GPIO_WriteBit "GPIOA" 6 false].

Definition InitSPO2 (s : state) : state * list event :=
  ({| SPO2_Wave_data_RED := SPO2_Wave_data_RED s;
      SPO2_Wave_data_IR := SPO2_Wave_data_IR s;
      IIRLowpass_win_RED := [0; 0; 0]%Q;
      IIRLowpass_win_IR := [0; 0; 0]%Q;
      IIRHighpass_win_RED := IIRHighpass_win_RED s;
      IIRHighpass_win_IR := IIRHighpass_win_IR s;
      smooth_RED := smooth_RED s;
      smooth_IR := smooth_IR s;
      arr_SPO2_Wave_Rate := arr_SPO2_Wave_Rate s;
      SPO2_Wave_index := SPO2_Wave_index s;
      peakThreshold := peakThreshold s;
      lastPeak_index := lastPeak_index s;
      currentPeak_index := currentPeak_index s;
      heartRate := heartRate s;
      hr_buf := hr_buf s;
      hr_cnt := hr_cnt s;
      arr_SPO2_Wave_RED := arr_SPO2_Wave_RED s;
      arr_SPO2_Wave_IR := arr_SPO2_Wave_IR s;
      peak2peak_RED := peak2peak_RED s;
      peak2peak_IR := peak2peak_IR s;
      value_R := value_R s;
      value_SPO2 := value_SPO2 s;
      rValue_buf := rValue_buf s;
      s_DACdata := 240;
      adjust_wait_cnt := adjust_wait_cnt s;
      led_state := led_state s |}, ConfigCSGPIO).

(** The variables [SPO2_LED_Task] assigns. *)
Definition set_led (st red ir : Z) (s : state) : state :=
  {| SPO2_Wave_data_RED := red;
     SPO2_Wave_data_IR := ir;
     IIRLowpass_win_RED := IIRLowpass_win_RED s;
     IIRLowpass_win_IR := IIRLowpass_win_IR s;
     IIRHighpass_win_RED := IIRHighpass_win_RED s;
     IIRHighpass_win_IR := IIRHighpass_win_IR s;
     smooth_RED := smooth_RED s;
     smooth_IR := smooth_IR s;
     arr_SPO2_Wave_Rate := arr_SPO2_Wave_Rate s;
     SPO2_Wave_index := SPO2_Wave_index s;
     peakThreshold := peakThreshold s;
     lastPeak_index := lastPeak_index s;
     currentPeak_index := currentPeak_index s;
     heartRate := heartRate s;
     hr_buf := hr_buf s;
     hr_cnt := hr_cnt s;
     arr_SPO2_Wave_RED := arr_SPO2_Wave_RED s;
     arr_SPO2_Wave_IR := arr_SPO2_Wave_IR s;
     peak2peak_RED := peak2peak_RED s;
     peak2peak_IR := peak2peak_IR s;
     value_R := value_R s;
     value_SPO2 := value_SPO2 s;
     rValue_buf := rValue_buf s;
     s_DACdata := s_DACdata s;
     adjust_wait_cnt := adjust_wait_cnt s;
     led_state := st |}.

(** [SPO2_LED_Task], every millisecond; [adc] is what [ReadSPO2ADC()]
    returns. *)
Definition SPO2_LED_Task (adc : Z) (s : state) : state * list event :=
  let st := ((led_state s + 1) mod 8) mod 256 in
  if st =? 0 then
    (set_led st (SPO2_Wave_data_RED s) (SPO2_Wave_data_IR s) s,
     [GPIO_WriteBit "GPIOA" 5 true; GPIO_WriteBit "GPIOA" 6 false])
  else if st =? 2 then
    (set_led st (to_u16 adc) (SPO2_Wave_data_IR s) s,
     [GPIO_WriteBit "GPIOA" 5 false; GPIO_WriteBit "GPIOA" 6 false])
  else if st =? 4 then
    (set_led st (SPO2_Wave_data_RED s) (SPO2_Wave_data_IR s) s,
     [GPIO_WriteBit "GPIOA" 5 false; GPIO_WriteBit "GPIOA" 6 true])
  else if st =? 6 then
    (set_led st (SPO2_Wave_data_RED s) (to_u16 adc) s,
     [GPIO_WriteBit "GPIOA" 5 false; GPIO_WriteBit "GPIOA" 6 false])
  else
    (set_led st (SPO2_Wave_data_RED s) (SPO2_Wave_data_IR s) s, []).

(** [SPO2Task] up to [SPO2_Wave_index++]: the two filter chains and the
    writes into the three windows. *)
Definition front (s : state) : option state :=
  let '(output0_0, hr) := IIRHighpass (i2d (SPO2_Wave_data_RED s))
                                      (IIRHighpass_win_RED s) in
  let '(output0_1, hi) := IIRHighpass (i2d (SPO2_Wave_data_IR s))
                                      (IIRHighpass_win_IR s) in
  let '(output1_0, lr) := IIRLowpass output0_0 (IIRLowpass_win_RED s) in
  let '(output1_1, li) := IIRLowpass output0_1 (IIRLowpass_win_IR s) in
  '(output2_0, sr) <- SmoothingFilter_RED output1_0 (smooth_RED s) ;;
  '(output2_1, si) <- SmoothingFilter_IR output1_1 (smooth_IR s) ;;
  Some {| SPO2_Wave_data_RED := SPO2_Wave_data_RED s;
          SPO2_Wave_data_IR := SPO2_Wave_data_IR s;
          IIRLowpass_win_RED := lr;
          IIRLowpass_win_IR := li;
          IIRHighpass_win_RED := hr;
          IIRHighpass_win_IR := hi;
          smooth_RED := sr;
          smooth_IR := si;
          arr_SPO2_Wave_Rate := wr (arr_SPO2_Wave_Rate s) (SPO2_Wave_index s) output2_1;
          SPO2_Wave_index := SPO2_Wave_index s + 1;
          peakThreshold := peakThreshold s;
          lastPeak_index := lastPeak_index s;
          currentPeak_index := currentPeak_index s;
          heartRate := heartRate s;
          hr_buf := hr_buf s;
          hr_cnt := hr_cnt s;
          arr_SPO2_Wave_RED := wr (arr_SPO2_Wave_RED s) (SPO2_Wave_index s) output2_0;
          arr_SPO2_Wave_IR := wr (arr_SPO2_Wave_IR s) (SPO2_Wave_index s) output2_1;
          peak2peak_RED := peak2peak_RED s;
          peak2peak_IR := peak2peak_IR s;
          value_R := value_R s;
          value_SPO2 := value_SPO2 s;
          rValue_buf := rValue_buf s;
          s_DACdata := s_DACdata s;
          adjust_wait_cnt := adjust_wait_cnt s;
          led_state := led_state s |}.

(** The variables the wrap branch of [SPO2Task] assigns. *)
Definition set_wrap (index : Z) (thr ppR ppI rv spo2 : double) (rbuf : list Z)
           (dac wait : Z) (s : state) : state :=
  {| SPO2_Wave_data_RED := SPO2_Wave_data_RED s;
     SPO2_Wave_data_IR := SPO2_Wave_data_IR s;
     IIRLowpass_win_RED := IIRLowpass_win_RED s;
     IIRLowpass_win_IR := IIRLowpass_win_IR s;
     IIRHighpass_win_RED := IIRHighpass_win_RED s;
     IIRHighpass_win_IR := IIRHighpass_win_IR s;
     smooth_RED := smooth_RED s;
     smooth_IR := smooth_IR s;
     arr_SPO2_Wave_Rate := arr_SPO2_Wave_Rate s;
     SPO2_Wave_index := index;
     peakThreshold := thr;
     lastPeak_index := lastPeak_index s;
     currentPeak_index := currentPeak_index s;
     heartRate := heartRate s;
     hr_buf := hr_buf s;
     hr_cnt := hr_cnt s;
     arr_SPO2_Wave_RED := arr_SPO2_Wave_RED s;
     arr_SPO2_Wave_IR := arr_SPO2_Wave_IR s;
     peak2peak_RED := ppR;
     peak2peak_IR := ppI;
     value_R := rv;
     value_SPO2 := spo2;
     rValue_buf := rbuf;
     s_DACdata := dac;
     adjust_wait_cnt := wait;
     led_state := led_state s |}.

(** The waiting wrap: [SPO2_Wave_index = 0; adjust_wait_cnt--; return;]. *)
Definition skip_wrap (s : state) : state :=
  set_wrap 0 (peakThreshold s) (peak2peak_RED s) (peak2peak_IR s) (value_R s)
           (value_SPO2 s) (rValue_buf s) (s_DACdata s) (adjust_wait_cnt s - 1) s.

(** The analysing wrap: [Analyze_SPO2Wave], [calSpO2] and the automatic
    gain. *)
Definition analyse_wrap (s : state) : option (state * list event) :=
  let '(ppR, ppI, thr) :=
    Analyze_SPO2Wave (arr_SPO2_Wave_RED s) (arr_SPO2_Wave_IR s)
                     (arr_SPO2_Wave_Rate s) SP_WAVE_LEN in
  '(rv, rbuf, spo2) <- calSpO2 ppR ppI (rValue_buf s) (value_SPO2 s) ;;
  let '(dac, wait, ev) := auto_gain ppR (s_DACdata s) (adjust_wait_cnt s) in
  Some (set_wrap 0 thr ppR ppI rv spo2 rbuf dac wait s,
        Analyze_SPO2Wave_call :: calSpO2_call :: ev).

(** The condition of the falling-edge detection. *)
Definition peak_detected (s : state) : bool :=
  ((SPO2_Wave_index s >? 1) && (SPO2_Wave_index s <? SP_WAVE_LEN - 1))
  && (dge (rd 0%Q (arr_SPO2_Wave_Rate s) (SPO2_Wave_index s - 2)
           - peakThreshold s)%D 0%Q
      && dle (rd 0%Q (arr_SPO2_Wave_Rate s) (SPO2_Wave_index s - 1)
              - peakThreshold s)%D 0%Q).

(** The variables the detection assigns. *)
Definition set_rate (cur hr : Z) (buf : list Z) (cnt : Z) (s : state) : state :=
  {| SPO2_Wave_data_RED := SPO2_Wave_data_RED s;
     SPO2_Wave_data_IR := SPO2_Wave_data_IR s;
     IIRLowpass_win_RED := IIRLowpass_win_RED s;
     IIRLowpass_win_IR := IIRLowpass_win_IR s;
     IIRHighpass_win_RED := IIRHighpass_win_RED s;
     IIRHighpass_win_IR := IIRHighpass_win_IR s;
     smooth_RED := smooth_RED s;
     smooth_IR := smooth_IR s;
     arr_SPO2_Wave_Rate := arr_SPO2_Wave_Rate s;
     SPO2_Wave_index := SPO2_Wave_index s;
     peakThreshold := peakThreshold s;
     lastPeak_index := cur;
     currentPeak_index := cur;
     heartRate := hr;
     hr_buf := buf;
     hr_cnt := cnt;
     arr_SPO2_Wave_RED := arr_SPO2_Wave_RED s;
     arr_SPO2_Wave_IR := arr_SPO2_Wave_IR s;
     peak2peak_RED := peak2peak_RED s;
     peak2peak_IR := peak2peak_IR s;
     value_R := value_R s;
     value_SPO2 := value_SPO2 s;
     rValue_buf := rValue_buf s;
     s_DACdata := s_DACdata s;
     adjust_wait_cnt := adjust_wait_cnt s;
     led_state := led_state s |}.

(** What a detected peak does with its instantaneous rate [cur_hr]: the
    new [heartRate], [hr_buf] and [hr_cnt]. *)
Definition average (cur_hr : Z) (heartRate : Z) (hr_buf : list Z) (hr_cnt : Z)
  : option (Z * list Z * Z) :=
  if hr_cnt <=? 4 then
    Some (heartRate, wr hr_buf hr_cnt cur_hr, hr_cnt + 1)
  else
    hr_sum <- for_range_opt 0 5 (fun i sum => int_add sum (rd 0 hr_buf i)) 0 ;;
    Some (Z.quot hr_sum 5, hr_buf, 0).

(** The detection part of [SPO2Task]; [now] is what [GetTimeCounter()]
    returns. *)
Definition detect (now : Z) (s : state) : option state :=
  if peak_detected s then
    let cur := to_int now in
    pp <- int_sub cur (lastPeak_index s) ;;
    cur_hr <- calRate (i2d pp) ;;
    '(hr, buf, cnt) <- average cur_hr (heartRate s) (hr_buf s) (hr_cnt s) ;;
    Some (set_rate cur hr buf cnt s)
  else Some s.

(** [SPO2Task], every 8 ms, without the dump of the waveform in
    [WAVE_SPO2] mode.  The result carries the calls made during the wrap. *)
Definition SPO2Task (now : Z) (s : state) : option (state * list event) :=
  s1 <- front s ;;
  if SPO2_Wave_index s1 >=? SP_WAVE_LEN then
    if adjust_wait_cnt s1 >? 0 then
      Some (skip_wrap s1, [])
    else
      '(s2, ev) <- analyse_wrap s1 ;;
      s3 <- detect now s2 ;;
      Some (s3, ev)
  else
    s3 <- detect now s1 ;;
    Some (s3, []).

(** The two periodic entry points, as the dispatcher calls them. *)
Inductive call : Type :=
| LED (adc : Z)      (* SPO2_LED_Task, [adc] read from the converter *)
| TASK (now : Z).    (* SPO2Task, [now] read from the timer *)

Fixpoint run (cs : list call) (s : state) : option (state * list event) :=
  match cs with
  | [] => Some (s, [])
  | LED adc :: cs' =>
      let '(s1, ev) := SPO2_LED_Task adc s in
      '(s2, ev') <- run cs' s1 ;;
      Some (s2, ev ++ ev')
  | TASK now :: cs' =>
      '(s1, ev) <- SPO2Task now s ;;
      '(s2, ev') <- run cs' s1 ;;
      Some (s2, ev ++ ev')
  end.

(** Number of calls of [SPO2Task] in a sequence of calls. *)
Fixpoint tasks (cs : list call) : Z :=
  match cs with
  | [] => 0
  | LED _ :: cs' => tasks cs'
  | TASK _ :: cs' => 1 + tasks cs'
  end.

(** The states the module can be in: from the static initialisers, by its
    entry points. *)
Inductive reachable : state -> Prop :=
| reach_boot : reachable boot
| reach_init s : reachable s -> reachable (fst (InitSPO2 s))
| reach_led s adc : reachable s -> reachable (fst (SPO2_LED_Task adc s))
| reach_task s now s' ev :
    reachable s -> SPO2Task now s = Some (s', ev) -> reachable s'.

(** [OLED_SPO2]: the pulse rate and the saturation, cast to [int], on the
    serial line. *)
Definition OLED_SPO2 (s : state) : option (state * list event) :=
  spo2 <- d2i (value_SPO2 s) ;;
  Some (s, [printf "[[3,%d]]\r\n" [heartRate s];
            printf "[[4,%d]]\r\n" [spo2]]).

End SPO2.

(* ------------------------------------------------------------------------- *)
(** ** The three channels together *)

Module Monitor.

(** The variables of a channel are [static] in its own file: an entry
    point of one channel has no access to those of another. *)
Record state : Type := mk {
  ecg : ECG.state;
  resp : RESP.state;
  spo2 : SPO2.state
}.

Definition InitECG (m : state) : state :=
  {| ecg := fst (ECG.InitECG (ecg m)); resp := resp m; spo2 := spo2 m |}.

Definition InitRESP (m : state) : state :=
  {| ecg := ecg m; resp := RESP.InitRESP (resp m); spo2 := spo2 m |}.

Definition InitSPO2 (m : state) : state :=
  {| ecg := ecg m; resp := resp m; spo2 := fst (SPO2.InitSPO2 (spo2 m)) |}.

End Monitor.

(* ------------------------------------------------------------------------- *)
(** ** Notions of the specification *)

Module Spec.

(** The numbers a display routine puts out, on the OLED and on the serial
    line, in order. *)
Definition readings (ev : list event) : list Z :=
  flat_map (fun e => match e with
                     | OLEDShowNum _ _ num _ _ => [num]
                     | printf _ args => args
                     | _ => []
                     end) ev.

(** The error marker: the text [Err] on the OLED, or a serial record
    that carries it. *)
Definition is_error (e : event) : bool :=
  match shown_text e with
  | Some t => String.eqb t "Err" || String.eqb t "[[1,Err]]\r\n"
              || String.eqb t "[[2,Err]]\r\n"
  | None => false
  end.

Definition error_marker (ev : list event) : bool := existsb is_error ev.

(** [M] is the largest of [seed] and the samples [w[lo]] ... [w[hi-1]]. *)
Definition seeded_max (seed : double) (w : list double) (lo hi : Z)
           (M : double) : Prop :=
  (M = seed \/ exists i, lo <= i < hi /\ M = rd 0%Q w i)
  /\ (seed <= M)%Q
  /\ (forall i, lo <= i < hi -> (rd 0%Q w i <= M)%Q).

(** [m] is the smallest of [seed] and the samples [w[lo]] ... [w[hi-1]]. *)
Definition seeded_min (seed : double) (w : list double) (lo hi : Z)
           (m : double) : Prop :=
  (m = seed \/ exists i, lo <= i < hi /\ m = rd 0%Q w i)
  /\ (m <= seed)%Q
  /\ (forall i, lo <= i < hi -> (m <= rd 0%Q w i)%Q).

(** The largest and the smallest sample of a list. *)
Definition list_max (l : list double) : double :=
  fold_right (fun x m => if dlt m x then x else m) (hd 0%Q l) l.

Definition list_min (l : list double) : double :=
  fold_right (fun x m => if dlt x m then x else m) (hd 0%Q l) l.

(** The threshold in the words of the specification: [max - (max - min)/k]
    with the maximum and the minimum of the window without its index 0. *)
Definition spec_threshold (k : double) (w : list double) : double :=
  let M := list_max (tl w) in
  let m := list_min (tl w) in
  (M - (M - m) / k)%D.

(** A channel with all its processing state at zero, as the static
    initialisers leave it. *)
Definition ECG_zeroed (e : ECG.state) : Prop := e = ECG.boot.

Definition RESP_zeroed (r : RESP.state) : Prop := r = RESP.boot.

Definition SPO2_zeroed (s : SPO2.state) : Prop :=
  SPO2.IIRLowpass_win_RED s = [0; 0; 0]%Q
  /\ SPO2.IIRLowpass_win_IR s = [0; 0; 0]%Q
  /\ SPO2.IIRHighpass_win_RED s = [0; 0; 0]%Q
  /\ SPO2.IIRHighpass_win_IR s = [0; 0; 0]%Q
  /\ SPO2.smooth_RED s = Smoother.init SPO2.SMOOTH_LEN
  /\ SPO2.smooth_IR s = Smoother.init SPO2.SMOOTH_LEN
  /\ SPO2.arr_SPO2_Wave_Rate s = repeat 0%Q (Z.to_nat SPO2.SP_WAVE_LEN)
  /\ SPO2.arr_SPO2_Wave_RED s = repeat 0%Q (Z.to_nat SPO2.SP_WAVE_LEN)
  /\ SPO2.arr_SPO2_Wave_IR s = repeat 0%Q (Z.to_nat SPO2.SP_WAVE_LEN)
  /\ SPO2.SPO2_Wave_index s = 0
  /\ SPO2.peakThreshold s = 0%Q
  /\ SPO2.lastPeak_index s = 0
  /\ SPO2.currentPeak_index s = 0
  /\ SPO2.heartRate s = 0
  /\ SPO2.rValue_buf s = [0; 0; 0; 0; 0]
  /\ SPO2.hr_buf s = [0; 0; 0; 0; 0]
  /\ SPO2.hr_cnt s = 0
  /\ SPO2.adjust_wait_cnt s = 0.

(** The inputs a smoother of length [W] averages at its call number [k]
    (from 0): the last [W] of them, the one of call [k] included. *)
Definition last_inputs (W : nat) (zs : list Z) (k : nat) : list Z :=
  firstn W (skipn (k + 1 - W) zs).

Definition sum (l : list Z) : Z := fold_right Z.add 0 l.

(** The arithmetic mean of integer samples. *)
Definition mean (l : list Z) : Q :=
  (inject_Z (sum l) / inject_Z (Z.of_nat (length l)))%Q.

(** The rows of the calibration table as the specification lists them:
    lower bound, upper bound and saturation ([R <= 450] gives 99). *)
Definition table_rows : list (Z * Z * Z) :=
  [(451, 470, 98); (471, 510, 97); (511, 540, 96); (541, 580, 95);
   (581, 600, 94); (601, 620, 93); (621, 640, 92); (641, 680, 91);
   (681, 720, 90); (721, 800, 89); (801, 940, 88); (941, 980, 87);
   (981, 1020, 86); (1021, 1060, 85); (1061, 1080, 84); (1081, 1100, 83);
   (1101, 1120, 82); (1121, 1150, 81); (1151, 1170, 80); (1171, 1200, 79)].

(** The saturation the table of the specification gives for [r], if any:
    the bounds are inclusive, and above 1200 there is no entry. *)
Definition spec_saturation (r : Z) : option Z :=
  if r <=? 450 then Some 99
  else match find (fun row => let '(lo, hi, _) := row in
                              (lo <=? r) && (r <=? hi)) table_rows with
       | Some (_, _, v) => Some v
       | None => None
       end.

(** Checks on one value of [r], for the proofs by enumeration. *)
Definition row_ok (r : Z) (row : Z * Z * Z) : bool :=
  let '(lo, hi, v) := row in
  implb ((lo <=? r) && (r <=? hi))
        (match spec_saturation r with Some w => w =? v | None => false end).

Definition in_table_ok (r : Z) : bool :=
  match spec_saturation r with
  | Some v => (79 <=? v) && (v <=? 99)
  | None => false
  end.

Definition step_ok (r : Z) : bool :=
  match spec_saturation r, spec_saturation (r + 1) with
  | Some v, Some w => w <=? v
  | _, _ => false
  end.

Definition rows_ok (row : Z * Z * Z) : bool :=
  let '(lo, hi, v) := row in
  (451 <=? lo) && (lo <=? hi) && (hi <=? 1200).

(** A value of the [uint16_t] range. *)
Definition u16 (z : Z) : Prop := 0 <= z < 65536.

(** [m] is the median of five values: the middle one once they are put
    in order. *)
Definition middle_of (m : Z) (l : list Z) : Prop :=
  exists s1 s2 s4 s5,
    Permutation l [s1; s2; m; s4; s5]
    /\ s1 <= s2 /\ s2 <= m /\ m <= s4 /\ s4 <= s5.

(** The stored saturation is a value of the table. *)
Definition table_value (q : double) : Prop :=
  exists z, 79 <= z <= 99 /\ q = inject_Z z.

(** What holds of the saturation in every state the module can be in:
    either no analysis has run since the start, or the saturation is a
    value of the table. *)
Definition saturation_inv (s : SPO2.state) : Prop :=
  (SPO2.value_SPO2 s = 0%Q /\ SPO2.rValue_buf s = [0; 0; 0; 0; 0])
  \/ table_value (SPO2.value_SPO2 s).




(** The three ways through [SPO2Task]. *)
Inductive SPO2_path (now : Z) (s s' : SPO2.state) (ev : list event) : Prop :=
| path_plain s1 :
    SPO2.front s = Some s1 ->
    SPO2.SPO2_Wave_index s + 1 < SPO2.SP_WAVE_LEN ->
    SPO2.detect now s1 = Some s' -> ev = [] ->
    SPO2_path now s s' ev
| path_skip s1 :
    SPO2.front s = Some s1 ->
    SPO2.SPO2_Wave_index s + 1 >= SPO2.SP_WAVE_LEN ->
    SPO2.adjust_wait_cnt s > 0 ->
    s' = SPO2.skip_wrap s1 -> ev = [] ->
    SPO2_path now s s' ev
| path_analyse s1 :
    SPO2.front s = Some s1 ->
    SPO2.SPO2_Wave_index s + 1 >= SPO2.SP_WAVE_LEN ->
    SPO2.adjust_wait_cnt s <= 0 ->
    SPO2.analyse_wrap s1 = Some (s', ev) ->
    SPO2_path now s s' ev.

End Spec.
Import Spec.

(* ------------------------------------------------------------------------- *)
(** ** Notions for the further properties of the code *)

Module Props.

(** The statics of a smoother of length [W] are in order: the fill counter
    has not passed [W] and the ring has [W] slots. *)
Definition smoother_ok (W : Z) (st : Smoother.state) : Prop :=
  0 <= Smoother.i st <= W /\ length (Smoother.buf st) = Z.to_nat W.

(** Every index [ECGTask] is about to use lies inside its array, and the
    stored values are in the range of their types. *)
Definition ECG_ok (e : ECG.state) : Prop :=
  0 <= ECG.ECG_Wave_index e < ECG.HR_WAVE_LEN
  /\ length (ECG.arr_ECG_Wave e) = Z.to_nat ECG.HR_WAVE_LEN
  /\ length (ECG.IIRNotch_win e) = 3%nat
  /\ length (ECG.IIRHighpass_win e) = 3%nat
  /\ length (ECG.IIRLowpass_win e) = 3%nat
  /\ smoother_ok ECG.WindowsLen (ECG.smooth e)
  /\ 0 <= ECG.lastPeak_index e < 4294967296
  /\ ECG.currentPeak_index e = ECG.lastPeak_index e
  /\ 0 <= ECG.heartRate e <= 60000.

(** The same for [RESPTask]; the time of the last peak is kept in a
    [double] and holds a value of the 32-bit timer. *)
Definition RESP_ok (r : RESP.state) : Prop :=
  0 <= RESP.BR_Wave_index r < RESP.BR_WAVE_LEN
  /\ length (RESP.arr_BR_Wave r) = Z.to_nat RESP.BR_WAVE_LEN
  /\ length (RESP.IIRNotch_win r) = 3%nat
  /\ length (RESP.IIRLowpass_win r) = 3%nat
  /\ smoother_ok RESP.WindowsLen (RESP.smooth r)
  /\ (exists t, 0 <= t < 4294967296 /\ RESP.lastPeak_index r = i2d t)
  /\ RESP.currentPeak_index r = RESP.lastPeak_index r
  /\ -60000 <= RESP.breathRate r <= 60000.

(** A rate that the division of 60000 by a whole number of milliseconds
    can give. *)
Definition rate_range (r : Z) : Prop := -60000 <= r <= 60000.

(** The same for the SpO2 module: the part that every entry point keeps,
    and with it the position of the write index. *)
Definition SPO2_fields_ok (s : SPO2.state) : Prop :=
  length (SPO2.arr_SPO2_Wave_RED s) = Z.to_nat SPO2.SP_WAVE_LEN
  /\ length (SPO2.arr_SPO2_Wave_IR s) = Z.to_nat SPO2.SP_WAVE_LEN
  /\ length (SPO2.arr_SPO2_Wave_Rate s) = Z.to_nat SPO2.SP_WAVE_LEN
  /\ length (SPO2.IIRHighpass_win_RED s) = 3%nat
  /\ length (SPO2.IIRHighpass_win_IR s) = 3%nat
  /\ length (SPO2.IIRLowpass_win_RED s) = 3%nat
  /\ length (SPO2.IIRLowpass_win_IR s) = 3%nat
  /\ smoother_ok SPO2.SMOOTH_LEN (SPO2.smooth_RED s)
  /\ smoother_ok SPO2.SMOOTH_LEN (SPO2.smooth_IR s)
  /\ length (SPO2.hr_buf s) = Z.to_nat SPO2.HR_AVG_N
  /\ Forall rate_range (SPO2.hr_buf s)
  /\ 0 <= SPO2.hr_cnt s <= SPO2.HR_AVG_N
  /\ rate_range (SPO2.heartRate s)
  /\ length (SPO2.rValue_buf s) = Z.to_nat SPO2.R_BUFSIZE
  /\ 0 <= SPO2.adjust_wait_cnt s <= SPO2.ADJUST_STABLE_DELAY
  /\ 0 <= SPO2.s_DACdata s <= SPO2.RED_INTENSITY_MAX
  /\ 0 <= SPO2.led_state s <= 7
  /\ 0 <= SPO2.SPO2_Wave_data_RED s < 65536
  /\ 0 <= SPO2.SPO2_Wave_data_IR s < 65536
  /\ INT_MIN <= SPO2.lastPeak_index s <= INT_MAX
  /\ SPO2.currentPeak_index s = SPO2.lastPeak_index s.

Definition SPO2_ok (s : SPO2.state) : Prop :=
  0 <= SPO2.SPO2_Wave_index s < SPO2.SP_WAVE_LEN /\ SPO2_fields_ok s.

(** An event that is not a call of [AdjustDAC] with a drive outside the
    limits of the automatic gain. *)
Definition drive_in_limits (e : event) : Prop :=
  match e with
  | AdjustDAC v => SPO2.RED_INTENSITY_MIN <= v <= SPO2.RED_INTENSITY_MAX
  | _ => True
  end.

(** The levels of the two LED pins of port A, red on pin 5 and infrared on
    pin 6, after a write. *)
Definition led_write (pins : bool * bool) (e : event) : bool * bool :=
  match e with
  | GPIO_WriteBit port pin b =>
      if String.eqb port "GPIOA" && (pin =? 5) then (b, snd pins)
      else if String.eqb port "GPIOA" && (pin =? 6) then (fst pins, b)
      else pins
  | _ => pins
  end.

Definition leds_after (pins : bool * bool) (ev : list event) : bool * bool :=
  fold_left led_write ev pins.

(** The two LEDs are lit together at no point of a trace that starts with
    the levels [pins]. *)
Fixpoint never_both (pins : bool * bool) (ev : list event) : bool :=
  negb (fst pins && snd pins)
  && match ev with
     | [] => true
     | e :: ev' => never_both (led_write pins e) ev'
     end.

(** The levels that go with a phase of the LED state machine: red lit in
    phases 0 and 1, infrared in phases 4 and 5, both dark otherwise. *)
Definition phase_pins (st : Z) : bool * bool :=
  if (st =? 0) || (st =? 1) then (true, false)
  else if (st =? 4) || (st =? 5) then (false, true)
  else (false, false).

(** Number of calls of [SPO2_LED_Task] in a sequence of calls. *)
Fixpoint led_calls (cs : list SPO2.call) : Z :=
  match cs with
  | [] => 0
  | SPO2.LED _ :: cs' => 1 + led_calls cs'
  | SPO2.TASK _ :: cs' => led_calls cs'
  end.

(** The [k]-th most recent element of a sequence, [k] from 1; before the
    start of the sequence everything is zero. *)
Definition past (l : list double) (k : nat) : double :=
  nth (k - 1) (rev l) 0%Q.

(** The difference equation the sources state for their sections:
    [y[n] = b0*x[n] + b1*x[n-1] + b2*x[n-2] - a1*y[n-1] - a2*y[n-2]]. *)
Definition difference_equation (b a : list double) (xs ys : list double)
           (x : double) : Q :=
  (rd 0 b 0 * x + rd 0 b 1 * past xs 1 + rd 0 b 2 * past xs 2
   - rd 0 a 1 * past ys 1 - rd 0 a 2 * past ys 2)%Q.

(** A sample strictly between -1 and 1. *)
Definition below_one (q : double) : Prop := (-1 < q)%Q /\ (q < 1)%Q.

(** What the ring of a smoother of length [W] holds after the inputs
    [xs]: the inputs and then zeros while it fills, the last [W] inputs
    afterwards. *)
Definition ring_after (W : nat) (xs : list double) : list double :=
  if (length xs <=? W)%nat then xs ++ repeat 0%Q (W - length xs)
  else skipn (length xs - W) xs.

(** An ECG channel at rest: nothing but zeros in the delay lines, in the
    ring of the smoother and in the window, and a threshold of zero, as
    the static initialisers and [InitECG] leave them. *)
Definition ECG_at_rest (e : ECG.state) : Prop :=
  ECG.IIRNotch_win e = [0; 0; 0]%Q
  /\ ECG.IIRHighpass_win e = [0; 0; 0]%Q
  /\ ECG.IIRLowpass_win e = [0; 0; 0]%Q
  /\ Smoother.buf (ECG.smooth e) = [0; 0; 0]%Q
  /\ 0 <= Smoother.i (ECG.smooth e) <= 3
  /\ ECG.arr_ECG_Wave e = repeat 0%Q (Z.to_nat ECG.HR_WAVE_LEN)
  /\ ECG.peakThreshold e = 0%Q.

End Props.
Import Props.

(* ------------------------------------------------------------------------- *)
(** ** Concrete states used as examples *)

(** A heart rate of 72 with the leads on, a breath rate of 16 with an
    amplitude of 1000. *)
Definition C9_ecg : ECG.state :=
  {| ECG.IIRNotch_win := [0; 0; 0]%Q;
     ECG.IIRLowpass_win := [0; 0; 0]%Q;
     ECG.IIRHighpass_win := [0; 0; 0]%Q;
     ECG.smooth := Smoother.init 3;
     ECG.arr_ECG_Wave := repeat 0%Q 300;
     ECG.ECG_Wave_index := 7;
     ECG.peakThreshold := 0%Q;
     ECG.lastPeak_index := 4000;
     ECG.currentPeak_index := 4000;
     ECG.heartRate := 72 |}.

Definition C9_resp : RESP.state :=
  {| RESP.IIRNotch_win := [0; 0; 0]%Q;
     RESP.IIRLowpass_win := [0; 0; 0]%Q;
     RESP.smooth := Smoother.init 100;
     RESP.arr_BR_Wave := repeat 0%Q 1000;
     RESP.BR_Wave_index := 7;
     RESP.peakThreshold := 0%Q;
     RESP.lastPeak_index := 4000%Q;
     RESP.currentPeak_index := 4000%Q;
     RESP.breathRate := 16;
     RESP.s_peak2peak := 1000%Q |}.

(** A peak one tick after the start of a window, 800 ms after the
    previous one. *)
Definition C8_ecg : ECG.state :=
  {| ECG.IIRNotch_win := [0; 0; 0]%Q;
     ECG.IIRLowpass_win := [0; 0; 0]%Q;
     ECG.IIRHighpass_win := [0; 0; 0]%Q;
     ECG.smooth := Smoother.init 3;
     ECG.arr_ECG_Wave := repeat 0%Q 300;
     ECG.ECG_Wave_index := 1;
     ECG.peakThreshold := 0%Q;
     ECG.lastPeak_index := 1000;
     ECG.currentPeak_index := 1000;
     ECG.heartRate := 0 |}.

Definition C8_ecg1 : ECG.state :=
  Eval vm_compute in
    match ECG.front 0 C8_ecg with Some s => s | None => C8_ecg end.

Definition C8_resp : RESP.state :=
  {| RESP.IIRNotch_win := [0; 0; 0]%Q;
     RESP.IIRLowpass_win := [0; 0; 0]%Q;
     RESP.smooth := Smoother.init 100;
     RESP.arr_BR_Wave := repeat 0%Q 1000;
     RESP.BR_Wave_index := 1;
     RESP.peakThreshold := 0%Q;
     RESP.lastPeak_index := 1000%Q;
     RESP.currentPeak_index := 1000%Q;
     RESP.breathRate := 0;
     RESP.s_peak2peak := 0%Q |}.

Definition C8_resp1 : RESP.state :=
  Eval vm_compute in
    match RESP.front 0 C8_resp with Some s => s | None => C8_resp end.

(** A wrap of the SpO2 window whose largest sample sits at index 0. *)
Definition C7_spo2 : SPO2.state :=
  {| SPO2.SPO2_Wave_data_RED := 0;
     SPO2.SPO2_Wave_data_IR := 0;
     SPO2.IIRLowpass_win_RED := [0; 0; 0]%Q;
     SPO2.IIRLowpass_win_IR := [0; 0; 0]%Q;
     SPO2.IIRHighpass_win_RED := [0; 0; 0]%Q;
     SPO2.IIRHighpass_win_IR := [0; 0; 0]%Q;
     SPO2.smooth_RED := Smoother.init 5;
     SPO2.smooth_IR := Smoother.init 5;
     SPO2.arr_SPO2_Wave_Rate := 30%Q :: repeat 0%Q 299;
     SPO2.SPO2_Wave_index := 299;
     SPO2.peakThreshold := 0%Q;
     SPO2.lastPeak_index := 0;
     SPO2.currentPeak_index := 0;
     SPO2.heartRate := 0;
     SPO2.hr_buf := [0; 0; 0; 0; 0];
     SPO2.hr_cnt := 0;
     SPO2.arr_SPO2_Wave_RED := 30%Q :: repeat 0%Q 299;
     SPO2.arr_SPO2_Wave_IR := 30%Q :: repeat 0%Q 299;
     SPO2.peak2peak_RED := 0%Q;
     SPO2.peak2peak_IR := 0%Q;
     SPO2.value_R := 0%Q;
     SPO2.value_SPO2 := 0%Q;
     SPO2.rValue_buf := [0; 0; 0; 0; 0];
     SPO2.s_DACdata := 240;
     SPO2.adjust_wait_cnt := 0;
     SPO2.led_state := 0 |}.

(** The same wrap during the wait that follows a gain step, with a
    threshold of 5 left from before. *)
Definition C7_spo2_wait : SPO2.state :=
  {| SPO2.SPO2_Wave_data_RED := 0;
     SPO2.SPO2_Wave_data_IR := 0;
     SPO2.IIRLowpass_win_RED := [0; 0; 0]%Q;
     SPO2.IIRLowpass_win_IR := [0; 0; 0]%Q;
     SPO2.IIRHighpass_win_RED := [0; 0; 0]%Q;
     SPO2.IIRHighpass_win_IR := [0; 0; 0]%Q;
     SPO2.smooth_RED := Smoother.init 5;
     SPO2.smooth_IR := Smoother.init 5;
     SPO2.arr_SPO2_Wave_Rate := 30%Q :: repeat 0%Q 299;
     SPO2.SPO2_Wave_index := 299;
     SPO2.peakThreshold := 5%Q;
     SPO2.lastPeak_index := 0;
     SPO2.currentPeak_index := 0;
     SPO2.heartRate := 0;
     SPO2.hr_buf := [0; 0; 0; 0; 0];
     SPO2.hr_cnt := 0;
     SPO2.arr_SPO2_Wave_RED := 30%Q :: repeat 0%Q 299;
     SPO2.arr_SPO2_Wave_IR := 30%Q :: repeat 0%Q 299;
     SPO2.peak2peak_RED := 0%Q;
     SPO2.peak2peak_IR := 0%Q;
     SPO2.value_R := 0%Q;
     SPO2.value_SPO2 := 0%Q;
     SPO2.rValue_buf := [0; 0; 0; 0; 0];
     SPO2.s_DACdata := 280;
     SPO2.adjust_wait_cnt := 1;
     SPO2.led_state := 0 |}.

(** A wrap of the ECG window with all samples below zero: -4 in the
    window and -8 coming out of the smoother. *)
Definition C7_ecg : ECG.state :=
  {| ECG.IIRNotch_win := [0; 0; 0]%Q;
     ECG.IIRLowpass_win := [0; 0; 0]%Q;
     ECG.IIRHighpass_win := [0; 0; 0]%Q;
     ECG.smooth := {| Smoother.i := 3; Smoother.buf := [-12; -12; -12]%Q |};
     ECG.arr_ECG_Wave := repeat (-4)%Q 300;
     ECG.ECG_Wave_index := 299;
     ECG.peakThreshold := 0%Q;
     ECG.lastPeak_index := 0;
     ECG.currentPeak_index := 0;
     ECG.heartRate := 0 |}.

(** A wrap of the RESP window, flat at 0. *)
Definition C7_resp : RESP.state :=
  {| RESP.IIRNotch_win := [0; 0; 0]%Q;
     RESP.IIRLowpass_win := [0; 0; 0]%Q;
     RESP.smooth := Smoother.init 100;
     RESP.arr_BR_Wave := repeat 0%Q 1000;
     RESP.BR_Wave_index := 999;
     RESP.peakThreshold := 0%Q;
     RESP.lastPeak_index := 0%Q;
     RESP.currentPeak_index := 0%Q;
     RESP.breathRate := 0;
     RESP.s_peak2peak := 0%Q |}.

Definition C7_ecg' : ECG.state :=
  Eval vm_compute in
    match ECG.ECGTask 0 0 C7_ecg with Some s => s | None => C7_ecg end.

Definition C7_resp' : RESP.state :=
  Eval vm_compute in
    match RESP.RESPTask 0 0 C7_resp with Some s => s | None => C7_resp end.

Definition C7_spo2' : SPO2.state :=
  Eval vm_compute in
    match SPO2.SPO2Task 0 C7_spo2 with Some (s, _) => s | None => C7_spo2 end.

(** A monitor that has been running: the ECG smoother is full, the SpO2
    module has three rates in its batch and waits after a gain step. *)
Definition C3_monitor : Monitor.state :=
  {| Monitor.ecg :=
       {| ECG.IIRNotch_win := [0; 0; 0]%Q;
          ECG.IIRLowpass_win := [0; 0; 0]%Q;
          ECG.IIRHighpass_win := [0; 0; 0]%Q;
          ECG.smooth := {| Smoother.i := 3; Smoother.buf := [1; 2; 3]%Q |};
          ECG.arr_ECG_Wave := repeat 0%Q 300;
          ECG.ECG_Wave_index := 3;
          ECG.peakThreshold := 0%Q;
          ECG.lastPeak_index := 0;
          ECG.currentPeak_index := 0;
          ECG.heartRate := 0 |};
     Monitor.resp :=
       {| RESP.IIRNotch_win := [0; 0; 0]%Q;
          RESP.IIRLowpass_win := [0; 0; 0]%Q;
          RESP.smooth := {| Smoother.i := 1; Smoother.buf := 1%Q :: repeat 0%Q 99 |};
          RESP.arr_BR_Wave := repeat 0%Q 1000;
          RESP.BR_Wave_index := 1;
          RESP.peakThreshold := 0%Q;
          RESP.lastPeak_index := 0%Q;
          RESP.currentPeak_index := 0%Q;
          RESP.breathRate := 0;
          RESP.s_peak2peak := 0%Q |};
     Monitor.spo2 :=
       {| SPO2.SPO2_Wave_data_RED := 0;
          SPO2.SPO2_Wave_data_IR := 0;
          SPO2.IIRLowpass_win_RED := [0; 0; 0]%Q;
          SPO2.IIRLowpass_win_IR := [0; 0; 0]%Q;
          SPO2.IIRHighpass_win_RED := [0; 0; 0]%Q;
          SPO2.IIRHighpass_win_IR := [0; 0; 0]%Q;
          SPO2.smooth_RED := Smoother.init 5;
          SPO2.smooth_IR := Smoother.init 5;
          SPO2.arr_SPO2_Wave_Rate := repeat 0%Q 300;
          SPO2.SPO2_Wave_index := 7;
          SPO2.peakThreshold := 0%Q;
          SPO2.lastPeak_index := 5000;
          SPO2.currentPeak_index := 5000;
          SPO2.heartRate := 0;
          SPO2.hr_buf := [60; 60; 60; 0; 0];
          SPO2.hr_cnt := 3;
          SPO2.arr_SPO2_Wave_RED := repeat 0%Q 300;
          SPO2.arr_SPO2_Wave_IR := repeat 0%Q 300;
          SPO2.peak2peak_RED := 10%Q;
          SPO2.peak2peak_IR := 40%Q;
          SPO2.value_R := 250%Q;
          SPO2.value_SPO2 := 99%Q;
          SPO2.rValue_buf := [0; 0; 0; 250; 250];
          SPO2.s_DACdata := 280;
          SPO2.adjust_wait_cnt := 1;
          SPO2.led_state := 0 |} |}.

(** From the static initial state, with the converter at 0: the first call
    of [SPO2Task] at 1000 ms detects nothing, the following calls detect a
    peak each.  The first five peaks have the rates 30, 60, 75, 100, 120;
    the sixth, at 5300 ms, has the rate 150. *)
Definition C5_calls : list SPO2.call :=
  map SPO2.TASK [1000; 2000; 3000; 3800; 4400; 4900].

Definition C5_after_five : SPO2.state :=
  Eval vm_compute in
    match SPO2.run C5_calls SPO2.boot with
    | Some (s, _) => s
    | None => SPO2.boot
    end.

(** From the static initial state: 298 calls of [SPO2Task] 8 ms apart with
    the converter at 0, six calls of [SPO2_LED_Task] that latch 60000 on
    both wavelengths, and one more call of [SPO2Task].  The next call
    wraps the window and analyses it. *)
Definition SPO2_first_calls : list SPO2.call :=
  map (fun k => SPO2.TASK (8 * Z.of_nat k)) (seq 1 298)
  ++ repeat (SPO2.LED 60000) 6
  ++ [SPO2.TASK 2392].

Definition SPO2_first_pre : SPO2.state :=
  Eval vm_compute in
    match SPO2.run SPO2_first_calls SPO2.boot with
    | Some (s, _) => s
    | None => SPO2.boot
    end.

Definition SPO2_first_post : SPO2.state :=
  Eval vm_compute in
    match SPO2.SPO2Task 2400 SPO2_first_pre with
    | Some (s, _) => s
    | None => SPO2.boot
    end.

(** An SpO2 channel one call before the wrap of its windows, its filters
    at rest: [red] and [ir] at index 0 of the two amplitude windows and
    zeros elsewhere, so that the analysis finds the amplitudes [red] and
    [ir]; the ratio history is [rbuf] and the stored saturation [spo2].
    The LED drive is 240 and no wait is pending. *)
Definition SPO2_analysing (red ir : double) (rbuf : list Z) (spo2 : double)
  : SPO2.state :=
  {| SPO2.SPO2_Wave_data_RED := 0;
     SPO2.SPO2_Wave_data_IR := 0;
     SPO2.IIRLowpass_win_RED := [0; 0; 0]%Q;
     SPO2.IIRLowpass_win_IR := [0; 0; 0]%Q;
     SPO2.IIRHighpass_win_RED := [0; 0; 0]%Q;
     SPO2.IIRHighpass_win_IR := [0; 0; 0]%Q;
     SPO2.smooth_RED := Smoother.init 5;
     SPO2.smooth_IR := Smoother.init 5;
     SPO2.arr_SPO2_Wave_Rate := ir :: repeat 0%Q 299;
     SPO2.SPO2_Wave_index := 299;
     SPO2.peakThreshold := 0%Q;
     SPO2.lastPeak_index := 0;
     SPO2.currentPeak_index := 0;
     SPO2.heartRate := 0;
     SPO2.hr_buf := [0; 0; 0; 0; 0];
     SPO2.hr_cnt := 0;
     SPO2.arr_SPO2_Wave_RED := red :: repeat 0%Q 299;
     SPO2.arr_SPO2_Wave_IR := ir :: repeat 0%Q 299;
     SPO2.peak2peak_RED := 0%Q;
     SPO2.peak2peak_IR := 0%Q;
     SPO2.value_R := 0%Q;
     SPO2.value_SPO2 := spo2;
     SPO2.rValue_buf := rbuf;
     SPO2.s_DACdata := 240;
     SPO2.adjust_wait_cnt := 0;
     SPO2.led_state := 0 |}.

(** The fourth analysis after the start: the first three found a RED
    amplitude of 66 on an IR amplitude of 1, a ratio of 66000 each, and
    left the saturation at 99; this one finds a RED amplitude of 30 on an
    IR amplitude of 60, a ratio of 500. *)
Definition C4_fourth : SPO2.state :=
  SPO2_analysing 30%Q 60%Q [0; 0; 66000; 66000; 66000] 99%Q.

Definition C4_fourth' : SPO2.state :=
  Eval vm_compute in
    match SPO2.SPO2Task 9600 C4_fourth with
    | Some (s, _) => s
    | None => SPO2.boot
    end.

(** After [InitSPO2]: 298 calls of [SPO2Task] with the converter at 0, a
    round of [SPO2_LED_Task] that latches 2000 on RED and 60000 on IR, and
    call 299 of [SPO2Task].  Call 300 wraps the window. *)
Definition C1_calls : list SPO2.call :=
  map (fun k => SPO2.TASK (8 * Z.of_nat k)) (seq 1 298)
  ++ [SPO2.LED 0; SPO2.LED 2000; SPO2.LED 0; SPO2.LED 0; SPO2.LED 0;
      SPO2.LED 60000]
  ++ [SPO2.TASK 2392].

Definition C1_pre : SPO2.state :=
  Eval vm_compute in
    match SPO2.run C1_calls (fst (SPO2.InitSPO2 SPO2.boot)) with
    | Some (s, _) => s
    | None => SPO2.boot
    end.

Definition C1_post : SPO2.state :=
  Eval vm_compute in
    match SPO2.SPO2Task 2400 C1_pre with
    | Some (s, _) => s
    | None => SPO2.boot
    end.






(** *** States for the further properties *)

(** An ECG channel at rest, at the write index [index], with the last
    peak at the time [last]. *)
Definition ECG_rest (index last : Z) : ECG.state :=
  {| ECG.IIRNotch_win := [0; 0; 0]%Q;
     ECG.IIRLowpass_win := [0; 0; 0]%Q;
     ECG.IIRHighpass_win := [0; 0; 0]%Q;
     ECG.smooth := Smoother.init 3;
     ECG.arr_ECG_Wave := repeat 0%Q 300;
     ECG.ECG_Wave_index := index;
     ECG.peakThreshold := 0%Q;
     ECG.lastPeak_index := last;
     ECG.currentPeak_index := last;
     ECG.heartRate := 0 |}.

(** The same for RESP. *)
Definition RESP_rest (index last : Z) : RESP.state :=
  {| RESP.IIRNotch_win := [0; 0; 0]%Q;
     RESP.IIRLowpass_win := [0; 0; 0]%Q;
     RESP.smooth := Smoother.init 100;
     RESP.arr_BR_Wave := repeat 0%Q 1000;
     RESP.BR_Wave_index := index;
     RESP.peakThreshold := 0%Q;
     RESP.lastPeak_index := i2d last;
     RESP.currentPeak_index := i2d last;
     RESP.breathRate := 0;
     RESP.s_peak2peak := 0%Q |}.

(** An SpO2 channel with its filters at rest, one call before the wrap of
    its windows: [red] and [ir] at index 0 of the two amplitude windows,
    zeros elsewhere, the ratio history [rbuf] and the drive [dac]. *)
Definition SPO2_before_wrap (red ir : double) (rbuf : list Z) (dac : Z)
  : SPO2.state :=
  {| SPO2.SPO2_Wave_data_RED := 0;
     SPO2.SPO2_Wave_data_IR := 0;
     SPO2.IIRLowpass_win_RED := [0; 0; 0]%Q;
     SPO2.IIRLowpass_win_IR := [0; 0; 0]%Q;
     SPO2.IIRHighpass_win_RED := [0; 0; 0]%Q;
     SPO2.IIRHighpass_win_IR := [0; 0; 0]%Q;
     SPO2.smooth_RED := Smoother.init 5;
     SPO2.smooth_IR := Smoother.init 5;
     SPO2.arr_SPO2_Wave_Rate := ir :: repeat 0%Q 299;
     SPO2.SPO2_Wave_index := 299;
     SPO2.peakThreshold := 0%Q;
     SPO2.lastPeak_index := 0;
     SPO2.currentPeak_index := 0;
     SPO2.heartRate := 0;
     SPO2.hr_buf := [0; 0; 0; 0; 0];
     SPO2.hr_cnt := 0;
     SPO2.arr_SPO2_Wave_RED := red :: repeat 0%Q 299;
     SPO2.arr_SPO2_Wave_IR := ir :: repeat 0%Q 299;
     SPO2.peak2peak_RED := 0%Q;
     SPO2.peak2peak_IR := 0%Q;
     SPO2.value_R := 0%Q;
     SPO2.value_SPO2 := 0%Q;
     SPO2.rValue_buf := rbuf;
     SPO2.s_DACdata := dac;
     SPO2.adjust_wait_cnt := 0;
     SPO2.led_state := 0 |}.

(** The state a call of [SPO2Task] leads to, for the examples. *)
Definition SPO2_after (now : Z) (s : SPO2.state) : SPO2.state :=
  match SPO2.SPO2Task now s with Some (s', _) => s' | None => s end.

(** An ECG channel one call after a peak at 4294967196 ms, 100 ms before
    the 32-bit timer wraps, and that channel after the first part of the
    next call. *)
Definition ECG_late : ECG.state := ECG_rest 1 4294967196.

Definition ECG_late_1 : ECG.state :=
  Eval vm_compute in
    match ECG.front 0 ECG_late with Some s => s | None => ECG_late end.

Definition RESP_late : RESP.state := RESP_rest 1 4294967196.

Definition RESP_late_1 : RESP.state :=
  Eval vm_compute in
    match RESP.front 0 RESP_late with Some s => s | None => RESP_late end.

(** An ECG channel one call before the wrap of its window, and after it. *)
Definition ECG_wrapping : ECG.state := ECG_rest 299 0.

Definition ECG_wrapped : ECG.state :=
  Eval vm_compute in
    match ECG.ECGTask 0 0 ECG_wrapping with
    | Some s => s
    | None => ECG_wrapping
    end.

(** A RESP channel one call before the wrap of its window, at rest: the
    window holds 20 at index 0, 8 and 4 behind it and zeros elsewhere.
    And that channel after the call. *)
Definition RESP_wrapping : RESP.state :=
  {| RESP.IIRNotch_win := [0; 0; 0]%Q;
     RESP.IIRLowpass_win := [0; 0; 0]%Q;
     RESP.smooth := Smoother.init 100;
     RESP.arr_BR_Wave := 20%Q :: 8%Q :: 4%Q :: repeat 0%Q 997;
     RESP.BR_Wave_index := 999;
     RESP.peakThreshold := 0%Q;
     RESP.lastPeak_index := 0%Q;
     RESP.currentPeak_index := 0%Q;
     RESP.breathRate := 0;
     RESP.s_peak2peak := 0%Q |}.

Definition RESP_wrapped : RESP.state :=
  Eval vm_compute in
    match RESP.RESPTask 0 10 RESP_wrapping with
    | Some s => s
    | None => RESP_wrapping
    end.

(** The RESP channel after [InitRESP] and one call. *)
Definition RESP_one_call : RESP.state :=
  Eval vm_compute in
    match RESP.run [(0, 10)] (RESP.InitRESP RESP.boot) with
    | Some s => s
    | None => RESP.boot
    end.

(** An SpO2 channel with one rate stored, a peak at 1000 ms behind it. *)
Definition SPO2_beat : SPO2.state :=
  {| SPO2.SPO2_Wave_data_RED := 0;
     SPO2.SPO2_Wave_data_IR := 0;
     SPO2.IIRLowpass_win_RED := [0; 0; 0]%Q;
     SPO2.IIRLowpass_win_IR := [0; 0; 0]%Q;
     SPO2.IIRHighpass_win_RED := [0; 0; 0]%Q;
     SPO2.IIRHighpass_win_IR := [0; 0; 0]%Q;
     SPO2.smooth_RED := Smoother.init 5;
     SPO2.smooth_IR := Smoother.init 5;
     SPO2.arr_SPO2_Wave_Rate := repeat 0%Q 300;
     SPO2.SPO2_Wave_index := 1;
     SPO2.peakThreshold := 0%Q;
     SPO2.lastPeak_index := 1000;
     SPO2.currentPeak_index := 1000;
     SPO2.heartRate := 0;
     SPO2.hr_buf := [60; 0; 0; 0; 0];
     SPO2.hr_cnt := 1;
     SPO2.arr_SPO2_Wave_RED := repeat 0%Q 300;
     SPO2.arr_SPO2_Wave_IR := repeat 0%Q 300;
     SPO2.peak2peak_RED := 0%Q;
     SPO2.peak2peak_IR := 0%Q;
     SPO2.value_R := 0%Q;
     SPO2.value_SPO2 := 0%Q;
     SPO2.rValue_buf := [0; 0; 0; 0; 0];
     SPO2.s_DACdata := 240;
     SPO2.adjust_wait_cnt := 0;
     SPO2.led_state := 0 |}.

Definition SPO2_beat_1 : SPO2.state :=
  Eval vm_compute in
    match SPO2.front SPO2_beat with Some s => s | None => SPO2_beat end.

(** Wraps of the SpO2 windows: a RED amplitude of 30 inside the dead band
    of the gain, a RED amplitude of 10 with a ratio of 250 in the history,
    and an infrared window without any amplitude. *)
Definition SPO2_steady : SPO2.state :=
  SPO2_before_wrap 30%Q 30%Q [0; 0; 0; 0; 0] 240.

Definition SPO2_steady' : SPO2.state :=
  Eval vm_compute in SPO2_after 0 SPO2_steady.

Definition SPO2_second : SPO2.state :=
  SPO2_before_wrap 10%Q 30%Q [0; 0; 0; 0; 250] 240.

Definition SPO2_second' : SPO2.state :=
  Eval vm_compute in SPO2_after 0 SPO2_second.

Definition SPO2_dark : SPO2.state :=
  SPO2_before_wrap 10%Q 0%Q [0; 0; 0; 0; 0] 240.

Definition SPO2_dark_1 : SPO2.state :=
  Eval vm_compute in
    match SPO2.front SPO2_dark with Some s => s | None => SPO2_dark end.

(** The SpO2 channel after [InitSPO2], one call of the LED task and one
    call of [SPO2Task]. *)
Definition SPO2_started : SPO2.state :=
  Eval vm_compute in
    match SPO2.run [SPO2.LED 0; SPO2.TASK 8] (fst (SPO2.InitSPO2 SPO2.boot)) with
    | Some (s, _) => s
    | None => SPO2.boot
    end.

(** Two analyses with ratios inside the [uint16_t] range: a history whose
    middle value 500 lies in the row 471 to 510, and one whose middle
    value 1400 lies above the table. *)
Definition SPO2_in_row : SPO2.state :=
  SPO2_analysing 30%Q 60%Q [470; 480; 500; 520; 540] 98%Q.

Definition SPO2_in_row' : SPO2.state :=
  Eval vm_compute in
    match SPO2.SPO2Task 2400 SPO2_in_row with
    | Some (s, _) => s
    | None => SPO2.boot
    end.

Definition SPO2_above : SPO2.state :=
  SPO2_analysing 30%Q 60%Q [0; 1300; 1400; 1500; 1600] 97%Q.

Definition SPO2_above' : SPO2.state :=
  Eval vm_compute in
    match SPO2.SPO2Task 2400 SPO2_above with
    | Some (s, _) => s
    | None => SPO2.boot
    end.

(** The ECG channel after one call from the static initialisers. *)
Definition ECG_one_call : ECG.state :=
  Eval vm_compute in
    match ECG.run [(0, 5)] ECG.boot with Some s => s | None => ECG.boot end.

(* ------------------------------------------------------------------------- *)
(** * Properties *)

(** ** Numbers *)

Lemma Some_inj {A : Type} (a b : A) : Some a = Some b -> a = b.
Proof. intros H. congruence. Qed.

Lemma in_int_true (z : Z) : INT_MIN <= z <= INT_MAX -> in_int z = true.
Proof.
  intros [H1 H2]. unfold in_int.
  apply andb_true_intro; split; apply Z.leb_le; assumption.
Qed.

Lemma trunc_nonneg (q : Q) : (0 <= q)%Q -> trunc q = Qfloor q.
Proof.
  destruct q as [n d]. unfold Qle, trunc, Qfloor. simpl.
  intros H. apply Z.quot_div_nonneg; lia.
Qed.

Lemma trunc_opp (q : Q) : trunc (- q)%Q = - trunc q.
Proof.
  destruct q as [n d]. unfold trunc. simpl. apply Z.quot_opp_l. lia.
Qed.

Lemma trunc_Qeq (p q : Q) : (p == q)%Q -> trunc p = trunc q.
Proof.
  intros E. destruct (Qlt_le_dec p 0) as [Hn | Hp].
  - assert (Hq : (q < 0)%Q) by (rewrite <- E; exact Hn).
    assert (E' : (- p == - q)%Q) by (rewrite E; reflexivity).
    assert (T : trunc (- p)%Q = trunc (- q)%Q).
    { rewrite !trunc_nonneg.
      - rewrite E'. reflexivity.
      - apply (Qopp_le_compat q 0). apply Qlt_le_weak. exact Hq.
      - apply (Qopp_le_compat p 0). apply Qlt_le_weak. exact Hn. }
    rewrite !trunc_opp in T. lia.
  - assert (Hq : (0 <= q)%Q) by (rewrite <- E; exact Hp).
    rewrite !trunc_nonneg by assumption. rewrite E. reflexivity.
Qed.

Lemma trunc_inject_Z (z : Z) : trunc (inject_Z z) = z.
Proof. unfold trunc. simpl. apply Z.quot_1_r. Qed.

Lemma d2i_Qeq (p q : Q) : (p == q)%Q -> d2i p = d2i q.
Proof. intros E. unfold d2i. rewrite (trunc_Qeq p q E). reflexivity. Qed.

Lemma dlt_true (a b : Q) : dlt a b = true <-> (a < b)%Q.
Proof.
  unfold dlt. rewrite Qlt_alt. destruct (a ?= b)%Q; split; congruence.
Qed.

Lemma dlt_false (a b : Q) : dlt a b = false <-> (b <= a)%Q.
Proof.
  rewrite <- Bool.not_true_iff_false, dlt_true. split.
  - apply Qnot_lt_le.
  - apply Qle_not_lt.
Qed.

Lemma dadd_Qeq (a b : Q) : (dadd a b == a + b)%Q.
Proof. apply Qred_correct. Qed.

Lemma dsub_Qeq (a b : Q) : (dsub a b == a - b)%Q.
Proof. apply Qred_correct. Qed.

Lemma dmul_Qeq (a b : Q) : (dmul a b == a * b)%Q.
Proof. apply Qred_correct. Qed.

Lemma dquo_Qeq (a b : Q) : (dquo a b == a / b)%Q.
Proof. apply Qred_correct. Qed.

(** [60000.0 / d] cast to [int], for a distance that is a positive
    integer. *)
Lemma rate_of_distance (q : Q) (d : Z) :
  (q == inject_Z d)%Q -> 0 < d ->
  (x <- ddiv 60000%Q q ;; d2i x) = Some (Z.quot 60000 d).
Proof.
  intros E Hd. unfold ddiv.
  assert (Hz : Qeq_bool q 0 = false).
  { destruct (Qeq_bool q 0) eqn:B; [| reflexivity].
    apply Qeq_bool_eq in B. rewrite E in B. unfold Qeq in B. simpl in B. lia. }
  rewrite Hz. simpl.
  assert (Hq : (dquo 60000 q == 60000 / inject_Z d)%Q).
  { rewrite dquo_Qeq, E. reflexivity. }
  rewrite (d2i_Qeq _ _ Hq). unfold d2i.
  assert (T : trunc (60000 / inject_Z d)%Q = Z.quot 60000 d).
  { destruct d as [| p | p]; try lia. unfold trunc. simpl. reflexivity. }
  rewrite T. rewrite in_int_true; [reflexivity |].
  unfold INT_MIN, INT_MAX.
  assert (0 <= Z.quot 60000 d) by (apply Z.quot_pos; lia).
  assert (Z.quot 60000 d <= 60000).
  { rewrite Z.quot_div_nonneg by lia.
    apply Z.div_le_upper_bound; nia. }
  lia.
Qed.

(** A zero distance makes the division, and with it the call, undefined. *)
Lemma rate_of_zero_distance (q : Q) :
  (q == 0)%Q -> (x <- ddiv 60000%Q q ;; d2i x) = None.
Proof.
  intros E. unfold ddiv.
  rewrite (proj2 (Qeq_bool_iff q 0) E). reflexivity.
Qed.

(** ** Arrays *)

Section ArrayFacts.
Context {A : Type} (d : A).

Lemma rd_cons (x : A) (l : list A) (i : Z) :
  0 <= i -> rd d (x :: l) (i + 1) = rd d l i.
Proof.
  intros H. unfold rd. replace (Z.to_nat (i + 1)) with (S (Z.to_nat i)) by lia.
  reflexivity.
Qed.

Lemma wr_cons (x v : A) (l : list A) (i : Z) :
  0 <= i -> wr (x :: l) (i + 1) v = x :: wr l i v.
Proof.
  intros H. unfold wr.
  rewrite (proj2 (Z.ltb_ge (i + 1) 0)) by lia.
  rewrite (proj2 (Z.ltb_ge i 0)) by lia.
  replace (Z.to_nat (i + 1)) with (S (Z.to_nat i)) by lia. reflexivity.
Qed.

Lemma wr_app (l1 l2 : list A) (a v : A) :
  wr (l1 ++ a :: l2) (Z.of_nat (length l1)) v = l1 ++ v :: l2.
Proof.
  unfold wr. rewrite (proj2 (Z.ltb_ge _ 0)) by lia. rewrite Nat2Z.id.
  induction l1 as [| x l1 IH]; simpl; [reflexivity | rewrite IH; reflexivity].
Qed.

Lemma rd_app_here (l1 l2 : list A) (a : A) :
  rd d (l1 ++ a :: l2) (Z.of_nat (length l1)) = a.
Proof.
  unfold rd. rewrite Nat2Z.id. rewrite app_nth2 by lia.
  rewrite Nat.sub_diag. reflexivity.
Qed.

End ArrayFacts.

Lemma to_u16_small (z : Z) : 0 <= z < 65536 -> to_u16 z = z.
Proof. intros H. unfold to_u16. apply Z.mod_small. exact H. Qed.

(** ** The display routines (C9, C10) *)

Lemma band_test (lo hi v : Z) :
  (v >=? lo) && (v <=? hi) = true <-> lo <= v <= hi.
Proof. rewrite andb_true_iff, Z.geb_le, Z.leb_le. tauto. Qed.

(** C9.  With the leads in order, the display routine of the ECG puts
    out the heart rate exactly when it lies in [20,250], and that of RESP
    the breath rate exactly when it lies in [5,100]; outside the band it
    puts out the error marker and no number.  No display call, whatever
    the lead status, changes the state of its channel, so the stored rate
    stays as it was. *)
Theorem C9_display_plausibility_band :
  forall (e : ECG.state) (r : RESP.state) (lead_off : Z),
    lead_off <> 1 ->
    dlt (RESP.s_peak2peak r) 600%Q = false ->
    dgt (RESP.s_peak2peak r) 3000%Q = false ->
    let ev1 := snd (ECG.OLED_ECG lead_off e) in
    let ev2 := snd (RESP.OLED_RESP r) in
    (20 <= ECG.heartRate e <= 250 ->
       readings ev1 = [ECG.heartRate e; ECG.heartRate e]
       /\ error_marker ev1 = false)
    /\ (~ 20 <= ECG.heartRate e <= 250 ->
          readings ev1 = [] /\ error_marker ev1 = true)
    /\ (5 <= RESP.breathRate r <= 100 ->
          readings ev2 = [RESP.breathRate r; RESP.breathRate r]
          /\ error_marker ev2 = false)
    /\ (~ 5 <= RESP.breathRate r <= 100 ->
          readings ev2 = [] /\ error_marker ev2 = true)
    /\ (forall l, fst (ECG.OLED_ECG l e) = e)
    /\ fst (RESP.OLED_RESP r) = r.
Proof.
  intros e r l Hl H6 H3 ev1 ev2. subst ev1 ev2.
  assert (L : (l =? 1) = false) by (apply Z.eqb_neq; exact Hl).
  unfold ECG.OLED_ECG, RESP.OLED_RESP. rewrite L, H6, H3. simpl.
  repeat split.
  - apply band_test in H. rewrite H. reflexivity.
  - apply band_test in H. rewrite H. reflexivity.
  - rewrite <- band_test in H. apply not_true_is_false in H.
    rewrite H. reflexivity.
  - rewrite <- band_test in H. apply not_true_is_false in H.
    rewrite H. reflexivity.
  - apply band_test in H. rewrite H. reflexivity.
  - apply band_test in H. rewrite H. reflexivity.
  - rewrite <- band_test in H. apply not_true_is_false in H.
    rewrite H. reflexivity.
  - rewrite <- band_test in H. apply not_true_is_false in H.
    rewrite H. reflexivity.
  - intros l'. destruct (l' =? 1); reflexivity.
Qed.

Lemma C9_display_plausibility_band_witness :
  readings (snd (ECG.OLED_ECG 0 C9_ecg)) = [72; 72]
  /\ readings (snd (RESP.OLED_RESP C9_resp)) = [16; 16].
Proof.
  assert (H0 : 0 <> 1) by lia.
  assert (H6 : dlt (RESP.s_peak2peak C9_resp) 600%Q = false) by reflexivity.
  assert (H3 : dgt (RESP.s_peak2peak C9_resp) 3000%Q = false) by reflexivity.
  destruct (C9_display_plausibility_band C9_ecg C9_resp 0 H0 H6 H3)
    as [A [_ [B _]]].
  split.
  - apply A. simpl. lia.
  - apply B. simpl. lia.
Defined.

(** C10.  When the lead-off input reads 1 (electrode off), [OLED_ECG]
    puts out the error marker and no number, whatever the stored heart
    rate is, a rate inside [20,250] included. *)
Theorem C10_lead_off_precedence :
  forall (e : ECG.state),
    let ev := snd (ECG.OLED_ECG 1 e) in
    readings ev = []
    /\ error_marker ev = true
    /\ In (OLEDShowString 32 0 "Err") ev
    /\ In (printf "[[1,Err]]\r\n" []) ev
    /\ ECG.heartRate (fst (ECG.OLED_ECG 1 e)) = ECG.heartRate e.
Proof.
  intros e. simpl. repeat split; auto 10.
Qed.

(** ** The rate of a detected peak (C8) *)

Ltac split_pair :=
  match goal with
  | |- context [let '(_, _) := ?e in _] =>
      let o := fresh "o" in let w := fresh "w" in destruct e as [o w]
  | H : context [let '(_, _) := ?e in _] |- _ =>
      let o := fresh "o" in let w := fresh "w" in destruct e as [o w]
  end.

Lemma ECG_front_keeps (inp : Z) (s s1 : ECG.state) :
  ECG.front inp s = Some s1 ->
  ECG.lastPeak_index s1 = ECG.lastPeak_index s
  /\ ECG.currentPeak_index s1 = ECG.currentPeak_index s
  /\ ECG.heartRate s1 = ECG.heartRate s.
Proof.
  unfold ECG.front. intros H. repeat split_pair.
  destruct (ECG.SmoothingFilter _ _) as [[o4 sm] |]; cbn [bind] in H;
    [| discriminate].
  apply Some_inj in H. subst s1. repeat split; reflexivity.
Qed.

Lemma RESP_front_keeps (inp : Z) (s s1 : RESP.state) :
  RESP.front inp s = Some s1 ->
  RESP.lastPeak_index s1 = RESP.lastPeak_index s
  /\ RESP.currentPeak_index s1 = RESP.currentPeak_index s
  /\ RESP.breathRate s1 = RESP.breathRate s.
Proof.
  unfold RESP.front. intros H. repeat split_pair.
  destruct (RESP.SmoothingFilter _ _) as [[o4 sm] |]; cbn [bind] in H;
    [| discriminate].
  repeat split_pair.
  apply Some_inj in H. subst s1. repeat split; reflexivity.
Qed.

Lemma to_u32_small (z : Z) : 0 <= z < 4294967296 -> to_u32 z = z.
Proof. intros H. unfold to_u32. apply Z.mod_small. exact H. Qed.

(** C8.  When a call of [ECGTask] or of [RESPTask] detects a peak at time
    [t2] and the previous peak was at [t1 < t2], the call stores the rate
    [60000 / (t2 - t1)] truncated toward zero, and [t2] as the time of the
    last peak.  When [t2 = t1] the division by the distance is a division
    by zero and the call has no defined result. *)
Theorem C8_rate_of_peak_interval :
  forall (inp t1 t2 : Z) (e e1 : ECG.state) (r r1 : RESP.state),
    0 <= t1 -> t1 <= t2 -> t2 < 4294967296 ->
    ECG.front inp e = Some e1 -> ECG.peak_detected e1 = true ->
    ECG.lastPeak_index e = t1 ->
    RESP.front inp r = Some r1 -> RESP.peak_detected r1 = true ->
    RESP.lastPeak_index r = i2d t1 ->
    (t1 < t2 ->
       (exists e', ECG.ECGTask inp t2 e = Some e'
                   /\ ECG.heartRate e' = Z.quot 60000 (t2 - t1)
                   /\ ECG.lastPeak_index e' = t2)
       /\ (exists r', RESP.RESPTask inp t2 r = Some r'
                      /\ RESP.breathRate r' = Z.quot 60000 (t2 - t1)
                      /\ RESP.lastPeak_index r' = i2d t2))
    /\ (t1 = t2 ->
          ECG.ECGTask inp t2 e = None /\ RESP.RESPTask inp t2 r = None).
Proof.
  intros inp t1 t2 e e1 r r1 H0 H12 H2 Fe Pe Le Fr Pr Lr.
  destruct (ECG_front_keeps _ _ _ Fe) as [Le1 _].
  destruct (RESP_front_keeps _ _ _ Fr) as [Lr1 _].
  unfold ECG.ECGTask, RESP.RESPTask. rewrite Fe, Fr. cbn [bind].
  unfold ECG.detect, RESP.detect. rewrite Pe, Pr.
  rewrite Le1, Le, Lr1, Lr. unfold ECG.calRate, RESP.calRate.
  rewrite (to_u32_small t2) by lia.
  split.
  - intros Hlt. rewrite (to_u32_small (t2 - t1)) by lia.
    rewrite (rate_of_distance (i2d (t2 - t1)) (t2 - t1)) by (reflexivity || lia).
    rewrite (rate_of_distance (i2d t2 - i2d t1)%D (t2 - t1)).
    + cbn [bind]. split; eexists; repeat split.
    + rewrite dsub_Qeq. unfold i2d, Qminus, Z.sub.
      rewrite inject_Z_plus, inject_Z_opp. reflexivity.
    + lia.
  - intros <-. rewrite Z.sub_diag.
    rewrite rate_of_zero_distance by reflexivity.
    rewrite rate_of_zero_distance; [split; reflexivity |].
    rewrite dsub_Qeq. unfold Qminus. apply Qplus_opp_r.
Qed.

Lemma C8_rate_of_peak_interval_witness :
  (exists e', ECG.ECGTask 0 1800 C8_ecg = Some e'
              /\ ECG.heartRate e' = 75
              /\ ECG.lastPeak_index e' = 1800)
  /\ (exists r', RESP.RESPTask 0 1800 C8_resp = Some r'
                 /\ RESP.breathRate r' = 75
                 /\ RESP.lastPeak_index r' = i2d 1800).
Proof.
  assert (H0 : 0 <= 1000) by lia.
  assert (H1 : 1000 <= 1800) by lia.
  assert (H2 : 1800 < 4294967296) by lia.
  assert (Fe : ECG.front 0 C8_ecg = Some C8_ecg1) by (vm_compute; reflexivity).
  assert (Pe : ECG.peak_detected C8_ecg1 = true) by (vm_compute; reflexivity).
  assert (Le : ECG.lastPeak_index C8_ecg = 1000) by reflexivity.
  assert (Fr : RESP.front 0 C8_resp = Some C8_resp1) by (vm_compute; reflexivity).
  assert (Pr : RESP.peak_detected C8_resp1 = true) by (vm_compute; reflexivity).
  assert (Lr : RESP.lastPeak_index C8_resp = i2d 1000) by reflexivity.
  assert (Hlt : 1000 < 1800) by lia.
  exact (proj1 (C8_rate_of_peak_interval 0 1000 1800 C8_ecg C8_ecg1
                  C8_resp C8_resp1 H0 H1 H2 Fe Pe Le Fr Pr Lr) Hlt).
Defined.

(** ** The threshold refresh (C7) *)

Lemma track_scan_step (w : list double) (i : Z) (acc : double * double) :
  SPO2.track w i acc = ECG.scan_step w i acc.
Proof. destruct acc as [M m]. reflexivity. Qed.

Lemma for_up_ext {S : Type} (f g : Z -> S -> S) :
  (forall i s, f i s = g i s) ->
  forall n i s, for_up n i f s = for_up n i g s.
Proof.
  intros E n. induction n as [| n IH]; intros i s; simpl.
  - reflexivity.
  - rewrite E. apply IH.
Qed.

(** What the scanning loop computes, whatever its bounds and seeds. *)
Lemma scan_up_spec (w : list double) :
  forall (n : nat) (lo : Z) (M0 m0 M m : double),
    for_up n lo (ECG.scan_step w) (M0, m0) = (M, m) ->
    seeded_max M0 w lo (lo + Z.of_nat n) M
    /\ seeded_min m0 w lo (lo + Z.of_nat n) m.
Proof.
  induction n as [| n IH]; intros lo M0 m0 M m H.
  - simpl in H. inversion H; subst. split.
    + repeat split; [left; reflexivity | apply Qle_refl | intros i Hi; lia].
    + repeat split; [left; reflexivity | apply Qle_refl | intros i Hi; lia].
  - simpl for_up in H.
    set (x := rd 0%Q w lo) in *.
    set (M1 := if dgt x M0 then x else M0) in *.
    set (m1 := if dlt x m0 then x else m0) in *.
    change (ECG.scan_step w lo (M0, m0)) with (M1, m1) in H.
    destruct (IH (lo + 1) M1 m1 M m H) as [[SM [LM UM]] [Sm [Lm Um]]].
    assert (B : lo + 1 + Z.of_nat n = lo + Z.of_nat (S n)) by lia.
    rewrite B in *.
    assert (M01 : (M0 <= M1)%Q /\ (x <= M1)%Q /\ (M1 = M0 \/ M1 = x)).
    { subst M1. unfold dgt. destruct (dlt M0 x) eqn:D.
      - apply dlt_true in D. repeat split.
        + apply Qlt_le_weak. exact D.
        + apply Qle_refl.
        + right. reflexivity.
      - apply dlt_false in D. repeat split.
        + apply Qle_refl.
        + exact D.
        + left. reflexivity. }
    assert (m01 : (m1 <= m0)%Q /\ (m1 <= x)%Q /\ (m1 = m0 \/ m1 = x)).
    { subst m1. destruct (dlt x m0) eqn:D.
      - apply dlt_true in D. repeat split.
        + apply Qlt_le_weak. exact D.
        + apply Qle_refl.
        + right. reflexivity.
      - apply dlt_false in D. repeat split.
        + apply Qle_refl.
        + exact D.
        + left. reflexivity. }
    destruct M01 as [A1 [A2 A3]]. destruct m01 as [B1 [B2 B3]].
    split; repeat split.
    + destruct SM as [SM | [i [Hi SM]]].
      * destruct A3 as [A3 | A3].
        -- left. rewrite SM. exact A3.
        -- right. exists lo. split; [lia | rewrite SM; exact A3].
      * right. exists i. split; [lia | exact SM].
    + apply Qle_trans with M1; assumption.
    + intros i Hi. destruct (Z.eq_dec i lo) as [-> | Ne].
      * apply Qle_trans with M1; assumption.
      * apply UM. lia.
    + destruct Sm as [Sm | [i [Hi Sm]]].
      * destruct B3 as [B3 | B3].
        -- left. rewrite Sm. exact B3.
        -- right. exists lo. split; [lia | rewrite Sm; exact B3].
      * right. exists i. split; [lia | exact Sm].
    + apply Qle_trans with m1; assumption.
    + intros i Hi. destruct (Z.eq_dec i lo) as [-> | Ne].
      * apply Qle_trans with m1; assumption.
      * apply Um. lia.
Qed.

Lemma ECG_scan_spec (w : list double) (L : Z) (M m : double) :
  1 <= L -> ECG.scan w L = (M, m) ->
  seeded_max 0%Q w 1 L M /\ seeded_min 4095%Q w 1 L m.
Proof.
  intros HL H. unfold ECG.scan, for_range in H.
  apply scan_up_spec in H.
  replace (1 + Z.of_nat (Z.to_nat (L - 1))) with L in H by lia.
  exact H.
Qed.

Lemma SPO2_scan_spec (w : list double) (L : Z) (M m : double) :
  0 <= L -> SPO2.scan w L = (M, m) ->
  seeded_max 0%Q w 0 L M /\ seeded_min 4095%Q w 0 L m.
Proof.
  intros HL H. unfold SPO2.scan, for_range in H.
  rewrite (for_up_ext _ _ (track_scan_step w)) in H.
  apply scan_up_spec in H.
  replace (0 + Z.of_nat (Z.to_nat (L - 0))) with L in H by lia.
  exact H.
Qed.

(** *** What the parts of the tasks leave alone *)

Lemma ECG_front_threshold (inp : Z) (s s1 : ECG.state) :
  ECG.front inp s = Some s1 ->
  (ECG.ECG_Wave_index s + 1 >= ECG.HR_WAVE_LEN ->
     ECG.peakThreshold s1 = ECG.Update_Threshold (ECG.arr_ECG_Wave s1) ECG.HR_WAVE_LEN
     /\ ECG.ECG_Wave_index s1 = 0)
  /\ (ECG.ECG_Wave_index s + 1 < ECG.HR_WAVE_LEN ->
        ECG.peakThreshold s1 = ECG.peakThreshold s
        /\ ECG.ECG_Wave_index s1 = ECG.ECG_Wave_index s + 1).
Proof.
  unfold ECG.front. intros H. repeat split_pair.
  destruct (ECG.SmoothingFilter _ _) as [[o4 sm] |]; cbn [bind] in H;
    [| discriminate].
  apply Some_inj in H. subst s1.
  cbn [ECG.peakThreshold ECG.arr_ECG_Wave ECG.ECG_Wave_index].
  split; intros Hi.
  - rewrite (proj2 (Z.geb_le _ _)) by lia. split; reflexivity.
  - destruct (Z.geb_spec (ECG.ECG_Wave_index s + 1) ECG.HR_WAVE_LEN); [lia |].
    split; reflexivity.
Qed.

Lemma ECG_detect_keeps (now : Z) (s s' : ECG.state) :
  ECG.detect now s = Some s' ->
  ECG.peakThreshold s' = ECG.peakThreshold s
  /\ ECG.arr_ECG_Wave s' = ECG.arr_ECG_Wave s
  /\ ECG.ECG_Wave_index s' = ECG.ECG_Wave_index s.
Proof.
  unfold ECG.detect. intros H. destruct (ECG.peak_detected s).
  - destruct (ECG.calRate _) as [rate |]; cbn [bind] in H; [| discriminate].
    apply Some_inj in H. subst s'. repeat split; reflexivity.
  - apply Some_inj in H. subst s'. repeat split; reflexivity.
Qed.

Lemma RESP_front_threshold (inp : Z) (s s1 : RESP.state) :
  RESP.front inp s = Some s1 ->
  (RESP.BR_Wave_index s + 1 >= RESP.BR_WAVE_LEN ->
     RESP.peakThreshold s1
     = snd (RESP.Update_Threshold (RESP.arr_BR_Wave s1) RESP.BR_WAVE_LEN)
     /\ RESP.BR_Wave_index s1 = 0)
  /\ (RESP.BR_Wave_index s + 1 < RESP.BR_WAVE_LEN ->
        RESP.peakThreshold s1 = RESP.peakThreshold s
        /\ RESP.BR_Wave_index s1 = RESP.BR_Wave_index s + 1).
Proof.
  unfold RESP.front. intros H. repeat split_pair.
  destruct (RESP.SmoothingFilter _ _) as [[o4 sm] |]; cbn [bind] in H;
    [| discriminate].
  destruct (Z.geb_spec (RESP.BR_Wave_index s + 1) RESP.BR_WAVE_LEN) as [G | G].
  - destruct (RESP.Update_Threshold _ _) as [pp thr] eqn:U.
    apply Some_inj in H. subst s1.
    cbn [RESP.peakThreshold RESP.arr_BR_Wave RESP.BR_Wave_index].
    split; intros Hi; [| lia]. rewrite U. split; reflexivity.
  - apply Some_inj in H. subst s1.
    cbn [RESP.peakThreshold RESP.arr_BR_Wave RESP.BR_Wave_index].
    split; intros Hi; [lia |]. split; reflexivity.
Qed.

Lemma RESP_detect_keeps (now : Z) (s s' : RESP.state) :
  RESP.detect now s = Some s' ->
  RESP.peakThreshold s' = RESP.peakThreshold s
  /\ RESP.arr_BR_Wave s' = RESP.arr_BR_Wave s
  /\ RESP.BR_Wave_index s' = RESP.BR_Wave_index s.
Proof.
  unfold RESP.detect. intros H. destruct (RESP.peak_detected s).
  - destruct (RESP.calRate _) as [rate |]; cbn [bind] in H; [| discriminate].
    apply Some_inj in H. subst s'. repeat split; reflexivity.
  - apply Some_inj in H. subst s'. repeat split; reflexivity.
Qed.

(** The fields of the SpO2 state that the wrap and the detection work
    with; [front] touches none of them but the index. *)
Lemma SPO2_front_keeps (s s1 : SPO2.state) :
  SPO2.front s = Some s1 ->
  SPO2.SPO2_Wave_index s1 = SPO2.SPO2_Wave_index s + 1
  /\ SPO2.adjust_wait_cnt s1 = SPO2.adjust_wait_cnt s
  /\ SPO2.s_DACdata s1 = SPO2.s_DACdata s
  /\ SPO2.peakThreshold s1 = SPO2.peakThreshold s
  /\ SPO2.value_SPO2 s1 = SPO2.value_SPO2 s
  /\ SPO2.rValue_buf s1 = SPO2.rValue_buf s
  /\ SPO2.peak2peak_RED s1 = SPO2.peak2peak_RED s
  /\ SPO2.peak2peak_IR s1 = SPO2.peak2peak_IR s
  /\ SPO2.value_R s1 = SPO2.value_R s.
Proof.
  unfold SPO2.front. intros H. repeat split_pair.
  destruct (SPO2.SmoothingFilter_RED _ _) as [[o20 sr] |]; cbn [bind] in H;
    [| discriminate].
  destruct (SPO2.SmoothingFilter_IR _ _) as [[o21 si] |]; cbn [bind] in H;
    [| discriminate].
  apply Some_inj in H. subst s1. repeat split; reflexivity.
Qed.

Lemma SPO2_detect_keeps (now : Z) (s s' : SPO2.state) :
  SPO2.detect now s = Some s' ->
  SPO2.SPO2_Wave_index s' = SPO2.SPO2_Wave_index s
  /\ SPO2.adjust_wait_cnt s' = SPO2.adjust_wait_cnt s
  /\ SPO2.s_DACdata s' = SPO2.s_DACdata s
  /\ SPO2.peakThreshold s' = SPO2.peakThreshold s
  /\ SPO2.value_SPO2 s' = SPO2.value_SPO2 s
  /\ SPO2.rValue_buf s' = SPO2.rValue_buf s
  /\ SPO2.peak2peak_RED s' = SPO2.peak2peak_RED s
  /\ SPO2.peak2peak_IR s' = SPO2.peak2peak_IR s
  /\ SPO2.value_R s' = SPO2.value_R s
  /\ SPO2.arr_SPO2_Wave_Rate s' = SPO2.arr_SPO2_Wave_Rate s
  /\ SPO2.arr_SPO2_Wave_RED s' = SPO2.arr_SPO2_Wave_RED s
  /\ SPO2.arr_SPO2_Wave_IR s' = SPO2.arr_SPO2_Wave_IR s.
Proof.
  unfold SPO2.detect. intros H. destruct (SPO2.peak_detected s).
  - destruct (int_sub _ _) as [pp |]; cbn [bind] in H; [| discriminate].
    destruct (SPO2.calRate _) as [cur_hr |]; cbn [bind] in H; [| discriminate].
    destruct (SPO2.average _ _ _ _) as [[[hr buf] cnt] |]; cbn [bind] in H;
      [| discriminate].
    apply Some_inj in H. subst s'. repeat split; reflexivity.
  - apply Some_inj in H. subst s'. repeat split; reflexivity.
Qed.

(** At index 0 the detection does nothing. *)
Lemma SPO2_detect_at_0 (now : Z) (s : SPO2.state) :
  SPO2.SPO2_Wave_index s = 0 -> SPO2.detect now s = Some s.
Proof.
  intros H. unfold SPO2.detect, SPO2.peak_detected. rewrite H. reflexivity.
Qed.

Lemma SPO2_analyse_index (s s' : SPO2.state) (ev : list event) :
  SPO2.analyse_wrap s = Some (s', ev) -> SPO2.SPO2_Wave_index s' = 0.
Proof.
  unfold SPO2.analyse_wrap. intros H.
  destruct (SPO2.Analyze_SPO2Wave _ _ _ _) as [[ppR ppI] thr].
  destruct (SPO2.calSpO2 _ _ _ _) as [[[rv rbuf] spo2] |]; cbn [bind] in H;
    [| discriminate].
  destruct (SPO2.auto_gain _ _ _) as [[dac wait] e].
  apply Some_inj in H. inversion H. reflexivity.
Qed.

Lemma SPO2Task_path (now : Z) (s s' : SPO2.state) (ev : list event) :
  SPO2.SPO2Task now s = Some (s', ev) -> SPO2_path now s s' ev.
Proof.
  unfold SPO2.SPO2Task. intros H.
  destruct (SPO2.front s) as [s1 |] eqn:F; cbn [bind] in H; [| discriminate].
  destruct (SPO2_front_keeps _ _ F) as [I [W _]].
  rewrite I, W in H.
  destruct (Z.geb_spec (SPO2.SPO2_Wave_index s + 1) SPO2.SP_WAVE_LEN) as [G | G].
  - destruct (Z.gtb_spec (SPO2.adjust_wait_cnt s) 0) as [A | A].
    + apply Some_inj in H. inversion H.
      apply (path_skip now s _ _ s1); auto; lia.
    + destruct (SPO2.analyse_wrap s1) as [[s2 ev2] |] eqn:An;
        cbn [bind] in H; [| discriminate].
      rewrite (SPO2_detect_at_0 now s2 (SPO2_analyse_index _ _ _ An)) in H.
      cbn [bind] in H. apply Some_inj in H. inversion H. subst.
      apply (path_analyse now s _ _ s1); auto; lia.
  - destruct (SPO2.detect now s1) as [s3 |] eqn:D; cbn [bind] in H;
      [| discriminate].
    apply Some_inj in H. inversion H. subst.
    apply (path_plain now s _ _ s1); auto.
Qed.

Lemma SPO2_analyse_spec (s s' : SPO2.state) (ev : list event) :
  SPO2.analyse_wrap s = Some (s', ev) ->
  exists ppR ppI thr rv rbuf spo2 dac wait gev,
    SPO2.Analyze_SPO2Wave (SPO2.arr_SPO2_Wave_RED s) (SPO2.arr_SPO2_Wave_IR s)
                          (SPO2.arr_SPO2_Wave_Rate s) SPO2.SP_WAVE_LEN
    = (ppR, ppI, thr)
    /\ SPO2.calSpO2 ppR ppI (SPO2.rValue_buf s) (SPO2.value_SPO2 s)
       = Some (rv, rbuf, spo2)
    /\ SPO2.auto_gain ppR (SPO2.s_DACdata s) (SPO2.adjust_wait_cnt s)
       = (dac, wait, gev)
    /\ s' = SPO2.set_wrap 0 thr ppR ppI rv spo2 rbuf dac wait s
    /\ ev = Analyze_SPO2Wave_call :: calSpO2_call :: gev.
Proof.
  unfold SPO2.analyse_wrap. intros H.
  destruct (SPO2.Analyze_SPO2Wave _ _ _ _) as [[ppR ppI] thr].
  destruct (SPO2.calSpO2 _ _ _ _) as [[[rv rbuf] spo2] |] eqn:C;
    cbn [bind] in H; [| discriminate].
  destruct (SPO2.auto_gain _ _ _) as [[dac wait] gev] eqn:G.
  apply Some_inj in H. inversion H.
  exists ppR, ppI, thr, rv, rbuf, spo2, dac, wait, gev. auto.
Qed.

Lemma Analyze_threshold (w1 w2 w3 : list double) (ppR ppI thr : double) :
  SPO2.Analyze_SPO2Wave w1 w2 w3 SPO2.SP_WAVE_LEN = (ppR, ppI, thr) ->
  exists M m,
    seeded_max 0%Q w3 0 SPO2.SP_WAVE_LEN M
    /\ seeded_min 4095%Q w3 0 SPO2.SP_WAVE_LEN m
    /\ thr = (M - (M - m) / 3%Q)%D.
Proof.
  unfold SPO2.Analyze_SPO2Wave. intros HA.
  destruct (SPO2.scan w1 _) as [M1 m1].
  destruct (SPO2.scan w2 _) as [M2 m2].
  destruct (SPO2.scan w3 _) as [M3 m3] eqn:Sc.
  apply SPO2_scan_spec in Sc; [| unfold SPO2.SP_WAVE_LEN; lia].
  exists M3, m3. destruct Sc as [S1 S2].
  split; [exact S1 | split; [exact S2 |]]. congruence.
Qed.

Lemma Update_Threshold_spec (w : list double) (L : Z) :
  1 <= L ->
  exists M m,
    seeded_max 0%Q w 1 L M /\ seeded_min 4095%Q w 1 L m
    /\ ECG.Update_Threshold w L = (M - (M - m) / 4%Q)%D
    /\ snd (RESP.Update_Threshold w L) = (M - (M - m) / 4%Q)%D.
Proof.
  intros HL. unfold ECG.Update_Threshold, RESP.Update_Threshold, RESP.scan.
  destruct (ECG.scan w L) as [M m] eqn:Sc.
  apply ECG_scan_spec in Sc; [| exact HL].
  exists M, m. destruct Sc as [S1 S2].
  split; [exact S1 | split; [exact S2 | split; reflexivity]].
Qed.

(** C7, as the code has it.  When the window index of ECG or of RESP
    wraps, the threshold becomes [max - (max - min)/4], [max] being the
    largest of 0 and the samples at the indices 1 to L-1 and [min] the
    smallest of 4095 and these samples.  When the SpO2 index wraps and no
    wait is pending, the threshold becomes [max - (max - min)/3] with [max]
    and [min] taken in the same way over the whole rate window, index 0
    included; when a wait is pending the wrap leaves the threshold as it
    is.  A call that does not wrap never changes the threshold. *)
Theorem C7_threshold_refresh :
  forall (inp now : Z) (e e' : ECG.state) (r r' : RESP.state)
         (s s' : SPO2.state) (ev : list event),
    ECG.ECGTask inp now e = Some e' ->
    RESP.RESPTask inp now r = Some r' ->
    SPO2.SPO2Task now s = Some (s', ev) ->
    (ECG.ECG_Wave_index e + 1 >= ECG.HR_WAVE_LEN ->
       exists M m,
         seeded_max 0%Q (ECG.arr_ECG_Wave e') 1 ECG.HR_WAVE_LEN M
         /\ seeded_min 4095%Q (ECG.arr_ECG_Wave e') 1 ECG.HR_WAVE_LEN m
         /\ ECG.peakThreshold e' = (M - (M - m) / 4%Q)%D)
    /\ (ECG.ECG_Wave_index e + 1 < ECG.HR_WAVE_LEN ->
          ECG.peakThreshold e' = ECG.peakThreshold e)
    /\ (RESP.BR_Wave_index r + 1 >= RESP.BR_WAVE_LEN ->
          exists M m,
            seeded_max 0%Q (RESP.arr_BR_Wave r') 1 RESP.BR_WAVE_LEN M
            /\ seeded_min 4095%Q (RESP.arr_BR_Wave r') 1 RESP.BR_WAVE_LEN m
            /\ RESP.peakThreshold r' = (M - (M - m) / 4%Q)%D)
    /\ (RESP.BR_Wave_index r + 1 < RESP.BR_WAVE_LEN ->
          RESP.peakThreshold r' = RESP.peakThreshold r)
    /\ (SPO2.SPO2_Wave_index s + 1 >= SPO2.SP_WAVE_LEN ->
        SPO2.adjust_wait_cnt s <= 0 ->
          exists M m,
            seeded_max 0%Q (SPO2.arr_SPO2_Wave_Rate s') 0 SPO2.SP_WAVE_LEN M
            /\ seeded_min 4095%Q (SPO2.arr_SPO2_Wave_Rate s') 0 SPO2.SP_WAVE_LEN m
            /\ SPO2.peakThreshold s' = (M - (M - m) / 3%Q)%D)
    /\ (SPO2.SPO2_Wave_index s + 1 >= SPO2.SP_WAVE_LEN ->
        SPO2.adjust_wait_cnt s > 0 ->
          SPO2.peakThreshold s' = SPO2.peakThreshold s)
    /\ (SPO2.SPO2_Wave_index s + 1 < SPO2.SP_WAVE_LEN ->
          SPO2.peakThreshold s' = SPO2.peakThreshold s).
Proof.
  intros inp now e e' r r' s s' ev He Hr Hs.
  unfold ECG.ECGTask in He.
  destruct (ECG.front inp e) as [e1 |] eqn:Fe; cbn [bind] in He; [| discriminate].
  destruct (ECG_front_threshold _ _ _ Fe) as [Ew En].
  destruct (ECG_detect_keeps _ _ _ He) as [Et [Ea _]].
  unfold RESP.RESPTask in Hr.
  destruct (RESP.front inp r) as [r1 |] eqn:Fr; cbn [bind] in Hr; [| discriminate].
  destruct (RESP_front_threshold _ _ _ Fr) as [Rw Rn].
  destruct (RESP_detect_keeps _ _ _ Hr) as [Rt [Ra _]].
  assert (L3 : 1 <= ECG.HR_WAVE_LEN) by (unfold ECG.HR_WAVE_LEN; lia).
  assert (L1 : 1 <= RESP.BR_WAVE_LEN) by (unfold RESP.BR_WAVE_LEN; lia).
  repeat split.
  - intros W. destruct (Ew W) as [T _]. rewrite Et, Ea, T.
    destruct (Update_Threshold_spec (ECG.arr_ECG_Wave e1) _ L3)
      as (M & m & S1 & S2 & U & _).
    exists M, m. split; [exact S1 | split; [exact S2 | exact U]].
  - intros W. destruct (En W) as [T _]. rewrite Et. exact T.
  - intros W. destruct (Rw W) as [T _]. rewrite Rt, Ra, T.
    destruct (Update_Threshold_spec (RESP.arr_BR_Wave r1) _ L1)
      as (M & m & S1 & S2 & _ & U).
    exists M, m. split; [exact S1 | split; [exact S2 | exact U]].
  - intros W. destruct (Rn W) as [T _]. rewrite Rt. exact T.
  - intros W A.
    destruct (SPO2Task_path _ _ _ _ Hs)
      as [s1 F I D E | s1 F I A' E1 E2 | s1 F I A' An]; [lia | lia |].
    destruct (SPO2_analyse_spec _ _ _ An)
      as (ppR & ppI & thr & rv & rbuf & spo2 & dac & wait & gev
          & HA & _ & _ & -> & _).
    exact (Analyze_threshold _ _ _ _ _ _ HA).
  - intros W A.
    destruct (SPO2Task_path _ _ _ _ Hs)
      as [s1 F I D E | s1 F I A' E1 E2 | s1 F I A' An]; [lia | | lia].
    subst s'.
    destruct (SPO2_front_keeps _ _ F) as (_ & _ & _ & T & _). exact T.
  - intros W.
    destruct (SPO2Task_path _ _ _ _ Hs)
      as [s1 F I D E | s1 F I A' E1 E2 | s1 F I A' An]; [| lia | lia].
    destruct (SPO2_front_keeps _ _ F) as (_ & _ & _ & T & _).
    destruct (SPO2_detect_keeps _ _ _ D) as (_ & _ & _ & T' & _).
    rewrite T'. exact T.
Qed.

Lemma C7_threshold_refresh_witness :
  (exists M m,
      seeded_max 0%Q (ECG.arr_ECG_Wave C7_ecg') 1 ECG.HR_WAVE_LEN M
      /\ seeded_min 4095%Q (ECG.arr_ECG_Wave C7_ecg') 1 ECG.HR_WAVE_LEN m
      /\ ECG.peakThreshold C7_ecg' = (M - (M - m) / 4%Q)%D)
  /\ (exists M m,
         seeded_max 0%Q (RESP.arr_BR_Wave C7_resp') 1 RESP.BR_WAVE_LEN M
         /\ seeded_min 4095%Q (RESP.arr_BR_Wave C7_resp') 1 RESP.BR_WAVE_LEN m
         /\ RESP.peakThreshold C7_resp' = (M - (M - m) / 4%Q)%D)
  /\ (exists M m,
         seeded_max 0%Q (SPO2.arr_SPO2_Wave_Rate C7_spo2') 0 SPO2.SP_WAVE_LEN M
         /\ seeded_min 4095%Q (SPO2.arr_SPO2_Wave_Rate C7_spo2') 0 SPO2.SP_WAVE_LEN m
         /\ SPO2.peakThreshold C7_spo2' = (M - (M - m) / 3%Q)%D).
Proof.
  assert (He : ECG.ECGTask 0 0 C7_ecg = Some C7_ecg')
    by (vm_compute; reflexivity).
  assert (Hr : RESP.RESPTask 0 0 C7_resp = Some C7_resp')
    by (vm_compute; reflexivity).
  assert (Hs : SPO2.SPO2Task 0 C7_spo2
               = Some (C7_spo2', [Analyze_SPO2Wave_call; calSpO2_call]))
    by (vm_compute; reflexivity).
  destruct (C7_threshold_refresh 0 0 _ _ _ _ _ _ _ He Hr Hs)
    as (A & _ & B & _ & C & _).
  split; [| split].
  - apply A. vm_compute. discriminate.
  - apply B. vm_compute. discriminate.
  - apply C; vm_compute; discriminate.
Defined.

(** C7 as the specification words it fails on three wraps.  On the SpO2
    wrap [C7_spo2] the new threshold is 20, where the window without its
    index 0 gives 0.  On the waiting wrap [C7_spo2_wait] the threshold stays
    at 5.  On the ECG wrap [C7_ecg], whose samples are all negative, the
    new threshold is -2, where the maximum and minimum of the samples give
    -5. *)
Lemma C7_counterexample :
  (exists s' ev,
      SPO2.SPO2Task 0 C7_spo2 = Some (s', ev)
      /\ SPO2.SPO2_Wave_index s' = 0
      /\ SPO2.peakThreshold s' = 20%Q
      /\ spec_threshold 3%Q (SPO2.arr_SPO2_Wave_Rate s') = 0%Q)
  /\ (exists s' ev,
         SPO2.SPO2Task 0 C7_spo2_wait = Some (s', ev)
         /\ SPO2.SPO2_Wave_index s' = 0
         /\ SPO2.peakThreshold s' = 5%Q
         /\ spec_threshold 3%Q (SPO2.arr_SPO2_Wave_Rate s') = 0%Q)
  /\ (exists e',
         ECG.ECGTask 0 0 C7_ecg = Some e'
         /\ ECG.ECG_Wave_index e' = 0
         /\ ECG.peakThreshold e' = (-2)%Q
         /\ spec_threshold 4%Q (ECG.arr_ECG_Wave e') = (-5)%Q).
Proof.
  split; [| split].
  - eexists. eexists. split; [vm_compute; reflexivity |].
    repeat split; vm_compute; reflexivity.
  - eexists. eexists. split; [vm_compute; reflexivity |].
    repeat split; vm_compute; reflexivity.
  - eexists. split; [vm_compute; reflexivity |].
    repeat split; vm_compute; reflexivity.
Qed.

(** ** Initialisation (C3) *)

(** C3 as stated fails on a monitor that has been running: after
    [InitECG] and [InitRESP] the statics of the smoothers are as before,
    and after [InitSPO2] so are the batch of rates and the waiting
    counter. *)
Lemma C3_counterexample :
  ~ ECG_zeroed (Monitor.ecg (Monitor.InitECG C3_monitor))
  /\ ~ RESP_zeroed (Monitor.resp (Monitor.InitRESP C3_monitor))
  /\ ~ SPO2_zeroed (Monitor.spo2 (Monitor.InitSPO2 C3_monitor)).
Proof.
  split; [| split].
  - intros H. apply (f_equal (fun e => Smoother.i (ECG.smooth e))) in H.
    vm_compute in H. discriminate H.
  - intros H. apply (f_equal (fun r => Smoother.i (RESP.smooth r))) in H.
    vm_compute in H. discriminate H.
  - intros H. unfold SPO2_zeroed in H.
    destruct H as (_ & _ & _ & _ & _ & _ & _ & _ & _ & _ & _ & _ & _ & _ & _ & _ & _ & H).
    vm_compute in H. discriminate H.
Qed.

(** C3, as the code has it.  [InitECG] and [InitRESP] put every variable
    of their module at zero, the function statics of the smoother
    excepted, which they leave as they are; [InitSPO2] clears the two
    low-pass delay lines and sets the LED drive to 240.  None of the three
    touches the state of another channel. *)
Theorem C3_init_resets_channel :
  forall m : Monitor.state,
    Monitor.ecg (Monitor.InitECG m)
    = ECG.mk [0; 0; 0]%Q [0; 0; 0]%Q [0; 0; 0]%Q (ECG.smooth (Monitor.ecg m))
             (repeat 0%Q 300) 0 0%Q 0 0 0
    /\ Monitor.resp (Monitor.InitECG m) = Monitor.resp m
    /\ Monitor.spo2 (Monitor.InitECG m) = Monitor.spo2 m
    /\ Monitor.resp (Monitor.InitRESP m)
       = RESP.mk [0; 0; 0]%Q [0; 0; 0]%Q (RESP.smooth (Monitor.resp m))
                 (repeat 0%Q 1000) 0 0%Q 0%Q 0%Q 0 0%Q
    /\ Monitor.ecg (Monitor.InitRESP m) = Monitor.ecg m
    /\ Monitor.spo2 (Monitor.InitRESP m) = Monitor.spo2 m
    /\ SPO2.IIRLowpass_win_RED (Monitor.spo2 (Monitor.InitSPO2 m)) = [0; 0; 0]%Q
    /\ SPO2.IIRLowpass_win_IR (Monitor.spo2 (Monitor.InitSPO2 m)) = [0; 0; 0]%Q
    /\ SPO2.s_DACdata (Monitor.spo2 (Monitor.InitSPO2 m)) = 240
    /\ Monitor.ecg (Monitor.InitSPO2 m) = Monitor.ecg m
    /\ Monitor.resp (Monitor.InitSPO2 m) = Monitor.resp m.
Proof.
  intros m. repeat split.
Qed.

(** ** The batch average of the pulse rate (C5) *)

Lemma in_int_small (z : Z) : -1000000 <= z <= 1000000 -> in_int z = true.
Proof. intros H. apply in_int_true. unfold INT_MIN, INT_MAX. lia. Qed.

(** Six rates in a row, starting on an empty batch: the first five fill
    the buffer and leave [heartRate] alone, the sixth publishes the mean
    of the five and is itself stored nowhere. *)
Lemma average_six (hr0 r1 r2 r3 r4 r5 r6 : Z) (b0 b1 b2 b3 b4 : Z) :
  -100000 <= r1 <= 100000 -> -100000 <= r2 <= 100000 ->
  -100000 <= r3 <= 100000 -> -100000 <= r4 <= 100000 ->
  -100000 <= r5 <= 100000 ->
  ('(h, b, c) <- SPO2.average r1 hr0 [b0; b1; b2; b3; b4] 0 ;;
   '(h, b, c) <- SPO2.average r2 h b c ;;
   '(h, b, c) <- SPO2.average r3 h b c ;;
   '(h, b, c) <- SPO2.average r4 h b c ;;
   SPO2.average r5 h b c) = Some (hr0, [r1; r2; r3; r4; r5], 5)
  /\ SPO2.average r6 hr0 [r1; r2; r3; r4; r5] 5
     = Some (Z.quot (r1 + r2 + r3 + r4 + r5) 5, [r1; r2; r3; r4; r5], 0).
Proof.
  intros H1 H2 H3 H4 H5. split.
  - reflexivity.
  - assert (E : forall a b, -1000000 <= a + b <= 1000000 ->
                          int_add a b = Some (a + b)).
    { intros a b H. unfold int_add. rewrite in_int_small by exact H.
      reflexivity. }
    change (SPO2.average r6 hr0 [r1; r2; r3; r4; r5] 5)
      with (hr_sum <- (s1 <- int_add 0 r1 ;;
                       s2 <- int_add s1 r2 ;;
                       s3 <- int_add s2 r3 ;;
                       s4 <- int_add s3 r4 ;;
                       s5 <- int_add s4 r5 ;;
                       Some s5) ;;
            Some (Z.quot hr_sum 5, [r1; r2; r3; r4; r5], 0)).
    rewrite E by lia. cbn [bind].
    rewrite E by lia. cbn [bind].
    rewrite E by lia. cbn [bind].
    rewrite E by lia. cbn [bind].
    rewrite E by lia. cbn [bind].
    reflexivity.
Qed.

(** C5, the code at the failing input.  After the calls [C5_calls] five
    peaks have been detected (rates 30, 60, 75, 100 and 120): the buffer is
    full and [heartRate] is still 0.  The call that detects the sixth peak
    (rate 150) sets [heartRate] to 77, the mean of the first five, and
    stores the rate 150 nowhere: the displayed rate moves once in six peaks
    and one rate in six is lost. *)
Theorem C5_sixth_rate_dropped :
  (exists ev, SPO2.run C5_calls SPO2.boot = Some (C5_after_five, ev))
  /\ SPO2.heartRate C5_after_five = 0
  /\ SPO2.hr_buf C5_after_five = [30; 60; 75; 100; 120]
  /\ SPO2.hr_cnt C5_after_five = 5
  /\ SPO2.lastPeak_index C5_after_five = 4900
  /\ (exists s6 ev,
         SPO2.SPO2Task 5300 C5_after_five = Some (s6, ev)
         /\ SPO2.lastPeak_index s6 = 5300
         /\ SPO2.heartRate s6 = 77
         /\ SPO2.hr_buf s6 = [30; 60; 75; 100; 120]
         /\ SPO2.hr_cnt s6 = 0)
  /\ SPO2.average 150 0 [30; 60; 75; 100; 120] 5
     = Some (77, [30; 60; 75; 100; 120], 0).
Proof.
  split; [eexists; vm_compute; reflexivity |].
  repeat split; try (vm_compute; reflexivity).
  eexists. eexists. split; [vm_compute; reflexivity |].
  repeat split; vm_compute; reflexivity.
Qed.

(** ** The calibration table (C4) *)

(** The table of the code is the table of the specification: every
    comparison of the one is a comparison of the other. *)
Lemma table_spec (r : Z) (prev : double) :
  SPO2.table r prev
  = match spec_saturation r with Some v => inject_Z v | None => prev end.
Proof.
  unfold SPO2.table, spec_saturation, table_rows. cbn [find].
  rewrite !Z.geb_leb.
  repeat match goal with
         | |- context [if ?c then _ else _] => destruct c; [reflexivity |]
         end.
  reflexivity.
Qed.

(** A property of all integers of a range, checked on each of them. *)
Lemma forall_range (P : Z -> bool) (lo : Z) (n : nat) :
  forallb P (map (fun k => lo + Z.of_nat k) (seq 0 n)) = true ->
  forall r, lo <= r < lo + Z.of_nat n -> P r = true.
Proof.
  intros H r Hr. rewrite forallb_forall in H. apply H.
  apply in_map_iff. exists (Z.to_nat (r - lo)). split; [lia |].
  apply in_seq. lia.
Qed.

Lemma spec_low (r : Z) : r <= 450 -> spec_saturation r = Some 99.
Proof.
  intros H. unfold spec_saturation.
  rewrite (proj2 (Z.leb_le r 450) H). reflexivity.
Qed.

Lemma rows_bounds (lo hi v : Z) :
  In (lo, hi, v) table_rows -> 451 <= lo /\ lo <= hi /\ hi <= 1200.
Proof.
  intros HIn.
  assert (A : forallb rows_ok table_rows = true) by reflexivity.
  rewrite forallb_forall in A. specialize (A _ HIn). unfold rows_ok in A.
  rewrite !andb_true_iff, !Z.leb_le in A. tauto.
Qed.

Lemma spec_high (r : Z) : r > 1200 -> spec_saturation r = None.
Proof.
  intros H. unfold spec_saturation.
  rewrite (proj2 (Z.leb_gt r 450)) by lia.
  destruct (find _ table_rows) as [[[lo hi] v] |] eqn:F; [| reflexivity].
  apply find_some in F. destruct F as [HIn C].
  apply rows_bounds in HIn.
  rewrite andb_true_iff, !Z.leb_le in C. lia.
Qed.

Lemma spec_row (r lo hi v : Z) :
  In (lo, hi, v) table_rows -> lo <= r <= hi -> spec_saturation r = Some v.
Proof.
  intros HIn Hr. pose proof (rows_bounds _ _ _ HIn) as B.
  assert (A : forallb (fun r => forallb (row_ok r) table_rows)
                      (map (fun k => 451 + Z.of_nat k) (seq 0 750)) = true)
    by (vm_compute; reflexivity).
  pose proof (forall_range _ _ _ A r) as C. cbv beta in C.
  rewrite forallb_forall in C. specialize (C ltac:(lia) _ HIn).
  unfold row_ok in C.
  rewrite (proj2 (Z.leb_le lo r)) in C by lia.
  rewrite (proj2 (Z.leb_le r hi)) in C by lia.
  cbn [andb implb] in C.
  destruct (spec_saturation r) as [w |]; [| discriminate C].
  apply Z.eqb_eq in C. congruence.
Qed.

Lemma spec_in_table (r : Z) :
  r <= 1200 -> exists v, spec_saturation r = Some v /\ 79 <= v <= 99.
Proof.
  intros H. destruct (Z_le_gt_dec r 450) as [L | G].
  - exists 99. split; [apply spec_low; exact L | lia].
  - assert (A : forallb in_table_ok
                        (map (fun k => 451 + Z.of_nat k) (seq 0 750)) = true)
      by (vm_compute; reflexivity).
    pose proof (forall_range _ _ _ A r ltac:(lia)) as C.
    unfold in_table_ok in C.
    destruct (spec_saturation r) as [v |]; [| discriminate C].
    exists v. rewrite andb_true_iff, !Z.leb_le in C. split; [reflexivity | lia].
Qed.

Lemma spec_step (r : Z) :
  r < 1200 ->
  exists v w, spec_saturation r = Some v /\ spec_saturation (r + 1) = Some w
              /\ w <= v.
Proof.
  intros H. destruct (Z_lt_ge_dec r 450) as [L | G].
  - exists 99, 99. rewrite !spec_low by lia. split; [| split]; auto; lia.
  - assert (A : forallb step_ok
                        (map (fun k => 450 + Z.of_nat k) (seq 0 750)) = true)
      by (vm_compute; reflexivity).
    pose proof (forall_range _ _ _ A r ltac:(lia)) as C.
    unfold step_ok in C.
    destruct (spec_saturation r) as [v |]; [| discriminate C].
    destruct (spec_saturation (r + 1)) as [w |]; [| discriminate C].
    exists v, w. apply Z.leb_le in C. auto.
Qed.

Lemma spec_monotone (n : nat) :
  forall r1 r2, r2 = r1 + Z.of_nat n -> r2 <= 1200 ->
  exists v1 v2, spec_saturation r1 = Some v1 /\ spec_saturation r2 = Some v2
                /\ v2 <= v1.
Proof.
  induction n as [| n IH]; intros r1 r2 E H.
  - replace r2 with r1 by lia.
    destruct (spec_in_table r1 ltac:(lia)) as [v [Ev _]].
    exists v, v. split; [| split]; auto; lia.
  - destruct (IH r1 (r2 - 1) ltac:(lia) ltac:(lia)) as (v1 & v2 & E1 & E2 & L).
    destruct (spec_step (r2 - 1) ltac:(lia)) as (v & w & Ev & Ew & Lw).
    replace (r2 - 1 + 1) with r2 in Ew by lia.
    exists v1, w. split; [exact E1 | split; [exact Ew |]].
    rewrite E2 in Ev. inversion Ev. lia.
Qed.

Lemma table_low (r : Z) (prev : double) :
  r <= 450 -> SPO2.table r prev = 99%Q.
Proof. intros H. rewrite table_spec, spec_low by exact H. reflexivity. Qed.

Lemma table_high (r : Z) (prev : double) :
  r > 1200 -> SPO2.table r prev = prev.
Proof. intros H. rewrite table_spec, spec_high by exact H. reflexivity. Qed.

Lemma table_row (r lo hi v : Z) (prev : double) :
  In (lo, hi, v) table_rows -> lo <= r <= hi ->
  SPO2.table r prev = inject_Z v.
Proof.
  intros HIn Hr. rewrite table_spec, (spec_row r lo hi v HIn Hr). reflexivity.
Qed.

Lemma table_in_range (r : Z) (prev : double) :
  r <= 1200 -> table_value (SPO2.table r prev).
Proof.
  intros H. destruct (spec_in_table r H) as [v [E B]].
  rewrite table_spec, E. exists v. split; [exact B | reflexivity].
Qed.

Lemma table_monotone (r1 r2 : Z) (prev : double) :
  r1 <= r2 -> r2 <= 1200 ->
  (SPO2.table r2 prev <= SPO2.table r1 prev)%Q.
Proof.
  intros H12 H2.
  destruct (spec_monotone (Z.to_nat (r2 - r1)) r1 r2 ltac:(lia) H2)
    as (v1 & v2 & E1 & E2 & L).
  rewrite !table_spec, E1, E2. rewrite <- Zle_Qle. exact L.
Qed.

Lemma clamp_table_value (q : double) : table_value q -> SPO2.clamp q = q.
Proof.
  intros [z [Hz ->]]. unfold SPO2.clamp, dgt.
  assert (A : dlt 100%Q (inject_Z z) = false).
  { apply dlt_false. change 100%Q with (inject_Z 100).
    rewrite <- Zle_Qle. lia. }
  assert (B : dlt (inject_Z z) 70%Q = false).
  { apply dlt_false. change 70%Q with (inject_Z 70).
    rewrite <- Zle_Qle. lia. }
  rewrite A, B. reflexivity.
Qed.

Lemma table_value_bounds (q : double) :
  table_value q -> (70 <= q)%Q /\ (q <= 100)%Q.
Proof.
  intros [z [Hz ->]]. split.
  - change 70%Q with (inject_Z 70). rewrite <- Zle_Qle. lia.
  - change 100%Q with (inject_Z 100). rewrite <- Zle_Qle. lia.
Qed.

(** *** The median of the history *)

(** One pass of the inner loop of [bubbleSort] on two neighbours of the
    [uint16_t] range: they end up in order. *)
Lemma swap_at (pre post : list Z) (x y : Z) :
  u16 x -> u16 y ->
  exists x' y',
    SPO2.bubble_swap (Z.of_nat (length pre)) (pre ++ x :: y :: post)
    = pre ++ x' :: y' :: post
    /\ u16 x' /\ u16 y'
    /\ (x' <= y' /\ x' <= x /\ x' <= y /\ x <= y' /\ y <= y')
    /\ (y' = x \/ y' = y)
    /\ Permutation (pre ++ x :: y :: post) (pre ++ x' :: y' :: post).
Proof.
  intros Hx Hy. unfold SPO2.bubble_swap. rewrite rd_app_here.
  assert (R1 : rd 0 (pre ++ x :: y :: post) (Z.of_nat (length pre) + 1) = y).
  { replace (pre ++ x :: y :: post) with ((pre ++ [x]) ++ y :: post)
      by (rewrite <- app_assoc; reflexivity).
    replace (Z.of_nat (length pre) + 1) with (Z.of_nat (length (pre ++ [x])))
      by (rewrite length_app; cbn [length]; lia).
    apply rd_app_here. }
  rewrite R1. destruct (Z.gtb_spec x y) as [G | G].
  - exists y, x. rewrite (to_u16_small x Hx). rewrite wr_app.
    replace (pre ++ y :: y :: post) with ((pre ++ [y]) ++ y :: post)
      by (rewrite <- app_assoc; reflexivity).
    replace (Z.of_nat (length pre) + 1) with (Z.of_nat (length (pre ++ [y])))
      by (rewrite length_app; cbn [length]; lia).
    rewrite wr_app. rewrite <- !app_assoc. cbn [app].
    split; [reflexivity |]. split; [exact Hy |]. split; [exact Hx |].
    split; [lia |]. split; [left; reflexivity |].
    apply Permutation_app_head. apply perm_swap.
  - exists x, y. split; [reflexivity |]. split; [exact Hx |].
    split; [exact Hy |]. split; [lia |]. split; [right; reflexivity |].
    apply Permutation_refl.
Qed.

(** [bubbleSort] on five values of the [uint16_t] range: the ten passes of
    its inner loop, one after the other. *)
Lemma bubbleSort_five (a b c d e : Z) :
  u16 a -> u16 b -> u16 c -> u16 d -> u16 e ->
  exists s1 s2 s3 s4 s5,
    SPO2.bubbleSort [a; b; c; d; e] 5 = [s1; s2; s3; s4; s5]
    /\ s1 <= s2 /\ s2 <= s3 /\ s3 <= s4 /\ s4 <= s5
    /\ Permutation [a; b; c; d; e] [s1; s2; s3; s4; s5].
Proof.
  intros Ha Hb Hc Hd He.
  change (SPO2.bubbleSort [a; b; c; d; e] 5)
    with (SPO2.bubble_swap 0
           (SPO2.bubble_swap 1 (SPO2.bubble_swap 0
             (SPO2.bubble_swap 2 (SPO2.bubble_swap 1 (SPO2.bubble_swap 0
               (SPO2.bubble_swap 3 (SPO2.bubble_swap 2 (SPO2.bubble_swap 1
                 (SPO2.bubble_swap 0 [a; b; c; d; e])))))))))).
  destruct (swap_at [] [c; d; e] a b Ha Hb)
    as (a1 & b1 & E1 & Ua1 & Ub1 & L1 & D1 & P1).
  change (SPO2.bubble_swap 0 [a; b; c; d; e] = [a1; b1; c; d; e]) in E1.
  rewrite E1.
  destruct (swap_at [a1] [d; e] b1 c Ub1 Hc)
    as (b2 & c2 & E2 & Ub2 & Uc2 & L2 & D2 & P2).
  change (SPO2.bubble_swap 1 [a1; b1; c; d; e] = [a1; b2; c2; d; e]) in E2.
  rewrite E2.
  destruct (swap_at [a1; b2] [e] c2 d Uc2 Hd)
    as (c3 & d3 & E3 & Uc3 & Ud3 & L3 & D3 & P3).
  change (SPO2.bubble_swap 2 [a1; b2; c2; d; e] = [a1; b2; c3; d3; e]) in E3.
  rewrite E3.
  destruct (swap_at [a1; b2; c3] [] d3 e Ud3 He)
    as (d4 & e4 & E4 & Ud4 & Ue4 & L4 & D4 & P4).
  change (SPO2.bubble_swap 3 [a1; b2; c3; d3; e] = [a1; b2; c3; d4; e4]) in E4.
  rewrite E4.
  destruct (swap_at [] [c3; d4; e4] a1 b2 Ua1 Ub2)
    as (a5 & b5 & E5 & Ua5 & Ub5 & L5 & D5 & P5).
  change (SPO2.bubble_swap 0 [a1; b2; c3; d4; e4] = [a5; b5; c3; d4; e4]) in E5.
  rewrite E5.
  destruct (swap_at [a5] [d4; e4] b5 c3 Ub5 Uc3)
    as (b6 & c6 & E6 & Ub6 & Uc6 & L6 & D6 & P6).
  change (SPO2.bubble_swap 1 [a5; b5; c3; d4; e4] = [a5; b6; c6; d4; e4]) in E6.
  rewrite E6.
  destruct (swap_at [a5; b6] [e4] c6 d4 Uc6 Ud4)
    as (c7 & d7 & E7 & Uc7 & Ud7 & L7 & D7 & P7).
  change (SPO2.bubble_swap 2 [a5; b6; c6; d4; e4] = [a5; b6; c7; d7; e4]) in E7.
  rewrite E7.
  destruct (swap_at [] [c7; d7; e4] a5 b6 Ua5 Ub6)
    as (a8 & b8 & E8 & Ua8 & Ub8 & L8 & D8 & P8).
  change (SPO2.bubble_swap 0 [a5; b6; c7; d7; e4] = [a8; b8; c7; d7; e4]) in E8.
  rewrite E8.
  destruct (swap_at [a8] [d7; e4] b8 c7 Ub8 Uc7)
    as (b9 & c9 & E9 & Ub9 & Uc9 & L9 & D9 & P9).
  change (SPO2.bubble_swap 1 [a8; b8; c7; d7; e4] = [a8; b9; c9; d7; e4]) in E9.
  rewrite E9.
  destruct (swap_at [] [c9; d7; e4] a8 b9 Ua8 Ub9)
    as (a10 & b10 & E10 & Ua10 & Ub10 & L10 & D10 & P10).
  change (SPO2.bubble_swap 0 [a8; b9; c9; d7; e4] = [a10; b10; c9; d7; e4])
    in E10.
  rewrite E10.
  exists a10, b10, c9, d7, e4. split; [reflexivity |].
  assert (S1 : a10 <= b10) by lia.
  assert (S2 : b10 <= c9) by (clear - L8 L9 L10 D10; lia).
  assert (S3 : c9 <= d7) by (clear - L5 L6 L7 L8 L9 D8 D9; lia).
  assert (S4 : d7 <= e4) by (clear - L1 L2 L3 L4 L5 L6 L7 D5 D6 D7; lia).
  split; [exact S1 |]. split; [exact S2 |]. split; [exact S3 |].
  split; [exact S4 |].
  cbn [app] in *.
  eapply Permutation_trans; [exact P1 |].
  eapply Permutation_trans; [exact P2 |].
  eapply Permutation_trans; [exact P3 |].
  eapply Permutation_trans; [exact P4 |].
  eapply Permutation_trans; [exact P5 |].
  eapply Permutation_trans; [exact P6 |].
  eapply Permutation_trans; [exact P7 |].
  eapply Permutation_trans; [exact P8 |].
  eapply Permutation_trans; [exact P9 |].
  exact P10.
Qed.

(** For a history inside the [uint16_t] range, what [calSpO2] takes as the
    median is the median. *)
Lemma median_within_u16 (a b c d e : Z) :
  u16 a -> u16 b -> u16 c -> u16 d -> u16 e ->
  middle_of (SPO2.median [a; b; c; d; e]) [a; b; c; d; e].
Proof.
  intros Ha Hb Hc Hd He.
  destruct (bubbleSort_five a b c d e Ha Hb Hc Hd He)
    as (s1 & s2 & s3 & s4 & s5 & E & S1 & S2 & S3 & S4 & P).
  change (SPO2.median [a; b; c; d; e])
    with (rd 0 (SPO2.bubbleSort [a; b; c; d; e] 5) 2).
  rewrite E. change (rd 0 [s1; s2; s3; s4; s5] 2) with s3.
  exists s1, s2, s4, s5. auto.
Qed.

(** Outside that range it need not be: the swap of [bubbleSort] goes
    through a [uint16_t], and of 0, 65936, 65936, 65936, 0 the function
    gives 400. *)
Lemma median_beyond_u16 : SPO2.median [0; 65936; 65936; 65936; 0] = 400.
Proof. vm_compute. reflexivity. Qed.

(** With four zeros in the history the median is 0, whatever the fifth
    value is. *)
Lemma median_fresh (r : Z) : SPO2.median [0; 0; 0; 0; r] = 0.
Proof. destruct r; vm_compute; reflexivity. Qed.

Lemma calSpO2_spec (red ir : double) (buf : list Z) (spo2 rv spo2' : double)
      (rbuf : list Z) :
  SPO2.calSpO2 red ir buf spo2 = Some (rv, rbuf, spo2') ->
  spo2' = SPO2.clamp (SPO2.table (SPO2.median rbuf) spo2)
  /\ exists r, rbuf = wr (for_range 0 (SPO2.R_BUFSIZE - 1)
                            (fun i b => wr b i (rd 0 b (i + 1))) buf)
                         (SPO2.R_BUFSIZE - 1) r.
Proof.
  unfold SPO2.calSpO2. intros H.
  destruct (ddiv red ir) as [q |]; cbn [bind] in H; [| discriminate].
  destruct (d2i _) as [r |]; cbn [bind] in H; [| discriminate].
  apply Some_inj in H. apply pair_equal_spec in H. destruct H as [H E3].
  apply pair_equal_spec in H. destruct H as [E1 E2].
  rewrite E2 in E3. split; [symmetry; exact E3 |].
  exists r. symmetry. exact E2.
Qed.

(** One analysis keeps the invariant and leaves a value of the table. *)
Lemma calSpO2_inv (red ir : double) (buf : list Z) (spo2 rv spo2' : double)
      (rbuf : list Z) :
  (spo2 = 0%Q /\ buf = [0; 0; 0; 0; 0]) \/ table_value spo2 ->
  SPO2.calSpO2 red ir buf spo2 = Some (rv, rbuf, spo2') ->
  table_value spo2'
  /\ spo2' = SPO2.table (SPO2.median rbuf) spo2
  /\ (SPO2.median rbuf > 1200 -> spo2' = spo2).
Proof.
  intros Inv H. destruct (calSpO2_spec _ _ _ _ _ _ _ H) as [E [r Er]].
  assert (T : table_value (SPO2.table (SPO2.median rbuf) spo2)).
  { destruct Inv as [[Z0 B0] | TV].
    - subst buf. change (rbuf = [0; 0; 0; 0; r]) in Er. subst rbuf.
      rewrite median_fresh. apply table_in_range. lia.
    - destruct (Z_le_gt_dec (SPO2.median rbuf) 1200) as [L | G].
      + apply table_in_range. exact L.
      + rewrite table_high by exact G. exact TV. }
  rewrite (clamp_table_value _ T) in E.
  split; [rewrite E; exact T | split; [exact E |]].
  intros G. rewrite E. apply table_high. exact G.
Qed.

Lemma SPO2_LED_keeps (adc : Z) (s : SPO2.state) :
  SPO2.value_SPO2 (fst (SPO2.SPO2_LED_Task adc s)) = SPO2.value_SPO2 s
  /\ SPO2.rValue_buf (fst (SPO2.SPO2_LED_Task adc s)) = SPO2.rValue_buf s.
Proof.
  unfold SPO2.SPO2_LED_Task.
  repeat match goal with
         | |- context [if ?c then _ else _] => destruct c
         end; split; reflexivity.
Qed.

Lemma SPO2Task_saturation_inv (now : Z) (s s' : SPO2.state) (ev : list event) :
  saturation_inv s -> SPO2.SPO2Task now s = Some (s', ev) -> saturation_inv s'.
Proof.
  unfold saturation_inv. intros Inv H.
  destruct (SPO2Task_path _ _ _ _ H)
    as [s1 F I D E | s1 F I A E1 E2 | s1 F I A An];
    destruct (SPO2_front_keeps _ _ F) as (_ & _ & _ & _ & V & B & _).
  - destruct (SPO2_detect_keeps _ _ _ D) as (_ & _ & _ & _ & V' & B' & _).
    rewrite V', B', V, B. exact Inv.
  - subst s'. change (SPO2.value_SPO2 (SPO2.skip_wrap s1))
      with (SPO2.value_SPO2 s1).
    change (SPO2.rValue_buf (SPO2.skip_wrap s1)) with (SPO2.rValue_buf s1).
    rewrite V, B. exact Inv.
  - destruct (SPO2_analyse_spec _ _ _ An)
      as (ppR & ppI & thr & rv & rbuf & spo2 & dac & wait & gev
          & _ & HC & _ & -> & _).
    rewrite V, B in HC. right.
    exact (proj1 (calSpO2_inv _ _ _ _ _ _ _ Inv HC)).
Qed.

Lemma reachable_saturation_inv (s : SPO2.state) :
  SPO2.reachable s -> saturation_inv s.
Proof.
  induction 1 as [| s R IH | s adc R IH | s now s' ev R IH T].
  - left. split; reflexivity.
  - exact IH.
  - unfold saturation_inv.
    destruct (SPO2_LED_keeps adc s) as [V B]. rewrite V, B. exact IH.
  - exact (SPO2Task_saturation_inv _ _ _ _ IH T).
Qed.

Lemma run_reachable (cs : list SPO2.call) :
  forall (s s' : SPO2.state) (ev : list event),
    SPO2.reachable s -> SPO2.run cs s = Some (s', ev) -> SPO2.reachable s'.
Proof.
  induction cs as [| c cs IH]; intros s s' ev R H.
  - apply Some_inj in H. apply pair_equal_spec in H. destruct H as [<- _].
    exact R.
  - destruct c as [adc | now]; cbn [SPO2.run] in H.
    + pose proof (SPO2.reach_led s adc R) as R1.
      destruct (SPO2.SPO2_LED_Task adc s) as [s1 e1]. cbn [fst] in R1.
      destruct (SPO2.run cs s1) as [[s2 e2] |] eqn:E; cbn [bind] in H;
        [| discriminate].
      apply Some_inj in H. apply pair_equal_spec in H. destruct H as [<- _].
      exact (IH _ _ _ R1 E).
    + destruct (SPO2.SPO2Task now s) as [[s1 e1] |] eqn:T; cbn [bind] in H;
        [| discriminate].
      destruct (SPO2.run cs s1) as [[s2 e2] |] eqn:E; cbn [bind] in H;
        [| discriminate].
      apply Some_inj in H. apply pair_equal_spec in H. destruct H as [<- _].
      exact (IH _ _ _ (SPO2.reach_task _ _ _ _ R T) E).
Qed.

(** C4, the code at the failing input.  From the static initial history,
    three analyses that find a RED amplitude of 66 on an IR amplitude of 1
    store the ratio 66000 three times and leave the saturation at 99; the
    third of them has the median 66000 and holds, as the table says.  The
    fourth analysis finds the ratio 500.  The median of the history 0,
    66000, 66000, 66000, 500 is 66000, for which the table has no row, so
    that the saturation is to stay at 99.  [bubbleSort] moves each 66000
    through its [uint16_t temp], which keeps 66000 - 65536 = 464, and
    leaves 0, 500, 464, 464, 464; [calSpO2] takes 464 for the median and
    stores 98, the saturation of the row 451 to 470.  The same happens
    in the call of [SPO2Task] that wraps the windows in [C4_fourth]. *)
Theorem C4_sort_truncates_ratios :
  SPO2.calSpO2 66%Q 1%Q [0; 0; 0; 0; 0] 0%Q
  = Some (66000%Q, [0; 0; 0; 0; 66000], 99%Q)
  /\ SPO2.calSpO2 66%Q 1%Q [0; 0; 0; 0; 66000] 99%Q
     = Some (66000%Q, [0; 0; 0; 66000; 66000], 99%Q)
  /\ SPO2.calSpO2 66%Q 1%Q [0; 0; 0; 66000; 66000] 99%Q
     = Some (66000%Q, [0; 0; 66000; 66000; 66000], 99%Q)
  /\ SPO2.calSpO2 30%Q 60%Q [0; 0; 66000; 66000; 66000] 99%Q
     = Some (500%Q, [0; 66000; 66000; 66000; 500], 98%Q)
  /\ middle_of 66000 [0; 66000; 66000; 66000; 500]
  /\ spec_saturation 66000 = None
  /\ to_u16 66000 = 464
  /\ SPO2.bubbleSort [0; 66000; 66000; 66000; 500] 5 = [0; 500; 464; 464; 464]
  /\ SPO2.median [0; 66000; 66000; 66000; 500] = 464
  /\ spec_saturation 464 = Some 98
  /\ SPO2.SPO2Task 9600 C4_fourth
     = Some (C4_fourth', [Analyze_SPO2Wave_call; calSpO2_call])
  /\ SPO2.rValue_buf C4_fourth = [0; 0; 66000; 66000; 66000]
  /\ SPO2.value_SPO2 C4_fourth = 99%Q
  /\ SPO2.rValue_buf C4_fourth' = [0; 66000; 66000; 66000; 500]
  /\ SPO2.value_SPO2 C4_fourth' = 98%Q.
Proof.
  repeat split; try (vm_compute; reflexivity).
  exists 0, 500, 66000, 66000. repeat split; try lia.
  apply perm_skip.
  change [66000; 66000; 66000; 500] with ([66000; 66000; 66000] ++ [500]).
  symmetry. apply Permutation_cons_append.
Qed.

(** ** Analysis and gain within a wrap (C1, C6) *)

Lemma far_apart (p : double) : dgt p 80%Q = true -> dlt p 20%Q = false.
Proof.
  unfold dgt. intros H. apply dlt_true in H. apply dlt_false.
  apply Qlt_le_weak. apply Qlt_trans with 80%Q; [reflexivity | exact H].
Qed.

(** The automatic gain, case by case. *)
Lemma auto_gain_up (p : double) (dac wait : Z) :
  dlt p 20%Q = true -> 0 <= dac < 500 ->
  SPO2.auto_gain p dac wait
  = (Z.min (dac + 40) 500, 1, [AdjustDAC (Z.min (dac + 40) 500)]).
Proof.
  intros Hp Hd. unfold SPO2.auto_gain, SPO2.RED_INTENSITY_MAX,
    SPO2.RED_INTENSITY_STEP, SPO2.ADJUST_STABLE_DELAY.
  rewrite Hp, (proj2 (Z.ltb_lt dac 500)) by lia. cbn [andb].
  rewrite to_u16_small by lia.
  destruct (Z.gtb_spec (dac + 40) 500).
  - rewrite Z.min_r by lia. reflexivity.
  - rewrite Z.min_l by lia. reflexivity.
Qed.

Lemma auto_gain_down (p : double) (dac wait : Z) :
  dgt p 80%Q = true -> 100 < dac < 65536 ->
  SPO2.auto_gain p dac wait
  = (Z.max (dac - 40) 100, 1, [AdjustDAC (Z.max (dac - 40) 100)]).
Proof.
  intros Hp Hd. unfold SPO2.auto_gain, SPO2.RED_INTENSITY_MIN,
    SPO2.RED_INTENSITY_STEP, SPO2.ADJUST_STABLE_DELAY.
  rewrite (far_apart p Hp), Hp. cbn [andb].
  rewrite (proj2 (Z.gtb_lt dac 100)) by lia.
  rewrite to_u16_small by lia.
  destruct (Z.ltb_spec (dac - 40) 100).
  - rewrite Z.max_r by lia. reflexivity.
  - rewrite Z.max_l by lia. reflexivity.
Qed.

(** Whatever the automatic gain does, a call of [AdjustDAC] or a new
    drive value comes with the wait armed. *)
Lemma auto_gain_arms (p : double) (dac wait dac' wait' : Z) (gev : list event) :
  SPO2.auto_gain p dac wait = (dac', wait', gev) ->
  (gev = [] /\ dac' = dac /\ wait' = wait)
  \/ (gev = [AdjustDAC dac'] /\ wait' = 1).
Proof.
  unfold SPO2.auto_gain. intros H.
  destruct (dlt p 20%Q && (dac <? SPO2.RED_INTENSITY_MAX)).
  - apply pair_equal_spec in H. destruct H as [H <-].
    apply pair_equal_spec in H. destruct H as [<- <-].
    right. split; reflexivity.
  - destruct (dgt p 80%Q && (dac >? SPO2.RED_INTENSITY_MIN)).
    + apply pair_equal_spec in H. destruct H as [H <-].
      apply pair_equal_spec in H. destruct H as [<- <-].
      right. split; reflexivity.
    + apply pair_equal_spec in H. destruct H as [H <-].
      apply pair_equal_spec in H. destruct H as [<- <-].
      left. repeat split; reflexivity.
Qed.

(** C1 as stated fails on the 300th call of [SPO2Task] after [InitSPO2],
    with 2000 latched on RED and 60000 on IR just before the wrap: the call
    analyses the window (RED amplitude 11.6) and, in the same call, raises
    the LED drive from 240 to 280. *)
Lemma C1_counterexample :
  SPO2.reachable C1_pre
  /\ SPO2.SPO2_Wave_index C1_pre = 299
  /\ SPO2.s_DACdata C1_pre = 240
  /\ exists s' ev,
       SPO2.SPO2Task 2400 C1_pre = Some (s', ev)
       /\ SPO2.SPO2_Wave_index s' = 0
       /\ In Analyze_SPO2Wave_call ev
       /\ In calSpO2_call ev
       /\ In (AdjustDAC 280) ev
       /\ SPO2.peak2peak_RED s' = (58 # 5)%Q
       /\ SPO2.s_DACdata s' = 280.
Proof.
  split; [| split; [reflexivity | split; [reflexivity |]]].
  - eapply (run_reachable C1_calls (fst (SPO2.InitSPO2 SPO2.boot))).
    + apply SPO2.reach_init. apply SPO2.reach_boot.
    + vm_compute. reflexivity.
  - eexists. eexists. split; [vm_compute; reflexivity |].
    repeat split; try (vm_compute; reflexivity); simpl; tauto.
Qed.

(** C1, as the code has it.  A wrap during the wait runs no analysis and
    changes no gain, it only counts the wait down.  A wrap with no wait
    pending always runs the analysis, and the automatic gain works in that
    same call on the amplitude just measured.  A gain change (a call of
    [AdjustDAC], or a new drive value) only ever happens in a wrap that ran
    the analysis, and it arms the wait.  A call that does not wrap does
    neither. *)
Theorem C1_analysis_and_gain :
  forall (s s' : SPO2.state) (now : Z) (ev : list event),
    SPO2.SPO2Task now s = Some (s', ev) ->
    (SPO2.SPO2_Wave_index s + 1 >= SPO2.SP_WAVE_LEN ->
     SPO2.adjust_wait_cnt s > 0 ->
       ev = []
       /\ SPO2.s_DACdata s' = SPO2.s_DACdata s
       /\ SPO2.peak2peak_RED s' = SPO2.peak2peak_RED s
       /\ SPO2.peak2peak_IR s' = SPO2.peak2peak_IR s
       /\ SPO2.value_R s' = SPO2.value_R s
       /\ SPO2.value_SPO2 s' = SPO2.value_SPO2 s
       /\ SPO2.rValue_buf s' = SPO2.rValue_buf s
       /\ SPO2.adjust_wait_cnt s' = SPO2.adjust_wait_cnt s - 1)
    /\ (SPO2.SPO2_Wave_index s + 1 >= SPO2.SP_WAVE_LEN ->
        SPO2.adjust_wait_cnt s <= 0 ->
          In Analyze_SPO2Wave_call ev /\ In calSpO2_call ev)
    /\ (existsb is_AdjustDAC ev = true
        \/ SPO2.s_DACdata s' <> SPO2.s_DACdata s ->
          In Analyze_SPO2Wave_call ev
          /\ SPO2.SPO2_Wave_index s + 1 >= SPO2.SP_WAVE_LEN
          /\ SPO2.adjust_wait_cnt s <= 0
          /\ SPO2.adjust_wait_cnt s' = 1)
    /\ (SPO2.SPO2_Wave_index s + 1 < SPO2.SP_WAVE_LEN ->
          ev = []
          /\ SPO2.s_DACdata s' = SPO2.s_DACdata s
          /\ SPO2.adjust_wait_cnt s' = SPO2.adjust_wait_cnt s).
Proof.
  intros s s' now ev H.
  destruct (SPO2Task_path _ _ _ _ H)
    as [s1 F I D E | s1 F I A E1 E2 | s1 F I A An];
    destruct (SPO2_front_keeps _ _ F)
      as (_ & W & DA & _ & V & B & PR & PI & VR).
  - destruct (SPO2_detect_keeps _ _ _ D)
      as (_ & W' & DA' & _ & _ & _ & _ & _ & _ & _).
    subst ev. split; [intros; lia | split; [intros; lia | split]].
    + intros [X | X]; [discriminate X | congruence].
    + intros _. split; [reflexivity | split; congruence].
  - subst ev s'. split; [| split; [intros; lia | split]].
    + intros _ _. split; [reflexivity |].
      split; [exact DA |]. split; [exact PR |]. split; [exact PI |].
      split; [exact VR |]. split; [exact V |]. split; [exact B |].
      change (SPO2.adjust_wait_cnt (SPO2.skip_wrap s1))
        with (SPO2.adjust_wait_cnt s1 - 1).
      rewrite W. reflexivity.
    + intros [X | X]; [discriminate X |].
      change (SPO2.s_DACdata (SPO2.skip_wrap s1))
        with (SPO2.s_DACdata s1) in X. congruence.
    + intros. lia.
  - destruct (SPO2_analyse_spec _ _ _ An)
      as (ppR & ppI & thr & rv & rbuf & spo2 & dac & wait & gev
          & _ & _ & G & -> & ->).
    change (SPO2.s_DACdata (SPO2.set_wrap 0 thr ppR ppI rv spo2 rbuf dac wait s1))
      with dac.
    change (SPO2.adjust_wait_cnt
              (SPO2.set_wrap 0 thr ppR ppI rv spo2 rbuf dac wait s1))
      with wait.
    split; [intros; lia | split; [| split; [| intros; lia]]].
    + intros _ _. split; [left; reflexivity | right; left; reflexivity].
    + intros X. split; [left; reflexivity |]. split; [exact I |].
      split; [exact A |].
      destruct (auto_gain_arms _ _ _ _ _ _ G) as [(-> & Ed & Ew) | (_ & Ew)];
        [| exact Ew].
      destruct X as [X | X]; [discriminate X | congruence].
Qed.

Lemma C1_analysis_and_gain_witness :
  In Analyze_SPO2Wave_call [Analyze_SPO2Wave_call; calSpO2_call; AdjustDAC 280]
  /\ SPO2.adjust_wait_cnt C1_post = 1.
Proof.
  assert (H : SPO2.SPO2Task 2400 C1_pre
              = Some (C1_post,
                      [Analyze_SPO2Wave_call; calSpO2_call; AdjustDAC 280]))
    by (vm_compute; reflexivity).
  destruct (C1_analysis_and_gain C1_pre C1_post 2400 _ H) as (_ & _ & G & _).
  destruct (G (or_introl eq_refl)) as (A & _ & _ & W).
  split; [exact A | exact W].
Defined.

(** *** Between two wraps *)










Lemma wrap_analysing (now : Z) (s s' : SPO2.state) (ev : list event) :
  SPO2.SPO2Task now s = Some (s', ev) ->
  SPO2.SPO2_Wave_index s + 1 >= SPO2.SP_WAVE_LEN ->
  SPO2.adjust_wait_cnt s <= 0 ->
  exists s1 ppR ppI thr rv rbuf spo2 dac wait gev,
    SPO2.front s = Some s1
    /\ SPO2.Analyze_SPO2Wave (SPO2.arr_SPO2_Wave_RED s1)
         (SPO2.arr_SPO2_Wave_IR s1) (SPO2.arr_SPO2_Wave_Rate s1)
         SPO2.SP_WAVE_LEN = (ppR, ppI, thr)
    /\ SPO2.auto_gain ppR (SPO2.s_DACdata s) (SPO2.adjust_wait_cnt s)
       = (dac, wait, gev)
    /\ s' = SPO2.set_wrap 0 thr ppR ppI rv spo2 rbuf dac wait s1
    /\ ev = Analyze_SPO2Wave_call :: calSpO2_call :: gev.
Proof.
  intros H Hi Hw.
  destruct (SPO2Task_path _ _ _ _ H)
    as [s1 F I D E | s1 F I A E1 E2 | s1 F I A An]; try lia.
  destruct (SPO2_front_keeps _ _ F) as (_ & W & DA & _).
  destruct (SPO2_analyse_spec _ _ _ An)
    as (ppR & ppI & thr & rv & rbuf & spo2 & dac & wait & gev
        & HA & _ & G & E1 & E2).
  rewrite W, DA in G.
  exists s1, ppR, ppI, thr, rv, rbuf, spo2, dac, wait, gev. auto.
Qed.




(** ** The smoother (C2) *)

(** The loop that moves the ring one place to the left leaves the first
    slot of a ring alone once it has passed it. *)
Lemma shift_loop_cons (x : double) (m : nat) :
  forall (i : Z) (l : list double),
    0 <= i ->
    for_up m (i + 1) (fun n b => wr b n (rd 0%Q b (n + 1))) (x :: l)
    = x :: for_up m i (fun n b => wr b n (rd 0%Q b (n + 1))) l.
Proof.
  induction m as [| m IH]; intros i l Hi; [reflexivity |].
  cbn [for_up]. rewrite wr_cons, rd_cons by lia.
  apply IH. lia.
Qed.

(** After the loop and the write of the new sample, the ring holds its
    old contents without the first, and the new sample. *)
Lemma shift_ring (l : list double) (a x : double) :
  wr (for_up (length l) 0 (fun n b => wr b n (rd 0%Q b (n + 1))) (a :: l))
     (Z.of_nat (length l)) x
  = l ++ [x].
Proof.
  revert a. induction l as [| y l IH]; intros a.
  - reflexivity.
  - cbn [length for_up].
    change (wr (a :: y :: l) 0 (rd 0%Q (a :: y :: l) (0 + 1)))
      with (y :: y :: l).
    rewrite (shift_loop_cons y (length l) 0 (y :: l)) by lia.
    replace (Z.of_nat (S (length l))) with (Z.of_nat (length l) + 1) by lia.
    rewrite wr_cons by lia. rewrite IH. reflexivity.
Qed.

Lemma accumulate_cons (x : double) (l : list double) (m : nat) :
  forall (i num : Z),
    0 <= i ->
    for_up_opt m (i + 1) (Smoother.accumulate (x :: l)) num
    = for_up_opt m i (Smoother.accumulate l) num.
Proof.
  induction m as [| m IH]; intros i num Hi; [reflexivity |].
  cbn [for_up_opt]. unfold Smoother.accumulate at 1 3.
  rewrite rd_cons by lia.
  destruct (d2i _) as [n |]; cbn [bind]; [| reflexivity].
  apply IH. lia.
Qed.

(** The summing loop over a ring of integer samples, from any partial
    sum, as long as the sums stay in the [int] range. *)
Lemma accumulate_ints (B : Z) (l : list Z) :
  forall (num : Z),
    Forall (fun z => - B <= z <= B) l ->
    0 <= B ->
    - INT_MAX <= num - Z.of_nat (length l) * B ->
    num + Z.of_nat (length l) * B <= INT_MAX ->
    for_up_opt (length l) 0 (Smoother.accumulate (map i2d l)) num
    = Some (num + sum l).
Proof.
  induction l as [| z l IH]; intros num HB B0 Lo Hi.
  - cbn [length for_up_opt sum fold_right]. f_equal. lia.
  - inversion HB as [| z' l' Hz Hl]; subst.
    cbn [length map for_up_opt].
    unfold Smoother.accumulate at 1.
    change (rd 0%Q (i2d z :: map i2d l) 0) with (i2d z).
    assert (E : ((i2d num + i2d z)%D == inject_Z (num + z))%Q).
    { rewrite dadd_Qeq. unfold i2d. rewrite inject_Z_plus. reflexivity. }
    rewrite (d2i_Qeq _ _ E). unfold d2i. rewrite trunc_inject_Z.
    cbn [length] in Lo, Hi.
    rewrite in_int_true by (unfold INT_MIN, INT_MAX in *; nia).
    cbn [bind]. rewrite (accumulate_cons (i2d z) (map i2d l)) by lia.
    rewrite IH; [| assumption | assumption | nia | nia].
    f_equal. cbn [sum fold_right]. fold (sum l). lia.
Qed.

(** One call while the ring fills. *)
Lemma smooth_fill (W : Z) (x a : double) (pre rest : list double) :
  Z.of_nat (length pre) < W ->
  Smoother.SmoothingFilter W x
    {| Smoother.i := Z.of_nat (length pre); Smoother.buf := pre ++ a :: rest |}
  = Some (x, {| Smoother.i := Z.of_nat (length pre) + 1;
                Smoother.buf := pre ++ x :: rest |}).
Proof.
  intros H. unfold Smoother.SmoothingFilter. cbn [Smoother.i Smoother.buf].
  rewrite (proj2 (Z.ltb_lt _ _) H). rewrite wr_app. reflexivity.
Qed.

(** The calls that fill the ring give back their inputs. *)
Lemma run_fill (W : nat) (xs : list double) :
  forall (pre : list double),
    (length pre + length xs <= W)%nat ->
    Smoother.run (Z.of_nat W) xs
      {| Smoother.i := Z.of_nat (length pre);
         Smoother.buf := pre ++ repeat 0%Q (W - length pre) |}
    = Some (xs,
            {| Smoother.i := Z.of_nat (length (pre ++ xs));
               Smoother.buf := (pre ++ xs)
                               ++ repeat 0%Q (W - length (pre ++ xs)) |}).
Proof.
  induction xs as [| x xs IH]; intros pre H.
  - cbn [Smoother.run]. rewrite app_nil_r. reflexivity.
  - cbn [length] in H. cbn [Smoother.run].
    replace (W - length pre)%nat with (S (W - length pre - 1)) by lia.
    cbn [repeat]. rewrite smooth_fill by lia. cbn [bind].
    specialize (IH (pre ++ [x])).
    rewrite length_app in IH. cbn [length] in IH.
    replace (Z.of_nat (length pre) + 1) with (Z.of_nat (length pre + 1)) by lia.
    replace (pre ++ x :: repeat 0%Q (W - length pre - 1))
      with ((pre ++ [x]) ++ repeat 0%Q (W - (length pre + 1)))
      by (rewrite <- app_assoc; cbn [app]; do 2 f_equal; f_equal; lia).
    rewrite IH by lia. cbn [bind].
    rewrite <- app_assoc. cbn [app]. reflexivity.
Qed.

(** One call on a full ring of integer samples. *)
Lemma smooth_steady (W : nat) (B a z : Z) (win : list Z) :
  S (length win) = W -> 0 <= B -> Z.of_nat W * B <= INT_MAX ->
  Forall (fun z => - B <= z <= B) (win ++ [z]) ->
  exists out,
    Smoother.SmoothingFilter (Z.of_nat W) (i2d z)
      {| Smoother.i := Z.of_nat W; Smoother.buf := map i2d (a :: win) |}
    = Some (out, {| Smoother.i := Z.of_nat W;
                    Smoother.buf := map i2d (win ++ [z]) |})
    /\ (out == inject_Z (sum (win ++ [z])) / inject_Z (Z.of_nat W))%Q.
Proof.
  intros HW B0 HB HF. unfold Smoother.SmoothingFilter.
  cbn [Smoother.i Smoother.buf].
  rewrite Z.ltb_irrefl. unfold for_range, for_range_opt.
  replace (Z.to_nat (Z.of_nat W - 1 - 0)) with (length (map i2d win))
    by (rewrite length_map; lia).
  replace (Z.of_nat W - 1) with (Z.of_nat (length (map i2d win)))
    by (rewrite length_map; lia).
  cbn [map]. rewrite shift_ring.
  replace (map i2d win ++ [i2d z]) with (map i2d (win ++ [z]))
    by (rewrite map_app; reflexivity).
  replace (Z.to_nat (Z.of_nat W - 0)) with (length (win ++ [z]))
    by (rewrite length_app; cbn [length]; lia).
  assert (L : Z.of_nat (length (win ++ [z])) = Z.of_nat W)
    by (rewrite length_app; cbn [length]; lia).
  rewrite (accumulate_ints B (win ++ [z]) 0 HF B0) by (rewrite L; lia).
  cbn [bind]. eexists. split; [reflexivity |].
  rewrite dquo_Qeq, dmul_Qeq. unfold i2d.
  rewrite Qmult_1_r. rewrite Z.add_0_l. reflexivity.
Qed.

(** The calls on a full ring: call [k] gives the mean of the [W] samples
    that end with its input. *)
Lemma run_steady (W : nat) (B : Z) (zs : list Z) :
  forall (win : list Z),
    length win = W -> (1 <= W)%nat -> 0 <= B -> Z.of_nat W * B <= INT_MAX ->
    Forall (fun z => - B <= z <= B) (win ++ zs) ->
    exists outs st,
      Smoother.run (Z.of_nat W) (map i2d zs)
        {| Smoother.i := Z.of_nat W; Smoother.buf := map i2d win |}
      = Some (outs, st)
      /\ length outs = length zs
      /\ forall k, (k < length zs)%nat ->
           (nth k outs 0%Q
            == inject_Z (sum (firstn W (skipn (S k) (win ++ zs))))
               / inject_Z (Z.of_nat W))%Q.
Proof.
  induction zs as [| z zs IH]; intros win HL HW B0 HB HF.
  - exists [], {| Smoother.i := Z.of_nat W; Smoother.buf := map i2d win |}.
    split; [reflexivity | split; [reflexivity |]].
    intros k Hk. cbn [length] in Hk. lia.
  - destruct win as [| a win]; [cbn [length] in HL; lia |].
    cbn [length] in HL.
    assert (HF1 : Forall (fun z => - B <= z <= B) (win ++ [z])).
    { apply Forall_app. rewrite <- app_comm_cons in HF.
      inversion HF as [| ? ? _ HF']; subst.
      apply Forall_app in HF'. destruct HF' as [F1 F2].
      inversion F2; subst. split; [exact F1 |]. constructor; [assumption |].
      constructor. }
    assert (HF2 : Forall (fun z => - B <= z <= B) ((win ++ [z]) ++ zs)).
    { rewrite <- app_assoc. cbn [app]. rewrite <- app_comm_cons in HF.
      inversion HF; subst. assumption. }
    destruct (smooth_steady W B a z win HL B0 HB HF1) as (out & E & Eo).
    assert (HL2 : length (win ++ [z]) = W)
      by (rewrite length_app; cbn [length]; lia).
    destruct (IH (win ++ [z]) HL2 HW B0 HB HF2) as (outs & st & R & Lo & M).
    exists (out :: outs), st.
    change (map i2d (z :: zs)) with (i2d z :: map i2d zs).
    cbn [Smoother.run]. rewrite E. cbn [bind]. rewrite R. cbn [bind].
    split; [reflexivity | split; [cbn [length]; lia |]].
    intros k Hk. destruct k as [| k].
    + cbn [nth]. rewrite Eo.
      replace (firstn W (skipn 1 ((a :: win) ++ z :: zs))) with (win ++ [z]);
        [reflexivity |].
      cbn [app skipn].
      replace (win ++ z :: zs) with ((win ++ [z]) ++ zs)
        by (rewrite <- app_assoc; reflexivity).
      rewrite <- HL2. rewrite firstn_app, Nat.sub_diag, firstn_all.
      cbn [firstn]. rewrite app_nil_r. reflexivity.
    + cbn [nth]. cbn [length] in Hk. rewrite (M k) by lia.
      replace (skipn (S (S k)) ((a :: win) ++ z :: zs))
        with (skipn (S k) ((win ++ [z]) ++ zs));
        [reflexivity |].
      rewrite <- app_assoc. reflexivity.
Qed.

Lemma smoother_run_app (W : Z) (xs ys : list double) :
  forall (st st1 st2 : Smoother.state) (o1 o2 : list double),
    Smoother.run W xs st = Some (o1, st1) ->
    Smoother.run W ys st1 = Some (o2, st2) ->
    Smoother.run W (xs ++ ys) st = Some (o1 ++ o2, st2).
Proof.
  induction xs as [| x xs IH]; intros st st1 st2 o1 o2 R1 R2.
  - cbn [Smoother.run] in R1. apply Some_inj in R1.
    apply pair_equal_spec in R1. destruct R1 as [<- <-]. exact R2.
  - cbn [app Smoother.run] in R1 |- *.
    destruct (Smoother.SmoothingFilter W x st) as [[y sa] |]; cbn [bind] in R1 |- *;
      [| discriminate].
    destruct (Smoother.run W xs sa) as [[ys' sb] |] eqn:E; cbn [bind] in R1;
      [| discriminate].
    apply Some_inj in R1. apply pair_equal_spec in R1. destruct R1 as [<- <-].
    rewrite (IH _ _ _ _ _ E R2). reflexivity.
Qed.

Lemma init_as_fill (W : nat) :
  Smoother.init (Z.of_nat W)
  = {| Smoother.i := Z.of_nat (length (@nil double));
       Smoother.buf := [] ++ repeat 0%Q (W - length (@nil double)) |}.
Proof.
  unfold Smoother.init. rewrite Nat2Z.id. cbn [length app].
  rewrite Nat.sub_0_r. reflexivity.
Qed.

Lemma last_inputs_length (W : nat) (zs : list Z) (k : nat) :
  (W <= k)%nat -> (k < length zs)%nat -> length (last_inputs W zs k) = W.
Proof.
  intros H1 H2. unfold last_inputs. rewrite length_firstn, length_skipn. lia.
Qed.

(** C2, as the code has it.  A smoother of length [W] gives back its input
    on each of its first [W] calls, whatever the samples are.  Fed with
    integer samples that keep the running sum inside the [int] range, it
    gives from call [W + 1] on the arithmetic mean of the last [W]
    inputs. *)
Theorem C2_smoother_fill_then_mean :
  forall (W : nat) (B : Z) (xs : list double) (zs : list Z),
    (1 <= W)%nat -> 0 <= B -> Z.of_nat W * B <= INT_MAX ->
    (length xs <= W)%nat ->
    Forall (fun z => - B <= z <= B) zs ->
    (exists st,
        Smoother.run (Z.of_nat W) xs (Smoother.init (Z.of_nat W))
        = Some (xs, st))
    /\ exists outs st,
         Smoother.run (Z.of_nat W) (map i2d zs) (Smoother.init (Z.of_nat W))
         = Some (outs, st)
         /\ length outs = length zs
         /\ (forall k, (k < W)%nat -> (k < length zs)%nat ->
                       nth k outs 0%Q = i2d (nth k zs 0))
         /\ (forall k, (W <= k)%nat -> (k < length zs)%nat ->
                       (nth k outs 0%Q == mean (last_inputs W zs k))%Q).
Proof.
  intros W B xs zs HW B0 HB Hx HF. split.
  - rewrite init_as_fill. rewrite run_fill by (cbn [length]; lia).
    eexists. reflexivity.
  - destruct (Nat.le_gt_cases (length zs) W) as [Short | Long].
    + rewrite init_as_fill.
      rewrite run_fill by (rewrite length_map; cbn [length]; lia).
      eexists. eexists. split; [reflexivity |].
      cbn [app]. split; [apply length_map |]. split.
      * intros k _ _. change 0%Q with (i2d 0). apply map_nth.
      * intros k H1 H2. lia.
    + set (pre := firstn W zs). set (rest := skipn W zs).
      assert (Ez : zs = pre ++ rest) by (symmetry; apply firstn_skipn).
      assert (Lp : length pre = W)
        by (unfold pre; rewrite length_firstn; lia).
      assert (R1 : Smoother.run (Z.of_nat W) (map i2d pre)
                     (Smoother.init (Z.of_nat W))
                   = Some (map i2d pre,
                           {| Smoother.i := Z.of_nat W;
                              Smoother.buf := map i2d pre |})).
      { rewrite init_as_fill.
        rewrite run_fill by (rewrite length_map; cbn [length]; lia).
        cbn [app]. rewrite length_map, Lp, Nat.sub_diag. cbn [repeat].
        rewrite app_nil_r. reflexivity. }
      rewrite Ez in HF.
      destruct (run_steady W B rest pre Lp HW B0 HB HF)
        as (outs & st & R2 & Lo & M).
      exists (map i2d pre ++ outs), st.
      split; [| split; [| split]].
      * rewrite Ez at 1. rewrite map_app.
        exact (smoother_run_app _ _ _ _ _ _ _ _ R1 R2).
      * rewrite length_app, length_map, Lo, Ez at 1.
        rewrite length_app. reflexivity.
      * intros k H1 H2. rewrite app_nth1 by (rewrite length_map; lia).
        change 0%Q with (i2d 0). rewrite map_nth.
        rewrite Ez at 1. rewrite app_nth1 by lia. reflexivity.
      * intros k H1 H2.
        rewrite app_nth2 by (rewrite length_map; lia).
        rewrite length_map, Lp.
        assert (Lk : (k - W < length rest)%nat).
        { unfold rest. rewrite length_skipn. lia. }
        rewrite (M (k - W)%nat Lk). unfold mean.
        rewrite last_inputs_length by assumption.
        unfold last_inputs. rewrite <- Ez.
        replace (k + 1 - W)%nat with (S (k - W)) by lia. reflexivity.
Qed.

Lemma C2_smoother_fill_then_mean_witness :
  (exists st,
      Smoother.run 3 [1 # 2; 3 # 4]%Q (Smoother.init 3)
      = Some ([1 # 2; 3 # 4]%Q, st))
  /\ exists outs st,
       Smoother.run 3 (map i2d [3; 6; 9; 12; 15]) (Smoother.init 3)
       = Some (outs, st)
       /\ length outs = 5%nat
       /\ (forall k, (k < 3)%nat -> (k < 5)%nat ->
                     nth k outs 0%Q = i2d (nth k [3; 6; 9; 12; 15] 0))
       /\ (forall k, (3 <= k)%nat -> (k < 5)%nat ->
                     (nth k outs 0%Q
                      == mean (last_inputs 3%nat [3; 6; 9; 12; 15]%Z k))%Q).
Proof.
  assert (HW : (1 <= 3)%nat) by lia.
  assert (B0 : 0 <= 4095) by lia.
  assert (HB : Z.of_nat 3 * 4095 <= INT_MAX) by (vm_compute; discriminate).
  assert (Hx : (length [1 # 2; 3 # 4]%Q <= 3)%nat) by (cbn [length]; lia).
  assert (HF : Forall (fun z => - 4095 <= z <= 4095) [3; 6; 9; 12; 15])
    by (repeat constructor; lia).
  exact (C2_smoother_fill_then_mean 3 4095 [1 # 2; 3 # 4]%Q [3; 6; 9; 12; 15]
           HW B0 HB Hx HF).
Defined.

(** C2 as stated fails on the smoother of the ECG ([W] = 3).  Fed with 3,
    6, 9 it gives 9 on its third call, where the mean of the three inputs
    is 6.  Fed with 1/2 four times it gives 0 on its fourth call, where
    the mean of the last three inputs is 1/2. *)
Lemma C2_counterexample :
  (exists st,
      Smoother.run ECG.WindowsLen (map i2d [3; 6; 9])
                   (Smoother.init ECG.WindowsLen)
      = Some ([3; 6; 9]%Q, st)
      /\ ~ (9 == mean [3; 6; 9]%Z)%Q)
  /\ (exists st,
         Smoother.run ECG.WindowsLen [1 # 2; 1 # 2; 1 # 2; 1 # 2]%Q
                      (Smoother.init ECG.WindowsLen)
         = Some ([1 # 2; 1 # 2; 1 # 2; 0]%Q, st)
         /\ ~ (0 == ((1 # 2) + (1 # 2) + (1 # 2)) / 3)%Q).
Proof.
  split.
  - eexists. split; [vm_compute; reflexivity |].
    vm_compute. intros H. discriminate H.
  - eexists. split; [vm_compute; reflexivity |].
    vm_compute. intros H. discriminate H.
Qed.

(* ------------------------------------------------------------------------- *)
(** * Further properties of the code *)

(** ** More on numbers and arrays *)

Section ArrayLengths.
Context {A : Type} (d : A).

Lemma length_wr (a : list A) (i : Z) (v : A) : length (wr a i v) = length a.
Proof.
  unfold wr. destruct (i <? 0); [reflexivity |].
  generalize (Z.to_nat i). intros n. revert n.
  induction a as [| h t IH]; intros n; [reflexivity |].
  destruct n as [| n]; simpl; [reflexivity | rewrite IH; reflexivity].
Qed.

Lemma length_for_up (body : Z -> list A -> list A) :
  (forall i a, length (body i a) = length a) ->
  forall n i a, length (for_up n i body a) = length a.
Proof.
  intros H n. induction n as [| n IH]; intros i a; simpl; [reflexivity |].
  rewrite IH. apply H.
Qed.

Lemma length_for_down (body : Z -> list A -> list A) :
  (forall i a, length (body i a) = length a) ->
  forall n i a, length (for_down n i body a) = length a.
Proof.
  intros H n. induction n as [| n IH]; intros i a; simpl; [reflexivity |].
  rewrite IH. apply H.
Qed.

End ArrayLengths.

Lemma Forall_wr {A : Type} (P : A -> Prop) (a : list A) (i : Z) (v : A) :
  Forall P a -> P v -> Forall P (wr a i v).
Proof.
  intros Ha Hv. unfold wr. destruct (i <? 0); [exact Ha |].
  generalize (Z.to_nat i). intros n. revert n.
  induction Ha as [| h t Hh Ht IH]; intros n; [constructor |].
  destruct n as [| n]; simpl; constructor; auto.
Qed.

Lemma wr_repeat {A : Type} (x : A) (n : nat) (i : Z) :
  wr (repeat x n) i x = repeat x n.
Proof.
  unfold wr. destruct (i <? 0); [reflexivity |].
  generalize (Z.to_nat i). intros k. revert k.
  induction n as [| n IH]; intros k; [reflexivity |].
  destruct k as [| k]; cbn [repeat wr_nat]; [reflexivity |].
  rewrite IH. reflexivity.
Qed.

Lemma rd_repeat {A : Type} (x : A) (n : nat) (i : Z) : rd x (repeat x n) i = x.
Proof.
  unfold rd. generalize (Z.to_nat i). intros k. revert k.
  induction n as [| n IH]; intros k; destruct k; cbn [repeat nth]; auto.
Qed.

Lemma five_slots {A : Type} (l : list A) :
  length l = 5%nat -> exists a b c d e, l = [a; b; c; d; e].
Proof.
  intros H. destruct l as [| a [| b [| c [| d [| e [| f l]]]]]]; try discriminate H.
  exists a, b, c, d, e. reflexivity.
Qed.

Lemma to_u16_range (z : Z) : 0 <= to_u16 z < 65536.
Proof. unfold to_u16. apply Z.mod_pos_bound. lia. Qed.

Lemma to_u16_nonneg (z : Z) : 0 <= to_u16 z.
Proof. unfold to_u16. apply Z.mod_pos_bound. lia. Qed.

Lemma to_u32_range (z : Z) : 0 <= to_u32 z < 4294967296.
Proof. unfold to_u32. apply Z.mod_pos_bound. lia. Qed.

Lemma to_int_range (z : Z) : INT_MIN <= to_int z <= INT_MAX.
Proof.
  unfold to_int, INT_MIN, INT_MAX.
  pose proof (Z.mod_pos_bound z 4294967296 ltac:(lia)) as B.
  destruct (Z.leb_spec (z mod 4294967296) 2147483647); lia.
Qed.

Lemma to_int_small (z : Z) : 0 <= z <= INT_MAX -> to_int z = z.
Proof.
  unfold INT_MAX. intros H. unfold to_int.
  rewrite Z.mod_small by lia.
  rewrite (proj2 (Z.leb_le z INT_MAX)) by (unfold INT_MAX; lia). reflexivity.
Qed.

Lemma d2i_inject_Z (z : Z) : INT_MIN <= z <= INT_MAX -> d2i (inject_Z z) = Some z.
Proof.
  intros H. unfold d2i. rewrite trunc_inject_Z, in_int_true by exact H.
  reflexivity.
Qed.

Lemma ddiv_defined (a b : double) :
  ~ (b == 0)%Q -> ddiv a b = Some (a / b)%D.
Proof.
  intros H. unfold ddiv. destruct (Qeq_bool b 0) eqn:B; [| reflexivity].
  apply Qeq_bool_eq in B. contradiction.
Qed.

Lemma ddiv_zero (a b : double) : (b == 0)%Q -> ddiv a b = None.
Proof.
  intros H. unfold ddiv. rewrite (proj2 (Qeq_bool_iff b 0) H). reflexivity.
Qed.

Lemma quot_rate_bounds (d : Z) : 0 < d -> 0 <= Z.quot 60000 d <= 60000.
Proof.
  intros H. split.
  - apply Z.quot_pos; lia.
  - rewrite Z.quot_div_nonneg by lia. apply Z.div_le_upper_bound; nia.
Qed.

(** [60000.0 / d] cast to [int], for a distance that is an integer of
    either sign. *)
Lemma rate_of_signed_distance (q : Q) (d : Z) :
  (q == inject_Z d)%Q -> d <> 0 ->
  (x <- ddiv 60000%Q q ;; d2i x) = Some (Z.quot 60000 d)
  /\ -60000 <= Z.quot 60000 d <= 60000.
Proof.
  intros E Hd.
  assert (B : -60000 <= Z.quot 60000 d <= 60000).
  { destruct (Z_lt_le_dec 0 d) as [P | N].
    - pose proof (quot_rate_bounds d P). lia.
    - assert (P : 0 < - d) by lia.
      pose proof (quot_rate_bounds (- d) P) as H.
      rewrite Z.quot_opp_r in H by lia. lia. }
  split; [| exact B].
  unfold ddiv.
  assert (Hz : Qeq_bool q 0 = false).
  { destruct (Qeq_bool q 0) eqn:Bq; [| reflexivity].
    apply Qeq_bool_eq in Bq. rewrite E in Bq. unfold Qeq in Bq. simpl in Bq. lia. }
  rewrite Hz. cbn [bind].
  assert (Hq : (dquo 60000 q == 60000 / inject_Z d)%Q).
  { rewrite dquo_Qeq, E. reflexivity. }
  rewrite (d2i_Qeq _ _ Hq). unfold d2i.
  assert (T : trunc (60000 / inject_Z d)%Q = Z.quot 60000 d).
  { destruct d as [| p | p]; [lia | reflexivity |].
    change (trunc (60000 / inject_Z (Z.neg p))%Q) with (Z.quot (-60000) (Z.pos p)).
    change (Z.neg p) with (Z.opp (Z.pos p)).
    change (Z.neg 60000) with (Z.opp (Z.pos 60000)).
    rewrite Z.quot_opp_l, Z.quot_opp_r by lia. reflexivity. }
  rewrite T. rewrite in_int_true; [reflexivity |].
  unfold INT_MIN, INT_MAX. lia.
Qed.

Lemma i2d_sub (a b : Z) : (dsub (i2d a) (i2d b) == inject_Z (a - b))%Q.
Proof.
  rewrite dsub_Qeq. unfold i2d, Qminus, Z.sub.
  rewrite inject_Z_plus, inject_Z_opp. reflexivity.
Qed.

Lemma trunc_nonneg_le (q : Q) : (0 <= q)%Q -> 0 <= trunc q.
Proof.
  intros H. rewrite trunc_nonneg by exact H.
  change 0 with (Qfloor 0). apply Qfloor_resp_le. exact H.
Qed.

Lemma ratio_nonneg (red ir : Q) :
  (0 <= red)%Q -> (0 <= ir)%Q -> ~ (ir == 0)%Q -> (0 <= red / ir * 1000)%Q.
Proof.
  intros Hr Hi NZ.
  assert (P : (0 < ir)%Q).
  { apply Qle_lteq in Hi. destruct Hi as [Hi | Hi]; [exact Hi |].
    exfalso. apply NZ. symmetry. exact Hi. }
  apply Qmult_le_0_compat; [| discriminate].
  unfold Qdiv. apply Qmult_le_0_compat; [exact Hr |].
  apply Qinv_le_0_compat. exact Hi.
Qed.

Lemma trunc_below_one (q : Q) : below_one q -> trunc q = 0.
Proof.
  destruct q as [n d]. unfold below_one, Qlt, trunc. cbn [Qnum Qden].
  intros [Lo Hi]. destruct (Z_lt_le_dec n 0) as [N | P].
  - assert (E : Z.quot (- n) (Z.pos d) = 0) by (apply Z.quot_small; lia).
    rewrite Z.quot_opp_l in E by lia. lia.
  - apply Z.quot_small. lia.
Qed.

Lemma quarter_point (M m : Q) :
  (m <= M)%Q ->
  (m <= M - (M - m) / 4)%Q /\ (M - (M - m) / 4 <= M)%Q /\ (0 <= M - m)%Q.
Proof.
  intros H.
  assert (E : ((M - m) / 4 == (M - m) * (1 # 4))%Q) by reflexivity.
  rewrite E. repeat split; lra.
Qed.

Lemma threshold_Qeq (M m : double) :
  ((M - (M - m) / 4%Q)%D == M - (M - m) / 4)%Q.
Proof. rewrite dsub_Qeq, dquo_Qeq, dsub_Qeq. reflexivity. Qed.

Lemma third_point (M m : Q) :
  (m <= M)%Q -> (m <= M - (M - m) / 3)%Q /\ (M - (M - m) / 3 <= M)%Q.
Proof.
  intros H.
  assert (E : ((M - m) / 3 == (M - m) * (1 # 3))%Q) by reflexivity.
  rewrite E. split; lra.
Qed.

Lemma third_Qeq (M m : double) :
  ((M - (M - m) / 3%Q)%D == M - (M - m) / 3)%Q.
Proof. rewrite dsub_Qeq, dquo_Qeq, dsub_Qeq. reflexivity. Qed.

Lemma double_ring_theory :
  ring_theory (0%Q : double) (1%Q : double) Qplus Qmult Qminus Qopp Qeq.
Proof. exact Qsrt. Qed.

Add Ring double_ring : double_ring_theory.

(** ** The second-order sections *)

Lemma IIR_length (b a : list double) (x : double) (t : list double) :
  length (snd (Biquad.IIR b a x t)) = length t.
Proof.
  unfold Biquad.IIR. cbn [snd].
  rewrite length_for_down; [apply length_wr |].
  intros i l. apply length_wr.
Qed.

Lemma IIR_step (b a : list double) (x d0 d1 d2 : double) :
  Biquad.IIR b a x [d0; d1; d2]
  = let w := (x - rd 0%Q a 1 * d1 - rd 0%Q a 2 * d2)%D in
    ((rd 0%Q b 0 * w + rd 0%Q b 1 * d1 + rd 0%Q b 2 * d2)%D, [w; w; d1]).
Proof. reflexivity. Qed.

Lemma Biquad_run_app (b a : list double) (xs ys : list double) :
  forall (t : list double),
    Biquad.run b a (xs ++ ys) t
    = let '(o1, t1) := Biquad.run b a xs t in
      let '(o2, t2) := Biquad.run b a ys t1 in
      (o1 ++ o2, t2).
Proof.
  induction xs as [| x xs IH]; intros t.
  - cbn [app Biquad.run]. destruct (Biquad.run b a ys t) as [o2 t2]. reflexivity.
  - cbn [app Biquad.run]. destruct (Biquad.IIR b a x t) as [y t'].
    rewrite IH. destruct (Biquad.run b a xs t') as [o1 t1].
    destruct (Biquad.run b a ys t1) as [o2 t2]. reflexivity.
Qed.

Lemma past_snoc_1 (l : list double) (x : double) : past (l ++ [x]) 1 = x.
Proof. unfold past. rewrite rev_app_distr. reflexivity. Qed.

Lemma past_snoc_2 (l : list double) (x : double) : past (l ++ [x]) 2 = past l 1.
Proof. unfold past. rewrite rev_app_distr. reflexivity. Qed.

(** What the delay line of a section holds after a run from rest: the
    last values of the inner sequence [w], from which the last inputs and
    outputs are rebuilt. *)
Lemma Biquad_run_inv (b a : list double) (xs : list double) :
  exists d0 d1 d2 d3 : double,
    snd (Biquad.run b a xs [0; 0; 0]%Q) = [d0; d0; d1]
    /\ (past xs 1 == d0 + rd 0 a 1 * d1 + rd 0 a 2 * d2)%Q
    /\ (past xs 2 == d1 + rd 0 a 1 * d2 + rd 0 a 2 * d3)%Q
    /\ (past (fst (Biquad.run b a xs [0; 0; 0]%Q)) 1
        == rd 0 b 0 * d0 + rd 0 b 1 * d1 + rd 0 b 2 * d2)%Q
    /\ (past (fst (Biquad.run b a xs [0; 0; 0]%Q)) 2
        == rd 0 b 0 * d1 + rd 0 b 1 * d2 + rd 0 b 2 * d3)%Q.
Proof.
  induction xs as [| x xs IH] using rev_ind.
  - exists 0%Q, 0%Q, 0%Q, 0%Q. cbn [Biquad.run fst snd].
    change (past [] 1) with 0%Q. change (past [] 2) with 0%Q.
    split; [reflexivity |]. repeat split; ring.
  - destruct IH as (d0 & d1 & d2 & d3 & T & X1 & X2 & Y1 & Y2).
    rewrite Biquad_run_app.
    destruct (Biquad.run b a xs [0; 0; 0]%Q) as [ys t]. cbn [fst snd] in *.
    subst t. cbn [Biquad.run]. rewrite IIR_step. cbn zeta. cbn [fst snd].
    set (w := (x - rd 0%Q a 1 * d0 - rd 0%Q a 2 * d1)%D).
    assert (W : (w == x - rd 0 a 1 * d0 - rd 0 a 2 * d1)%Q).
    { subst w. rewrite dsub_Qeq, dsub_Qeq, !dmul_Qeq. reflexivity. }
    exists w, d0, d1, d2. split; [reflexivity |].
    rewrite !past_snoc_1, !past_snoc_2.
    split; [rewrite W; ring |]. split; [exact X1 |].
    split; [| exact Y1].
    rewrite dadd_Qeq, dadd_Qeq, !dmul_Qeq. reflexivity.
Qed.

(** X1.  A second-order section ([IIRNotch], [IIRLowpass], [IIRHighpass]
    of the three modules, whatever the coefficient arrays) that starts from
    a delay line of zeros computes the difference equation its source
    states: after the inputs [xs], the output for a further input [x] is
    [b0*x + b1*x[n-1] + b2*x[n-2] - a1*y[n-1] - a2*y[n-2]] over the two
    inputs and the two outputs before it, which are zero before the start.
    [a[0]] plays no part.  Doubles being exact rationals here, the two
    sides are equal as rationals. *)
Theorem X1_iir_difference_equation :
  forall (b a : list double) (xs : list double) (x : double),
    let '(ys, t) := Biquad.run b a xs [0; 0; 0]%Q in
    let '(y, _) := Biquad.IIR b a x t in
    (y == difference_equation b a xs ys x)%Q.
Proof.
  intros b a xs x.
  destruct (Biquad_run_inv b a xs) as (d0 & d1 & d2 & d3 & T & X1 & X2 & Y1 & Y2).
  destruct (Biquad.run b a xs [0; 0; 0]%Q) as [ys t]. cbn [fst snd] in *.
  subst t. rewrite IIR_step. cbn beta iota zeta.
  unfold difference_equation. rewrite X1, X2, Y1, Y2.
  repeat (rewrite dadd_Qeq || rewrite dsub_Qeq || rewrite dmul_Qeq).
  ring.
Qed.

(** ** The smoothers, for samples of any kind *)

Lemma smoother_keeps_ok (W : Z) (x y : double) (st st' : Smoother.state) :
  smoother_ok W st -> Smoother.SmoothingFilter W x st = Some (y, st') ->
  smoother_ok W st'
  /\ Smoother.i st' = Z.min (Smoother.i st + 1) W.
Proof.
  intros [Hi Hl]. unfold Smoother.SmoothingFilter.
  destruct (Z.ltb_spec (Smoother.i st) W) as [L | G].
  - intros H. apply Some_inj in H. apply pair_equal_spec in H.
    destruct H as [_ H]. subst st'. unfold smoother_ok. cbn [Smoother.i Smoother.buf].
    split; [split |]; [lia | rewrite length_wr; exact Hl | lia].
  - destruct (for_range_opt _ _ _ _) as [num |]; cbn [bind]; [| discriminate].
    intros H. apply Some_inj in H. apply pair_equal_spec in H.
    destruct H as [_ H]. subst st'. unfold smoother_ok. cbn [Smoother.i Smoother.buf].
    split; [split |]; [lia | | lia].
    rewrite length_wr. unfold for_range. rewrite length_for_up; [exact Hl |].
    intros i a. apply length_wr.
Qed.

(** One call on a full ring: the ring moves on by one sample whatever the
    samples are; the result is the sum, truncated after every addition,
    over the length. *)
Lemma smooth_steady_any (W : nat) (a x : double) (l : list double) :
  S (length l) = W ->
  Smoother.SmoothingFilter (Z.of_nat W) x
    {| Smoother.i := Z.of_nat W; Smoother.buf := a :: l |}
  = (num <- for_up_opt W 0 (Smoother.accumulate (l ++ [x])) 0 ;;
     Some ((i2d num * 1%Q / i2d (Z.of_nat W))%D,
           {| Smoother.i := Z.of_nat W; Smoother.buf := l ++ [x] |})).
Proof.
  intros HW. unfold Smoother.SmoothingFilter. cbn [Smoother.i Smoother.buf].
  rewrite Z.ltb_irrefl. unfold for_range, for_range_opt.
  replace (Z.to_nat (Z.of_nat W - 1 - 0)) with (length l) by lia.
  replace (Z.of_nat W - 1) with (Z.of_nat (length l)) by lia.
  rewrite shift_ring.
  replace (Z.to_nat (Z.of_nat W - 0)) with W by lia.
  reflexivity.
Qed.

Lemma smoother_run_split (W : Z) (xs ys : list double) :
  forall (st : Smoother.state),
    Smoother.run W (xs ++ ys) st
    = ('(o1, st1) <- Smoother.run W xs st ;;
       '(o2, st2) <- Smoother.run W ys st1 ;;
       Some (o1 ++ o2, st2)).
Proof.
  induction xs as [| x xs IH]; intros st.
  - cbn [app Smoother.run bind].
    destruct (Smoother.run W ys st) as [[o2 st2] |]; reflexivity.
  - cbn [app Smoother.run].
    destruct (Smoother.SmoothingFilter W x st) as [[y st'] |]; cbn [bind];
      [| reflexivity].
    rewrite IH. destruct (Smoother.run W xs st') as [[o1 st1] |]; cbn [bind];
      [| reflexivity].
    destruct (Smoother.run W ys st1) as [[o2 st2] |]; reflexivity.
Qed.

(** A run on a full ring: the ring always holds the last [W] samples. *)
Lemma run_steady_ring (W : nat) (xs : list double) :
  forall (win ys : list double) (st : Smoother.state),
    length win = W -> (1 <= W)%nat ->
    Smoother.run (Z.of_nat W) xs
      {| Smoother.i := Z.of_nat W; Smoother.buf := win |} = Some (ys, st) ->
    length ys = length xs
    /\ st = {| Smoother.i := Z.of_nat W;
               Smoother.buf := skipn (length xs) (win ++ xs) |}.
Proof.
  induction xs as [| x xs IH]; intros win ys st L W1 R.
  - cbn [Smoother.run] in R. apply Some_inj in R. apply pair_equal_spec in R.
    destruct R as [<- <-]. split; [reflexivity |].
    cbn [length skipn]. rewrite app_nil_r. reflexivity.
  - destruct win as [| a l]; [cbn [length] in L; lia |].
    cbn [length] in L. cbn [Smoother.run] in R.
    rewrite (smooth_steady_any W a x l L) in R.
    destruct (for_up_opt W 0 _ 0) as [num |]; cbn [bind] in R; [| discriminate].
    destruct (Smoother.run _ xs _) as [[o2 st2] |] eqn:R2; cbn [bind] in R;
      [| discriminate].
    apply Some_inj in R. apply pair_equal_spec in R. destruct R as [<- <-].
    destruct (IH (l ++ [x]) o2 st2) as [L2 S2]; [| exact W1 | exact R2 |].
    { rewrite length_app. cbn [length]. lia. }
    split; [cbn [length]; rewrite L2; reflexivity |].
    rewrite S2. cbn [length skipn app]. rewrite <- app_assoc. reflexivity.
Qed.

(** X2.  A smoother of length [W], at least 1, fed any samples from its
    initial statics: whenever the run is defined there are as many outputs
    as inputs and the first [W] outputs are the inputs themselves; the fill
    counter stops at [W]; the ring holds the inputs followed by zeros while
    it fills and the last [W] inputs afterwards, and keeps its [W] slots. *)
Theorem X2_smoother_ring :
  forall (W : nat) (xs ys : list double) (st : Smoother.state),
    (1 <= W)%nat ->
    Smoother.run (Z.of_nat W) xs (Smoother.init (Z.of_nat W)) = Some (ys, st) ->
    length ys = length xs
    /\ firstn W ys = firstn W xs
    /\ Smoother.i st = Z.of_nat (Nat.min (length xs) W)
    /\ Smoother.buf st = ring_after W xs
    /\ length (Smoother.buf st) = W.
Proof.
  intros W xs ys st W1 R. unfold ring_after.
  destruct (Nat.leb_spec (length xs) W) as [Le | Gt].
  - rewrite init_as_fill in R. rewrite run_fill in R by (cbn [length]; lia).
    apply Some_inj in R. apply pair_equal_spec in R. destruct R as [<- <-].
    cbn [Smoother.i Smoother.buf app].
    split; [reflexivity |]. split; [reflexivity |].
    split; [f_equal; lia |]. split; [reflexivity |].
    rewrite length_app, repeat_length. lia.
  - rewrite <- (firstn_skipn W xs) in R. rewrite smoother_run_split in R.
    assert (LF : length (firstn W xs) = W) by (rewrite length_firstn; lia).
    rewrite init_as_fill in R. rewrite run_fill in R by (cbn [length]; lia).
    cbn [bind app] in R. rewrite LF, Nat.sub_diag in R. cbn [repeat] in R.
    rewrite app_nil_r in R.
    destruct (Smoother.run _ (skipn W xs) _) as [[o2 st2] |] eqn:R2;
      cbn [bind] in R; [| discriminate].
    apply Some_inj in R. apply pair_equal_spec in R. destruct R as [<- <-].
    destruct (run_steady_ring W (skipn W xs) (firstn W xs) o2 st2 LF W1 R2)
      as [L2 S2].
    rewrite firstn_skipn in S2. rewrite length_skipn in S2.
    split; [rewrite length_app, L2, LF, length_skipn; lia |].
    split; [rewrite firstn_app, LF, Nat.sub_diag, firstn_O, app_nil_r;
            rewrite <- LF at 1; apply firstn_all |].
    rewrite S2. cbn [Smoother.i Smoother.buf].
    split; [f_equal; lia |]. split; [reflexivity |].
    rewrite length_skipn. lia.
Qed.

Lemma X2_smoother_ring_witness :
  exists st,
    Smoother.run 3 (map i2d [1; 2; 3; 4]) (Smoother.init 3)
    = Some (map i2d [1; 2; 3; 3], st)
    /\ Smoother.buf st = map i2d [2; 3; 4].
Proof.
  eexists. split; [vm_compute; reflexivity |].
  assert (W1 : (1 <= 3)%nat) by lia.
  assert (R : Smoother.run (Z.of_nat 3) (map i2d [1; 2; 3; 4])
                (Smoother.init (Z.of_nat 3))
              = Some (map i2d [1; 2; 3; 3],
                      {| Smoother.i := 3; Smoother.buf := map i2d [2; 3; 4] |}))
    by (vm_compute; reflexivity).
  exact (proj1 (proj2 (proj2 (proj2
           (X2_smoother_ring 3 _ _ _ W1 R))))).
Defined.

(** The summing loop over samples that are all below one in size: every
    partial sum, cut to [int], is 0. *)
Lemma accumulate_below_one (l : list double) :
  Forall below_one l ->
  for_up_opt (length l) 0 (Smoother.accumulate l) 0 = Some 0.
Proof.
  induction l as [| x l IH]; intros F; [reflexivity |].
  inversion_clear F as [| ? ? Hx Hl].
  cbn [length for_up_opt]. unfold Smoother.accumulate at 1.
  change (rd 0%Q (x :: l) 0) with x.
  assert (E : ((i2d 0 + x)%D == x)%Q).
  { rewrite dadd_Qeq. unfold i2d. apply Qplus_0_l. }
  rewrite (d2i_Qeq _ _ E). unfold d2i. rewrite (trunc_below_one x Hx).
  cbn [in_int bind]. change (in_int 0) with true. cbn [bind].
  rewrite (accumulate_cons x l (length l) 0 0) by lia.
  apply IH. exact Hl.
Qed.

(** X3.  On a full ring, a call of a smoother whose window, the new
    sample included, holds only samples strictly between -1 and 1 returns
    0: the sum is kept in an [int], and every addition cuts it back to 0.
    The ring moves on by one sample as usual. *)
Theorem X3_smoother_flattens_small :
  forall (W : nat) (a x : double) (l : list double),
    S (length l) = W ->
    Forall below_one (l ++ [x]) ->
    exists y,
      Smoother.SmoothingFilter (Z.of_nat W) x
        {| Smoother.i := Z.of_nat W; Smoother.buf := a :: l |}
      = Some (y, {| Smoother.i := Z.of_nat W; Smoother.buf := l ++ [x] |})
      /\ (y == 0)%Q.
Proof.
  intros W a x l HW F. rewrite (smooth_steady_any W a x l HW).
  assert (L : length (l ++ [x]) = W) by (rewrite length_app; cbn [length]; lia).
  replace (for_up_opt W 0 (Smoother.accumulate (l ++ [x])) 0)
    with (for_up_opt (length (l ++ [x])) 0 (Smoother.accumulate (l ++ [x])) 0)
    by (rewrite L; reflexivity).
  rewrite (accumulate_below_one _ F). cbn [bind].
  eexists. split; [reflexivity |].
  rewrite dquo_Qeq, dmul_Qeq. unfold i2d. unfold Qdiv.
  rewrite !Qmult_0_l. reflexivity.
Qed.

Lemma X3_smoother_flattens_small_witness :
  exists y,
    Smoother.SmoothingFilter 3 (3 # 4)%Q
      {| Smoother.i := 3; Smoother.buf := [5; 1 # 2; - (1 # 2)]%Q |}
    = Some (y, {| Smoother.i := 3;
                  Smoother.buf := [1 # 2; - (1 # 2); 3 # 4]%Q |})
    /\ (y == 0)%Q.
Proof.
  assert (HW : S (length [1 # 2; - (1 # 2)]%Q) = 3%nat) by reflexivity.
  assert (F : Forall below_one ([1 # 2; - (1 # 2)] ++ [3 # 4])%Q).
  { repeat constructor; vm_compute; reflexivity. }
  exact (X3_smoother_flattens_small 3 5%Q (3 # 4)%Q [1 # 2; - (1 # 2)]%Q HW F).
Defined.

(** ** The ECG channel *)

(** The rate computed from a distance that is a non-negative integer. *)
Lemma calRate_u32 (d rate : Z) :
  0 <= d -> ECG.calRate (i2d d) = Some rate -> 0 <= rate <= 60000.
Proof.
  intros Hd. unfold ECG.calRate. destruct (Z.eq_dec d 0) as [-> | N].
  - rewrite rate_of_zero_distance by reflexivity. discriminate.
  - rewrite (rate_of_distance (i2d d) d) by (reflexivity || lia).
    intros H. apply Some_inj in H. subst rate. apply quot_rate_bounds. lia.
Qed.

Lemma ECG_front_ok (inp : Z) (s s1 : ECG.state) :
  ECG_ok s -> ECG.front inp s = Some s1 ->
  ECG_ok s1
  /\ ECG.ECG_Wave_index s1 = (ECG.ECG_Wave_index s + 1) mod ECG.HR_WAVE_LEN.
Proof.
  intros (Hi & Hl & H1 & H2 & H3 & Hs & Hp & Hc & Hr) H.
  unfold ECG.front in H.
  destruct (ECG.IIRNotch _ _) as [o1 nw] eqn:E1.
  destruct (ECG.IIRHighpass _ _) as [o2 hw] eqn:E2.
  destruct (ECG.IIRLowpass _ _) as [o3 lw] eqn:E3.
  destruct (ECG.SmoothingFilter _ _) as [[o4 sm] |] eqn:E4; cbn [bind] in H;
    [| discriminate].
  apply (f_equal snd) in E1, E2, E3. cbn [snd] in E1, E2, E3.
  assert (L1 : length nw = 3%nat) by (rewrite <- E1; unfold ECG.IIRNotch; rewrite IIR_length; exact H1).
  assert (L2 : length hw = 3%nat) by (rewrite <- E2; unfold ECG.IIRHighpass; rewrite IIR_length; exact H2).
  assert (L3 : length lw = 3%nat) by (rewrite <- E3; unfold ECG.IIRLowpass; rewrite IIR_length; exact H3).
  destruct (smoother_keeps_ok _ _ _ _ _ Hs E4) as [[Hs1 Hs2] _].
  clear E1 E2 E3 E4.
  apply Some_inj in H. subst s1. unfold ECG_ok.
  cbn [ECG.ECG_Wave_index ECG.arr_ECG_Wave ECG.IIRNotch_win ECG.IIRHighpass_win
       ECG.IIRLowpass_win ECG.smooth ECG.lastPeak_index ECG.currentPeak_index
       ECG.heartRate].
  rewrite length_wr. unfold ECG.HR_WAVE_LEN in *.
  destruct (Z.geb_spec (ECG.ECG_Wave_index s + 1) 300) as [G | G].
  - repeat split; try assumption; try lia.
    replace (ECG.ECG_Wave_index s + 1) with 300 by lia. reflexivity.
  - repeat split; try assumption; try lia.
    rewrite Z.mod_small by lia. reflexivity.
Qed.

Lemma ECG_detect_ok (now : Z) (s s' : ECG.state) :
  ECG_ok s -> ECG.detect now s = Some s' ->
  ECG_ok s' /\ ECG.ECG_Wave_index s' = ECG.ECG_Wave_index s.
Proof.
  intros (Hi & Hl & H1 & H2 & H3 & [Hs1 Hs2] & Hp & Hc & Hr) H.
  unfold ECG.detect in H. destruct (ECG.peak_detected s).
  - destruct (ECG.calRate _) as [rate |] eqn:R; cbn [bind] in H; [| discriminate].
    apply calRate_u32 in R; [| apply to_u32_range].
    apply Some_inj in H. subst s'. unfold ECG_ok.
    cbn [ECG.ECG_Wave_index ECG.arr_ECG_Wave ECG.IIRNotch_win ECG.IIRHighpass_win
         ECG.IIRLowpass_win ECG.smooth ECG.lastPeak_index ECG.currentPeak_index
         ECG.heartRate].
    pose proof (to_u32_range now) as U.
    repeat split; try assumption; lia.
  - apply Some_inj in H. subst s'. split; [| reflexivity].
    unfold ECG_ok. repeat split; try assumption; lia.
Qed.

Lemma ECGTask_ok (inp now : Z) (s s' : ECG.state) :
  ECG_ok s -> ECG.ECGTask inp now s = Some s' ->
  ECG_ok s'
  /\ ECG.ECG_Wave_index s' = (ECG.ECG_Wave_index s + 1) mod ECG.HR_WAVE_LEN.
Proof.
  intros Ok T. unfold ECG.ECGTask in T.
  destruct (ECG.front inp s) as [s1 |] eqn:F; cbn [bind] in T; [| discriminate].
  destruct (ECG_front_ok _ _ _ Ok F) as [Ok1 I1].
  destruct (ECG_detect_ok _ _ _ Ok1 T) as [Ok2 I2].
  split; [exact Ok2 | rewrite I2; exact I1].
Qed.

Lemma ECG_boot_ok : ECG_ok ECG.boot.
Proof.
  unfold ECG_ok, smoother_ok. cbn. repeat split; try reflexivity; try lia;
    discriminate.
Qed.

Lemma ECG_init_ok (s : ECG.state) : ECG_ok s -> ECG_ok (fst (ECG.InitECG s)).
Proof.
  intros (Hi & Hl & H1 & H2 & H3 & [Hs1 Hs2] & Hp & Hc & Hr).
  unfold ECG_ok. cbn. repeat split; try reflexivity; try lia; try discriminate;
    assumption.
Qed.

Lemma ECG_reachable_ok (e : ECG.state) : ECG.reachable e -> ECG_ok e.
Proof.
  intros R. induction R as [| s R IH | s inp now s' R IH T].
  - exact ECG_boot_ok.
  - apply ECG_init_ok. exact IH.
  - exact (proj1 (ECGTask_ok inp now s s' IH T)).
Qed.

(** X4.  In every state the ECG module reaches from its static
    initialisers by [InitECG] and [ECGTask]: the write index lies in
    [0,299] and the window has 300 slots, so the write and the two reads of
    the detection stay inside it; the three delay lines have 3 slots; the
    fill counter of the smoother is at most 3 and its ring has 3 slots;
    the two peak times are equal and a value of the 32-bit timer; the heart
    rate lies in [0,60000]. *)
Theorem X4_ecg_state_bounds :
  forall e : ECG.state, ECG.reachable e -> ECG_ok e.
Proof. exact ECG_reachable_ok. Qed.

Lemma X4_ecg_state_bounds_witness : ECG_ok ECG_one_call.
Proof.
  apply X4_ecg_state_bounds.
  apply (ECG.reach_task ECG.boot 0 5); [apply ECG.reach_boot |].
  vm_compute. reflexivity.
Defined.

Lemma ECG_run_ok (cs : list (Z * Z)) :
  forall (e e' : ECG.state),
    ECG_ok e -> ECG.run cs e = Some e' ->
    ECG_ok e'
    /\ ECG.ECG_Wave_index e'
       = (ECG.ECG_Wave_index e + Z.of_nat (length cs)) mod ECG.HR_WAVE_LEN.
Proof.
  induction cs as [| [inp now] cs IH]; intros e e' Ok R.
  - cbn in R. apply Some_inj in R. subst e'. split; [exact Ok |].
    cbn [length]. rewrite Z.add_0_r. symmetry. apply Z.mod_small. apply Ok.
  - cbn [ECG.run] in R.
    destruct (ECG.ECGTask inp now e) as [e1 |] eqn:T; cbn [bind] in R;
      [| discriminate].
    destruct (ECGTask_ok _ _ _ _ Ok T) as [Ok1 I1].
    destruct (IH e1 e' Ok1 R) as [Ok2 I2].
    split; [exact Ok2 |]. rewrite I2, I1. cbn [length].
    rewrite Zplus_mod_idemp_l. f_equal. lia.
Qed.

(** X5.  The distance between two ECG peaks is taken in [u32]
    arithmetic: when a call of [ECGTask] detects a peak, it stores the rate
    60000 divided by [(now - last) mod 2^32], truncated, and the time of
    the call as the time of the last peak; a wrap of the timer between two
    peaks does not disturb the rate.  When that distance is 0 the call has
    no defined result. *)
Theorem X5_ecg_timer_wrap :
  forall (inp now : Z) (e e1 : ECG.state),
    ECG.front inp e = Some e1 -> ECG.peak_detected e1 = true ->
    0 <= ECG.lastPeak_index e < 4294967296 ->
    let d := (to_u32 now - ECG.lastPeak_index e) mod 4294967296 in
    (d <> 0 ->
       exists e', ECG.ECGTask inp now e = Some e'
                  /\ ECG.heartRate e' = Z.quot 60000 d
                  /\ ECG.lastPeak_index e' = to_u32 now
                  /\ ECG.currentPeak_index e' = to_u32 now)
    /\ (d = 0 -> ECG.ECGTask inp now e = None).
Proof.
  intros inp now e e1 F P L d.
  destruct (ECG_front_keeps _ _ _ F) as [L1 _].
  unfold ECG.ECGTask. rewrite F. cbn [bind].
  unfold ECG.detect. rewrite P, L1. unfold ECG.calRate.
  change (to_u32 (to_u32 now - ECG.lastPeak_index e)) with d.
  assert (Hd : 0 <= d < 4294967296) by (apply Z.mod_pos_bound; lia).
  split.
  - intros Hn.
    rewrite (rate_of_distance (i2d d) d) by (reflexivity || lia).
    cbn [bind]. eexists. repeat split.
  - intros ->. rewrite rate_of_zero_distance by reflexivity. reflexivity.
Qed.

Lemma X5_ecg_timer_wrap_witness :
  exists e', ECG.ECGTask 0 (4294967296 + 700) ECG_late = Some e'
             /\ ECG.heartRate e' = 75
             /\ ECG.lastPeak_index e' = 700
             /\ ECG.currentPeak_index e' = 700.
Proof.
  assert (F : ECG.front 0 ECG_late = Some ECG_late_1) by (vm_compute; reflexivity).
  assert (P : ECG.peak_detected ECG_late_1 = true) by (vm_compute; reflexivity).
  assert (L : 0 <= ECG.lastPeak_index ECG_late < 4294967296) by (simpl; lia).
  assert (D : (to_u32 (4294967296 + 700) - ECG.lastPeak_index ECG_late)
                mod 4294967296 <> 0) by (vm_compute; discriminate).
  destruct (proj1 (X5_ecg_timer_wrap 0 (4294967296 + 700) ECG_late ECG_late_1
                     F P L) D) as [e' [A [B [C E]]]].
  exists e'. repeat split; [exact A | exact B | exact C | exact E].
Defined.

Lemma smoother_rest (i : Z) :
  0 <= i <= 3 ->
  exists i', 0 <= i' <= 3
    /\ ECG.SmoothingFilter 0%Q {| Smoother.i := i; Smoother.buf := [0; 0; 0]%Q |}
       = Some (0%Q, {| Smoother.i := i'; Smoother.buf := [0; 0; 0]%Q |}).
Proof.
  intros H.
  assert (C : i = 0 \/ i = 1 \/ i = 2 \/ i = 3) by lia.
  destruct C as [-> | [-> | [-> | ->]]].
  - exists 1. split; [lia | reflexivity].
  - exists 2. split; [lia | reflexivity].
  - exists 3. split; [lia | reflexivity].
  - exists 3. split; [lia | reflexivity].
Qed.

(** The first part of [ECGTask] on a channel at rest, with a sample of 0,
    away from the wrap: nothing moves but the index. *)
Lemma ECG_front_rest (e : ECG.state) :
  ECG_at_rest e -> 0 <= ECG.ECG_Wave_index e ->
  ECG.ECG_Wave_index e + 1 < ECG.HR_WAVE_LEN ->
  exists e1,
    ECG.front 0 e = Some e1 /\ ECG_at_rest e1
    /\ ECG.ECG_Wave_index e1 = ECG.ECG_Wave_index e + 1
    /\ ECG.lastPeak_index e1 = ECG.lastPeak_index e
    /\ ECG.heartRate e1 = ECG.heartRate e.
Proof.
  intros (N & H & L & B & I & A & T) I0 I1.
  destruct e as [nw lw hw [si sb] arr idx thr last cur hr].
  cbn [ECG.IIRNotch_win ECG.IIRHighpass_win ECG.IIRLowpass_win ECG.smooth
       ECG.arr_ECG_Wave ECG.peakThreshold ECG.ECG_Wave_index Smoother.buf
       Smoother.i ECG.lastPeak_index ECG.heartRate] in *.
  subst nw hw lw sb arr thr.
  destruct (smoother_rest si I) as (i' & Hi' & S).
  unfold ECG.front.
  cbn [ECG.IIRNotch_win ECG.IIRHighpass_win ECG.IIRLowpass_win ECG.smooth
       ECG.arr_ECG_Wave ECG.peakThreshold ECG.ECG_Wave_index
       ECG.lastPeak_index ECG.currentPeak_index ECG.heartRate].
  change (ECG.IIRNotch (i2d 0) [0; 0; 0]%Q) with (0%Q, [0; 0; 0]%Q).
  cbn beta iota.
  change (ECG.IIRHighpass 0%Q [0; 0; 0]%Q) with (0%Q, [0; 0; 0]%Q).
  cbn beta iota.
  change (ECG.IIRLowpass 0%Q [0; 0; 0]%Q) with (0%Q, [0; 0; 0]%Q).
  cbn beta iota.
  rewrite S. cbn [bind]. rewrite wr_repeat.
  rewrite Z.geb_leb, (proj2 (Z.leb_gt _ _) I1).
  eexists. split; [reflexivity |].
  unfold ECG_at_rest.
  cbn [ECG.IIRNotch_win ECG.IIRHighpass_win ECG.IIRLowpass_win ECG.smooth
       ECG.arr_ECG_Wave ECG.peakThreshold ECG.ECG_Wave_index Smoother.buf
       Smoother.i ECG.lastPeak_index ECG.heartRate].
  repeat split; try reflexivity; lia.
Qed.

Lemma ECG_rest_peak (e : ECG.state) :
  ECG_at_rest e ->
  1 < ECG.ECG_Wave_index e < ECG.HR_WAVE_LEN - 1 ->
  ECG.peak_detected e = true.
Proof.
  intros (_ & _ & _ & _ & _ & A & T) I. unfold ECG.peak_detected.
  rewrite A, T, !rd_repeat.
  rewrite (proj2 (Z.gtb_lt _ _)) by lia.
  rewrite (proj2 (Z.ltb_lt _ _)) by lia.
  reflexivity.
Qed.

(** X6.  An ECG channel at rest that is fed the sample 0 stays at rest
    and takes the flat line for a peak: at every write index from 1 to 297
    the call stores the time of the call and the rate 60000 divided by the
    distance to the last peak (mod 2^32), both tests of the detection
    being met by equal values.  With a distance of 0, two calls within the
    same millisecond, the call has no defined result. *)
Theorem X6_flat_line_false_peaks :
  forall (e : ECG.state) (now : Z),
    ECG_at_rest e ->
    1 <= ECG.ECG_Wave_index e < ECG.HR_WAVE_LEN - 2 ->
    0 <= ECG.lastPeak_index e < 4294967296 ->
    let d := (to_u32 now - ECG.lastPeak_index e) mod 4294967296 in
    (d <> 0 ->
       exists e',
         ECG.ECGTask 0 now e = Some e'
         /\ ECG_at_rest e'
         /\ ECG.ECG_Wave_index e' = ECG.ECG_Wave_index e + 1
         /\ ECG.lastPeak_index e' = to_u32 now
         /\ ECG.heartRate e' = Z.quot 60000 d)
    /\ (d = 0 -> ECG.ECGTask 0 now e = None).
Proof.
  intros e now R I L d. unfold ECG.HR_WAVE_LEN in I.
  destruct (ECG_front_rest e R) as (e1 & F & R1 & I1 & L1 & H1);
    [lia | unfold ECG.HR_WAVE_LEN; lia |].
  assert (P : ECG.peak_detected e1 = true).
  { apply ECG_rest_peak; [exact R1 |]. unfold ECG.HR_WAVE_LEN. lia. }
  unfold ECG.ECGTask. rewrite F. cbn [bind].
  unfold ECG.detect. rewrite P, L1. unfold ECG.calRate.
  change (to_u32 (to_u32 now - ECG.lastPeak_index e)) with d.
  assert (Hd : 0 <= d < 4294967296) by (apply Z.mod_pos_bound; lia).
  split.
  - intros Hn.
    rewrite (rate_of_distance (i2d d) d) by (reflexivity || lia).
    cbn [bind]. eexists. split; [reflexivity |].
    destruct R1 as (A1 & A2 & A3 & A4 & A5 & A6 & A7).
    unfold ECG_at_rest.
    cbn [ECG.IIRNotch_win ECG.IIRHighpass_win ECG.IIRLowpass_win ECG.smooth
         ECG.arr_ECG_Wave ECG.peakThreshold ECG.ECG_Wave_index
         ECG.lastPeak_index ECG.heartRate].
    split; [| split; [exact I1 | split; reflexivity]].
    split; [exact A1 |]. split; [exact A2 |]. split; [exact A3 |].
    split; [exact A4 |]. split; [exact A5 |]. split; [exact A6 | exact A7].
  - intros ->. rewrite rate_of_zero_distance by reflexivity. reflexivity.
Qed.

Lemma X6_flat_line_false_peaks_witness :
  exists e',
    ECG.ECGTask 0 1002 (ECG_rest 1 1000) = Some e'
    /\ ECG_at_rest e'
    /\ ECG.ECG_Wave_index e' = 2
    /\ ECG.lastPeak_index e' = 1002
    /\ ECG.heartRate e' = 30000.
Proof.
  assert (R : ECG_at_rest (ECG_rest 1 1000)).
  { unfold ECG_at_rest. cbn. repeat split; try reflexivity; lia. }
  assert (I : 1 <= ECG.ECG_Wave_index (ECG_rest 1 1000) < ECG.HR_WAVE_LEN - 2)
    by (vm_compute; split; [discriminate | reflexivity]).
  assert (L : 0 <= ECG.lastPeak_index (ECG_rest 1 1000) < 4294967296)
    by (vm_compute; split; [discriminate | reflexivity]).
  assert (D : (to_u32 1002 - ECG.lastPeak_index (ECG_rest 1 1000))
                mod 4294967296 <> 0) by (vm_compute; discriminate).
  exact (proj1 (X6_flat_line_false_peaks (ECG_rest 1 1000) 1002 R I L) D).
Defined.

Lemma ECG_scan_ordered (w : list double) (L : Z) (M m : double) :
  2 <= L -> ECG.scan w L = (M, m) -> (m <= M)%Q.
Proof.
  intros HL H. apply ECG_scan_spec in H; [| lia].
  destruct H as [[_ [_ U]] [_ [_ Lo]]].
  apply Qle_trans with (rd 0%Q w 1); [apply Lo | apply U]; lia.
Qed.

Lemma Update_Threshold_range (w : list double) (L : Z) :
  2 <= L ->
  exists M m,
    seeded_max 0%Q w 1 L M /\ seeded_min 4095%Q w 1 L m
    /\ (m <= M)%Q
    /\ ECG.Update_Threshold w L = (M - (M - m) / 4%Q)%D
    /\ RESP.Update_Threshold w L = ((M - m)%D, (M - (M - m) / 4%Q)%D).
Proof.
  intros HL. unfold ECG.Update_Threshold, RESP.Update_Threshold, RESP.scan.
  destruct (ECG.scan w L) as [M m] eqn:Sc.
  assert (O : (m <= M)%Q) by (apply (ECG_scan_ordered w L M m HL Sc)).
  apply ECG_scan_spec in Sc; [| lia].
  exists M, m. destruct Sc as [S1 S2].
  split; [exact S1 |]. split; [exact S2 |]. split; [exact O |].
  split; reflexivity.
Qed.

(** X7.  After a call of [ECGTask] that wraps the window, the threshold
    lies between the minimum and the maximum of the scan, which are the
    smallest of 4095 and the samples 1 ... 299 and the largest of 0 and
    those samples; the maximum is at least 0 and the minimum at most
    4095. *)
Theorem X7_ecg_threshold_within_window :
  forall (inp now : Z) (e e' : ECG.state),
    ECG.ECGTask inp now e = Some e' ->
    ECG.ECG_Wave_index e + 1 >= ECG.HR_WAVE_LEN ->
    exists M m,
      seeded_max 0%Q (ECG.arr_ECG_Wave e') 1 ECG.HR_WAVE_LEN M
      /\ seeded_min 4095%Q (ECG.arr_ECG_Wave e') 1 ECG.HR_WAVE_LEN m
      /\ (m <= ECG.peakThreshold e')%Q
      /\ (ECG.peakThreshold e' <= M)%Q
      /\ (0 <= M)%Q /\ (m <= 4095)%Q.
Proof.
  intros inp now e e' T I. unfold ECG.ECGTask in T.
  destruct (ECG.front inp e) as [e1 |] eqn:F; cbn [bind] in T; [| discriminate].
  destruct (ECG_front_threshold _ _ _ F) as [W _].
  destruct (W I) as [Th _]. clear W.
  destruct (ECG_detect_keeps _ _ _ T) as [K1 [K2 _]].
  rewrite K1, K2. clear T K1 K2.
  assert (HL : 2 <= ECG.HR_WAVE_LEN) by (unfold ECG.HR_WAVE_LEN; lia).
  destruct (Update_Threshold_range (ECG.arr_ECG_Wave e1) ECG.HR_WAVE_LEN HL)
    as (M & m & S1 & S2 & O & U & _).
  rewrite U in Th. rewrite Th.
  destruct (quarter_point M m O) as [Q1 [Q2 _]].
  exists M, m.
  split; [exact S1 |]. split; [exact S2 |].
  split; [rewrite threshold_Qeq; exact Q1 |].
  split; [rewrite threshold_Qeq; exact Q2 |].
  split; [apply S1 | apply S2].
Qed.

Lemma X7_ecg_threshold_within_window_witness :
  exists M m,
    seeded_max 0%Q (ECG.arr_ECG_Wave ECG_wrapped) 1 ECG.HR_WAVE_LEN M
    /\ seeded_min 4095%Q (ECG.arr_ECG_Wave ECG_wrapped) 1 ECG.HR_WAVE_LEN m
    /\ (m <= ECG.peakThreshold ECG_wrapped)%Q
    /\ (ECG.peakThreshold ECG_wrapped <= M)%Q
    /\ (0 <= M)%Q /\ (m <= 4095)%Q.
Proof.
  assert (T : ECG.ECGTask 0 0 ECG_wrapping = Some ECG_wrapped)
    by (vm_compute; reflexivity).
  assert (I : ECG.ECG_Wave_index ECG_wrapping + 1 >= ECG.HR_WAVE_LEN)
    by (vm_compute; discriminate).
  exact (X7_ecg_threshold_within_window 0 0 ECG_wrapping ECG_wrapped T I).
Defined.

(** X8.  [OLED_ECG] drives the baseline output ECG_ZERO (PB1) from the
    lead-off input: when the input reads 1 it sets the pin and shows
    [Noob], otherwise it resets the pin and shows [Good]; the other level
    is not written in that call. *)
Theorem X8_ecg_zero_follows_lead :
  forall (lead_off : Z) (e : ECG.state),
    let ev := snd (ECG.OLED_ECG lead_off e) in
    (lead_off = 1 ->
       In (GPIO_WriteBit "GPIOB" 1 true) ev
       /\ ~ In (GPIO_WriteBit "GPIOB" 1 false) ev
       /\ In (OLEDShowString 88 16 "Noob") ev)
    /\ (lead_off <> 1 ->
          In (GPIO_WriteBit "GPIOB" 1 false) ev
          /\ ~ In (GPIO_WriteBit "GPIOB" 1 true) ev
          /\ In (OLEDShowString 88 16 "Good") ev).
Proof.
  intros l e ev. subst ev. unfold ECG.OLED_ECG. split.
  - intros ->. simpl. repeat split; auto 10.
    intros H; repeat (destruct H as [H | H]; [discriminate H |]); exact H.
  - intros Hl. apply Z.eqb_neq in Hl. rewrite Hl. repeat split.
    + simpl. auto 10.
    + destruct ((ECG.heartRate e >=? 20) && (ECG.heartRate e <=? 250));
        simpl; intros H; repeat (destruct H as [H | H]; [discriminate H |]);
        exact H.
    + simpl. auto 10.
Qed.

(** ** The RESP channel *)

Lemma RESP_front_ok (inp : Z) (s s1 : RESP.state) :
  RESP_ok s -> RESP.front inp s = Some s1 ->
  RESP_ok s1
  /\ RESP.BR_Wave_index s1 = (RESP.BR_Wave_index s + 1) mod RESP.BR_WAVE_LEN.
Proof.
  intros (Hi & Hl & H1 & H2 & Hs & Hp & Hc & Hr) H.
  unfold RESP.front in H.
  destruct (RESP.IIRNotch _ _) as [o1 nw] eqn:E1.
  destruct (RESP.IIRLowpass _ _) as [o2 lw] eqn:E2.
  destruct (RESP.SmoothingFilter _ _) as [[o3 sm] |] eqn:E3; cbn [bind] in H;
    [| discriminate].
  apply (f_equal snd) in E1, E2. cbn [snd] in E1, E2.
  assert (L1 : length nw = 3%nat)
    by (rewrite <- E1; unfold RESP.IIRNotch; rewrite IIR_length; exact H1).
  assert (L2 : length lw = 3%nat)
    by (rewrite <- E2; unfold RESP.IIRLowpass; rewrite IIR_length; exact H2).
  destruct (smoother_keeps_ok _ _ _ _ _ Hs E3) as [Hs' _].
  clear E1 E2 E3.
  destruct (if _ >=? _ then _ else _) as [pp thr].
  apply Some_inj in H. subst s1. unfold RESP_ok.
  cbn [RESP.BR_Wave_index RESP.arr_BR_Wave RESP.IIRNotch_win
       RESP.IIRLowpass_win RESP.smooth RESP.lastPeak_index
       RESP.currentPeak_index RESP.breathRate].
  rewrite length_wr. unfold RESP.BR_WAVE_LEN in *.
  destruct (Z.geb_spec (RESP.BR_Wave_index s + 1) 1000) as [G | G].
  - split; [| replace (RESP.BR_Wave_index s + 1) with 1000 by lia; reflexivity].
    split; [lia |]. split; [exact Hl |]. split; [exact L1 |].
    split; [exact L2 |]. split; [exact Hs' |]. split; [exact Hp |].
    split; [exact Hc | exact Hr].
  - split; [| rewrite Z.mod_small by lia; reflexivity].
    split; [lia |]. split; [exact Hl |]. split; [exact L1 |].
    split; [exact L2 |]. split; [exact Hs' |]. split; [exact Hp |].
    split; [exact Hc | exact Hr].
Qed.

Lemma RESP_detect_ok (now : Z) (s s' : RESP.state) :
  RESP_ok s -> RESP.detect now s = Some s' ->
  RESP_ok s' /\ RESP.BR_Wave_index s' = RESP.BR_Wave_index s.
Proof.
  intros (Hi & Hl & H1 & H2 & Hs & Hp & Hc & Hr) H.
  unfold RESP.detect in H. destruct (RESP.peak_detected s).
  - destruct Hp as [t [Ht Hp]]. rewrite Hp in H.
    pose proof (to_u32_range now) as U.
    unfold RESP.calRate in H.
    destruct (Z.eq_dec (to_u32 now - t) 0) as [Z0 | NZ].
    + rewrite rate_of_zero_distance in H; [discriminate H |].
      rewrite i2d_sub, Z0. reflexivity.
    + destruct (rate_of_signed_distance _ _ (i2d_sub (to_u32 now) t) NZ)
        as [R B].
      rewrite R in H. cbn [bind] in H.
      apply Some_inj in H. subst s'. unfold RESP_ok.
      cbn [RESP.BR_Wave_index RESP.arr_BR_Wave RESP.IIRNotch_win
           RESP.IIRLowpass_win RESP.smooth RESP.lastPeak_index
           RESP.currentPeak_index RESP.breathRate].
      split; [| reflexivity].
      split; [exact Hi |]. split; [exact Hl |]. split; [exact H1 |].
      split; [exact H2 |]. split; [exact Hs |].
      split; [exists (to_u32 now); split; [exact U | reflexivity] |].
      split; [reflexivity | exact B].
  - apply Some_inj in H. subst s'. split; [| reflexivity].
    unfold RESP_ok. auto 10.
Qed.

Lemma RESPTask_ok (inp now : Z) (s s' : RESP.state) :
  RESP_ok s -> RESP.RESPTask inp now s = Some s' ->
  RESP_ok s'
  /\ RESP.BR_Wave_index s' = (RESP.BR_Wave_index s + 1) mod RESP.BR_WAVE_LEN.
Proof.
  intros Ok T. unfold RESP.RESPTask in T.
  destruct (RESP.front inp s) as [s1 |] eqn:F; cbn [bind] in T; [| discriminate].
  destruct (RESP_front_ok _ _ _ Ok F) as [Ok1 I1].
  destruct (RESP_detect_ok _ _ _ Ok1 T) as [Ok2 I2].
  split; [exact Ok2 | rewrite I2; exact I1].
Qed.

Lemma RESP_boot_ok : RESP_ok RESP.boot.
Proof.
  unfold RESP_ok, smoother_ok. cbn. repeat split; try reflexivity; try lia;
    try discriminate.
  exists 0. split; [lia | reflexivity].
Qed.

Lemma RESP_init_ok (s : RESP.state) : RESP_ok s -> RESP_ok (RESP.InitRESP s).
Proof.
  intros (Hi & Hl & H1 & H2 & [Hs1 Hs2] & Hp & Hc & Hr).
  unfold RESP_ok. cbn. repeat split; try reflexivity; try lia; try discriminate;
    try assumption.
  exists 0. split; [lia | reflexivity].
Qed.

Lemma RESP_reachable_ok (r : RESP.state) : RESP.reachable r -> RESP_ok r.
Proof.
  intros R. induction R as [| s R IH | s inp now s' R IH T].
  - exact RESP_boot_ok.
  - apply RESP_init_ok. exact IH.
  - exact (proj1 (RESPTask_ok inp now s s' IH T)).
Qed.

(** X9.  In every state the RESP module reaches from its static
    initialisers by [InitRESP] and [RESPTask]: the write index lies in
    [0,999] and the window has 1000 slots; the two delay lines have 3
    slots; the fill counter of the smoother is at most 100 and its ring has
    100 slots; the time of the last peak, kept in a [double], is a value of
    the 32-bit timer and equal to the current one; the breath rate lies in
    [-60000,60000]. *)
Theorem X9_resp_state_bounds :
  forall r : RESP.state, RESP.reachable r -> RESP_ok r.
Proof. exact RESP_reachable_ok. Qed.

Lemma X9_resp_state_bounds_witness : RESP_ok RESP_one_call.
Proof.
  apply X9_resp_state_bounds.
  apply (RESP.reach_task (RESP.InitRESP RESP.boot) 0 10).
  - apply RESP.reach_init. apply RESP.reach_boot.
  - vm_compute. reflexivity.
Defined.

Lemma RESP_run_ok (cs : list (Z * Z)) :
  forall (r r' : RESP.state),
    RESP_ok r -> RESP.run cs r = Some r' ->
    RESP_ok r'
    /\ RESP.BR_Wave_index r'
       = (RESP.BR_Wave_index r + Z.of_nat (length cs)) mod RESP.BR_WAVE_LEN.
Proof.
  induction cs as [| [inp now] cs IH]; intros r r' Ok R.
  - cbn in R. apply Some_inj in R. subst r'. split; [exact Ok |].
    cbn [length]. rewrite Z.add_0_r. symmetry. apply Z.mod_small. apply Ok.
  - cbn [RESP.run] in R.
    destruct (RESP.RESPTask inp now r) as [r1 |] eqn:T; cbn [bind] in R;
      [| discriminate].
    destruct (RESPTask_ok _ _ _ _ Ok T) as [Ok1 I1].
    destruct (IH r1 r' Ok1 R) as [Ok2 I2].
    split; [exact Ok2 |]. rewrite I2, I1. cbn [length].
    rewrite Zplus_mod_idemp_l. f_equal. lia.
Qed.

Lemma RESP_front_amplitude (inp : Z) (s s1 : RESP.state) :
  RESP.front inp s = Some s1 ->
  (RESP.BR_Wave_index s + 1 >= RESP.BR_WAVE_LEN ->
     (RESP.s_peak2peak s1, RESP.peakThreshold s1)
     = RESP.Update_Threshold (RESP.arr_BR_Wave s1) RESP.BR_WAVE_LEN)
  /\ (RESP.BR_Wave_index s + 1 < RESP.BR_WAVE_LEN ->
        RESP.s_peak2peak s1 = RESP.s_peak2peak s).
Proof.
  unfold RESP.front. intros H. repeat split_pair.
  destruct (RESP.SmoothingFilter _ _) as [[o4 sm] |]; cbn [bind] in H;
    [| discriminate].
  destruct (Z.geb_spec (RESP.BR_Wave_index s + 1) RESP.BR_WAVE_LEN) as [G | G].
  - destruct (RESP.Update_Threshold _ _) as [pp thr] eqn:U.
    apply Some_inj in H. subst s1.
    cbn [RESP.peakThreshold RESP.arr_BR_Wave RESP.s_peak2peak].
    split; intros Hi; [| lia]. rewrite U. reflexivity.
  - apply Some_inj in H. subst s1.
    cbn [RESP.s_peak2peak].
    split; intros Hi; [lia |]. reflexivity.
Qed.

Lemma RESP_detect_amplitude (now : Z) (s s' : RESP.state) :
  RESP.detect now s = Some s' -> RESP.s_peak2peak s' = RESP.s_peak2peak s.
Proof.
  unfold RESP.detect. intros H. destruct (RESP.peak_detected s).
  - destruct (RESP.calRate _) as [rate |]; cbn [bind] in H; [| discriminate].
    apply Some_inj in H. subst s'. reflexivity.
  - apply Some_inj in H. subst s'. reflexivity.
Qed.

(** X10.  The amplitude that the lead check of RESP reads: a call of
    [RESPTask] that wraps the window sets [s_peak2peak] to the maximum
    minus the minimum of the scan (samples 1 ... 999, seeded with 0 and
    4095), which is never negative, and the threshold to a value between
    that minimum and that maximum; a call that does not wrap leaves
    [s_peak2peak] as it is. *)
Theorem X10_resp_amplitude :
  forall (inp now : Z) (r r' : RESP.state),
    RESP.RESPTask inp now r = Some r' ->
    (RESP.BR_Wave_index r + 1 >= RESP.BR_WAVE_LEN ->
       exists M m,
         seeded_max 0%Q (RESP.arr_BR_Wave r') 1 RESP.BR_WAVE_LEN M
         /\ seeded_min 4095%Q (RESP.arr_BR_Wave r') 1 RESP.BR_WAVE_LEN m
         /\ RESP.s_peak2peak r' = (M - m)%D
         /\ (0 <= RESP.s_peak2peak r')%Q
         /\ (m <= RESP.peakThreshold r')%Q
         /\ (RESP.peakThreshold r' <= M)%Q)
    /\ (RESP.BR_Wave_index r + 1 < RESP.BR_WAVE_LEN ->
          RESP.s_peak2peak r' = RESP.s_peak2peak r).
Proof.
  intros inp now r r' T. unfold RESP.RESPTask in T.
  destruct (RESP.front inp r) as [r1 |] eqn:F; cbn [bind] in T; [| discriminate].
  destruct (RESP_front_amplitude _ _ _ F) as [A1 A2].
  destruct (RESP_detect_keeps _ _ _ T) as [K1 [K2 _]].
  rewrite (RESP_detect_amplitude _ _ _ T), K1, K2. clear T K1 K2.
  split.
  - intros I. specialize (A1 I). clear A2.
    assert (HL : 2 <= RESP.BR_WAVE_LEN) by (unfold RESP.BR_WAVE_LEN; lia).
    destruct (Update_Threshold_range (RESP.arr_BR_Wave r1) RESP.BR_WAVE_LEN HL)
      as (M & m & S1 & S2 & O & _ & U).
    rewrite U in A1.
    apply pair_equal_spec in A1. destruct A1 as [P Th].
    exists M, m. rewrite P, Th.
    destruct (quarter_point M m O) as [Q1 [Q2 Q3]].
    split; [exact S1 |]. split; [exact S2 |]. split; [reflexivity |].
    split; [rewrite dsub_Qeq; exact Q3 |].
    split; rewrite threshold_Qeq; [exact Q1 | exact Q2].
  - intros I. apply A2. exact I.
Qed.

Lemma X10_resp_amplitude_witness :
  RESP.s_peak2peak RESP_one_call = RESP.s_peak2peak (RESP.InitRESP RESP.boot)
  /\ RESP.s_peak2peak RESP_wrapped = 8%Q
  /\ RESP.peakThreshold RESP_wrapped = 6%Q
  /\ exists M m,
       RESP.s_peak2peak RESP_wrapped = (M - m)%D
       /\ (m <= RESP.peakThreshold RESP_wrapped)%Q
       /\ (RESP.peakThreshold RESP_wrapped <= M)%Q.
Proof.
  assert (T : RESP.RESPTask 0 10 (RESP.InitRESP RESP.boot) = Some RESP_one_call)
    by (vm_compute; reflexivity).
  assert (T' : RESP.RESPTask 0 10 RESP_wrapping = Some RESP_wrapped)
    by (vm_compute; reflexivity).
  assert (I : RESP.BR_Wave_index RESP_wrapping + 1 >= RESP.BR_WAVE_LEN)
    by (vm_compute; discriminate).
  destruct (proj1 (X10_resp_amplitude 0 10 _ _ T') I)
    as (M & m & _ & _ & A & _ & Lo & Hi).
  split; [apply (proj2 (X10_resp_amplitude 0 10 _ _ T)); vm_compute; reflexivity |].
  split; [reflexivity |]. split; [reflexivity |].
  exists M, m. split; [exact A |]. split; [exact Lo | exact Hi].
Defined.

Lemma RESPTask_between_wraps (inp now : Z) (s s' : RESP.state) :
  RESP.RESPTask inp now s = Some s' ->
  RESP.BR_Wave_index s + 1 < RESP.BR_WAVE_LEN ->
  RESP.s_peak2peak s' = RESP.s_peak2peak s
  /\ RESP.BR_Wave_index s' = RESP.BR_Wave_index s + 1.
Proof.
  intros T I. unfold RESP.RESPTask in T.
  destruct (RESP.front inp s) as [s1 |] eqn:F; cbn [bind] in T; [| discriminate].
  destruct (RESP_front_amplitude _ _ _ F) as [_ A].
  destruct (RESP_front_threshold _ _ _ F) as [_ B].
  destruct (RESP_detect_keeps _ _ _ T) as [_ [_ K]].
  rewrite (RESP_detect_amplitude _ _ _ T), K.
  split; [apply A; exact I | apply B; exact I].
Qed.

Lemma RESP_run_first_window (cs : list (Z * Z)) :
  forall (s s' : RESP.state),
    RESP.run cs s = Some s' ->
    RESP.BR_Wave_index s + Z.of_nat (length cs) < RESP.BR_WAVE_LEN ->
    RESP.s_peak2peak s' = RESP.s_peak2peak s
    /\ RESP.BR_Wave_index s' = RESP.BR_Wave_index s + Z.of_nat (length cs).
Proof.
  induction cs as [| [inp now] cs IH]; intros s s' R I.
  - cbn in R. apply Some_inj in R. subst s'. cbn [length]. split; [reflexivity | lia].
  - cbn [RESP.run] in R.
    destruct (RESP.RESPTask inp now s) as [s1 |] eqn:T; cbn [bind] in R;
      [| discriminate].
    cbn [length] in I |- *.
    destruct (RESPTask_between_wraps _ _ _ _ T) as [A B]; [lia |].
    destruct (IH s1 s' R) as [A' B']; [lia |].
    split; [rewrite A'; exact A | lia].
Qed.

(** X11.  After [InitRESP], as long as fewer than 1000 calls of
    [RESPTask] have followed, the amplitude [s_peak2peak] is still 0 and
    [OLED_RESP] reports the lead as off: it shows [Noob] and the error
    marker and no number, whatever the samples were. *)
Theorem X11_resp_first_window_err :
  forall (s r' : RESP.state) (cs : list (Z * Z)),
    (length cs < 1000)%nat ->
    RESP.run cs (RESP.InitRESP s) = Some r' ->
    let ev := snd (RESP.OLED_RESP r') in
    RESP.s_peak2peak r' = 0%Q
    /\ readings ev = []
    /\ error_marker ev = true
    /\ In (OLEDShowString 88 48 "Noob") ev.
Proof.
  intros s r' cs L R ev. subst ev.
  destruct (RESP_run_first_window cs _ _ R) as [A _].
  { cbn [RESP.InitRESP RESP.BR_Wave_index]. unfold RESP.BR_WAVE_LEN. lia. }
  cbn [RESP.InitRESP RESP.s_peak2peak] in A.
  unfold RESP.OLED_RESP. rewrite A. cbn. auto 10.
Qed.

Lemma X11_resp_first_window_err_witness :
  RESP.s_peak2peak RESP_one_call = 0%Q
  /\ readings (snd (RESP.OLED_RESP RESP_one_call)) = []
  /\ error_marker (snd (RESP.OLED_RESP RESP_one_call)) = true
  /\ In (OLEDShowString 88 48 "Noob") (snd (RESP.OLED_RESP RESP_one_call)).
Proof.
  assert (L : (length [(0, 10)] < 1000)%nat) by (cbn [length]; lia).
  assert (R : RESP.run [(0, 10)] (RESP.InitRESP RESP.boot) = Some RESP_one_call)
    by (vm_compute; reflexivity).
  exact (X11_resp_first_window_err RESP.boot RESP_one_call [(0, 10)] L R).
Defined.

(** X12.  [OLED_RESP] tests the amplitude before the rate: with
    [s_peak2peak] below 600 or above 3000 it shows [Noob] and the error
    marker and puts out no number, whatever the stored breath rate is;
    with the amplitude inside [600,3000] it shows [Good] and not [Noob]. *)
Theorem X12_resp_lead_check_first :
  forall (r : RESP.state),
    let ev := snd (RESP.OLED_RESP r) in
    ((RESP.s_peak2peak r < 600)%Q \/ (3000 < RESP.s_peak2peak r)%Q ->
       readings ev = []
       /\ error_marker ev = true
       /\ In (OLEDShowString 88 48 "Noob") ev
       /\ In (OLEDShowString 32 32 "Err") ev
       /\ In (printf "[[2,Err]]\r\n" []) ev)
    /\ ((600 <= RESP.s_peak2peak r)%Q /\ (RESP.s_peak2peak r <= 3000)%Q ->
          In (OLEDShowString 88 48 "Good") ev
          /\ ~ In (OLEDShowString 88 48 "Noob") ev).
Proof.
  intros r ev. subst ev. unfold RESP.OLED_RESP. split.
  - intros H.
    assert (B : dlt (RESP.s_peak2peak r) 600%Q
                || dgt (RESP.s_peak2peak r) 3000%Q = true).
    { apply orb_true_iff.
      destruct H as [H | H]; [left | right]; apply dlt_true; exact H. }
    rewrite B. simpl. repeat split; auto 10.
  - intros [H1 H2].
    assert (B : dlt (RESP.s_peak2peak r) 600%Q
                || dgt (RESP.s_peak2peak r) 3000%Q = false).
    { apply orb_false_iff. split; apply dlt_false; assumption. }
    rewrite B. split.
    + simpl. auto 10.
    + destruct ((RESP.breathRate r >=? 5) && (RESP.breathRate r <=? 100));
        simpl; intros H; repeat (destruct H as [H | H]; [discriminate H |]);
        exact H.
Qed.

Lemma OLED_RESP_low_rate (r : RESP.state) :
  RESP.breathRate r < 5 ->
  readings (snd (RESP.OLED_RESP r)) = []
  /\ error_marker (snd (RESP.OLED_RESP r)) = true.
Proof.
  intros H. unfold RESP.OLED_RESP.
  assert (B : (RESP.breathRate r >=? 5) && (RESP.breathRate r <=? 100) = false).
  { apply andb_false_iff. left. rewrite Z.geb_leb. apply Z.leb_gt. exact H. }
  rewrite B.
  destruct (dlt (RESP.s_peak2peak r) 600%Q || dgt (RESP.s_peak2peak r) 3000%Q);
    split; reflexivity.
Qed.

(** X13.  RESP keeps the time of the last peak in a [double] and
    subtracts in [double]: when a call of [RESPTask] detects a peak at a
    timer value below the stored one, as after a wrap of the 32-bit timer,
    the distance is negative, the stored rate is 60000 divided by it,
    truncated, hence not positive, and [OLED_RESP] puts out the error
    marker and no number. *)
Theorem X13_resp_timer_wrap :
  forall (inp now t1 : Z) (r r1 : RESP.state),
    RESP.front inp r = Some r1 -> RESP.peak_detected r1 = true ->
    RESP.lastPeak_index r = i2d t1 ->
    to_u32 now < t1 ->
    exists r',
      RESP.RESPTask inp now r = Some r'
      /\ RESP.breathRate r' = Z.quot 60000 (to_u32 now - t1)
      /\ RESP.breathRate r' <= 0
      /\ RESP.lastPeak_index r' = i2d (to_u32 now)
      /\ readings (snd (RESP.OLED_RESP r')) = []
      /\ error_marker (snd (RESP.OLED_RESP r')) = true.
Proof.
  intros inp now t1 r r1 F P L Lt.
  destruct (RESP_front_keeps _ _ _ F) as [L1 _].
  unfold RESP.RESPTask. rewrite F. cbn [bind].
  unfold RESP.detect. rewrite P, L1, L. unfold RESP.calRate.
  destruct (rate_of_signed_distance _ (to_u32 now - t1) (i2d_sub (to_u32 now) t1))
    as [E B]; [lia |].
  rewrite E. cbn [bind].
  assert (N : Z.quot 60000 (to_u32 now - t1) <= 0).
  { assert (Q : 0 <= Z.quot 60000 (- (to_u32 now - t1)))
      by (apply Z.quot_pos; lia).
    rewrite Z.quot_opp_r in Q by lia. lia. }
  eexists. split; [reflexivity |].
  cbn [RESP.breathRate RESP.lastPeak_index].
  split; [reflexivity |]. split; [exact N |]. split; [reflexivity |].
  apply OLED_RESP_low_rate. cbn [RESP.breathRate]. lia.
Qed.

Lemma X13_resp_timer_wrap_witness :
  exists r',
    RESP.RESPTask 0 (4294967296 + 700) RESP_late = Some r'
    /\ RESP.breathRate r' = 0
    /\ error_marker (snd (RESP.OLED_RESP r')) = true.
Proof.
  assert (F : RESP.front 0 RESP_late = Some RESP_late_1) by (vm_compute; reflexivity).
  assert (P : RESP.peak_detected RESP_late_1 = true) by (vm_compute; reflexivity).
  assert (L : RESP.lastPeak_index RESP_late = i2d 4294967196) by reflexivity.
  assert (Lt : to_u32 (4294967296 + 700) < 4294967196) by (vm_compute; reflexivity).
  destruct (X13_resp_timer_wrap 0 (4294967296 + 700) 4294967196 RESP_late
              RESP_late_1 F P L Lt) as (r' & A & B & _ & _ & _ & E).
  exists r'. split; [exact A |]. split; [exact B | exact E].
Defined.

(** ** The SpO2 channel *)

Ltac spo2_fields :=
  cbn [SPO2.SPO2_Wave_data_RED SPO2.SPO2_Wave_data_IR SPO2.IIRLowpass_win_RED
       SPO2.IIRLowpass_win_IR SPO2.IIRHighpass_win_RED SPO2.IIRHighpass_win_IR
       SPO2.smooth_RED SPO2.smooth_IR SPO2.arr_SPO2_Wave_Rate
       SPO2.SPO2_Wave_index SPO2.peakThreshold SPO2.lastPeak_index
       SPO2.currentPeak_index SPO2.heartRate SPO2.hr_buf SPO2.hr_cnt
       SPO2.arr_SPO2_Wave_RED SPO2.arr_SPO2_Wave_IR SPO2.peak2peak_RED
       SPO2.peak2peak_IR SPO2.value_R SPO2.value_SPO2 SPO2.rValue_buf
       SPO2.s_DACdata SPO2.adjust_wait_cnt SPO2.led_state].

Lemma SPO2_front_fields (s s1 : SPO2.state) :
  SPO2_fields_ok s -> SPO2.front s = Some s1 -> SPO2_fields_ok s1.
Proof.
  intros (A1 & A2 & A3 & B1 & B2 & B3 & B4 & S1 & S2 & C1 & C2 & C3 & C4 & C5
          & D1 & D2 & D3 & D4 & D5 & D6 & D7) H.
  unfold SPO2.front in H.
  destruct (SPO2.IIRHighpass (i2d (SPO2.SPO2_Wave_data_RED s)) _)
    as [o00 hr] eqn:E1.
  destruct (SPO2.IIRHighpass (i2d (SPO2.SPO2_Wave_data_IR s)) _)
    as [o01 hi] eqn:E2.
  destruct (SPO2.IIRLowpass o00 _) as [o10 lr] eqn:E3.
  destruct (SPO2.IIRLowpass o01 _) as [o11 li] eqn:E4.
  destruct (SPO2.SmoothingFilter_RED _ _) as [[o20 sr] |] eqn:E5;
    cbn [bind] in H; [| discriminate].
  destruct (SPO2.SmoothingFilter_IR _ _) as [[o21 si] |] eqn:E6;
    cbn [bind] in H; [| discriminate].
  apply (f_equal snd) in E1, E2, E3, E4. cbn [snd] in E1, E2, E3, E4.
  assert (L1 : length hr = 3%nat)
    by (rewrite <- E1; unfold SPO2.IIRHighpass; rewrite IIR_length; exact B1).
  assert (L2 : length hi = 3%nat)
    by (rewrite <- E2; unfold SPO2.IIRHighpass; rewrite IIR_length; exact B2).
  assert (L3 : length lr = 3%nat)
    by (rewrite <- E3; unfold SPO2.IIRLowpass; rewrite IIR_length; exact B3).
  assert (L4 : length li = 3%nat)
    by (rewrite <- E4; unfold SPO2.IIRLowpass; rewrite IIR_length; exact B4).
  destruct (smoother_keeps_ok _ _ _ _ _ S1 E5) as [S1' _].
  destruct (smoother_keeps_ok _ _ _ _ _ S2 E6) as [S2' _].
  clear E1 E2 E3 E4 E5 E6.
  apply Some_inj in H. subst s1. unfold SPO2_fields_ok. spo2_fields.
  rewrite !length_wr.
  repeat (split; [first [exact A1 | exact A2 | exact A3 | exact L1 | exact L2
                        | exact L3 | exact L4 | exact S1' | exact S2'
                        | exact C1 | exact C2 | exact C3 | exact C4 | exact C5
                        | exact D1 | exact D2 | exact D3 | exact D4 | exact D5
                        | exact D6] |]).
  exact D7.
Qed.

Lemma auto_gain_hold (p : double) (dac wait : Z) :
  (dlt p 20%Q = false \/ 500 <= dac) ->
  (dgt p 80%Q = false \/ dac <= 100) ->
  SPO2.auto_gain p dac wait = (dac, wait, []).
Proof.
  intros H1 H2. unfold SPO2.auto_gain.
  assert (A : dlt p 20%Q && (dac <? SPO2.RED_INTENSITY_MAX) = false).
  { apply andb_false_iff. destruct H1 as [H1 | H1]; [left; exact H1 | right].
    apply Z.ltb_ge. exact H1. }
  assert (B : dgt p 80%Q && (dac >? SPO2.RED_INTENSITY_MIN) = false).
  { apply andb_false_iff. destruct H2 as [H2 | H2]; [left; exact H2 | right].
    rewrite Z.gtb_ltb. apply Z.ltb_ge. exact H2. }
  rewrite A, B. reflexivity.
Qed.

(** The gain step keeps the drive between its limits. *)
Lemma auto_gain_range (p : double) (dac wait dac' wait' : Z) (gev : list event) :
  0 <= dac <= 500 -> 0 <= wait <= 1 ->
  SPO2.auto_gain p dac wait = (dac', wait', gev) ->
  0 <= dac' <= 500 /\ 0 <= wait' <= 1
  /\ (100 <= dac -> 100 <= dac')
  /\ (gev = [] \/ gev = [AdjustDAC dac']).
Proof.
  intros Hd Hw G.
  destruct (dlt p 20%Q) eqn:Lo.
  - destruct (Z_lt_le_dec dac 500) as [L | L].
    + rewrite auto_gain_up in G by (exact Lo || lia).
      apply pair_equal_spec in G. destruct G as [G G3].
      apply pair_equal_spec in G. destruct G as [G1 G2].
      subst dac' wait' gev. repeat split; try lia. right. reflexivity.
    + rewrite auto_gain_hold in G.
      * apply pair_equal_spec in G. destruct G as [G G3].
        apply pair_equal_spec in G. destruct G as [G1 G2].
        subst dac' wait' gev. repeat split; try lia. left. reflexivity.
      * right. lia.
      * left. destruct (dgt p 80%Q) eqn:Hi; [| reflexivity].
        apply far_apart in Hi. congruence.
  - destruct (dgt p 80%Q) eqn:Hi.
    + destruct (Z_lt_le_dec 100 dac) as [L | L].
      * rewrite auto_gain_down in G by (exact Hi || lia).
        apply pair_equal_spec in G. destruct G as [G G3].
        apply pair_equal_spec in G. destruct G as [G1 G2].
        subst dac' wait' gev. repeat split; try lia. right. reflexivity.
      * rewrite auto_gain_hold in G.
        -- apply pair_equal_spec in G. destruct G as [G G3].
           apply pair_equal_spec in G. destruct G as [G1 G2].
           subst dac' wait' gev. repeat split; try lia. left. reflexivity.
        -- left. exact Lo.
        -- right. lia.
    + rewrite auto_gain_hold in G.
      * apply pair_equal_spec in G. destruct G as [G G3].
        apply pair_equal_spec in G. destruct G as [G1 G2].
        subst dac' wait' gev. repeat split; try lia. left. reflexivity.
      * left. exact Lo.
      * left. exact Hi.
Qed.

Lemma calSpO2_length (red ir : double) (buf : list Z) (spo2 rv spo2' : double)
      (rbuf : list Z) :
  SPO2.calSpO2 red ir buf spo2 = Some (rv, rbuf, spo2') ->
  length rbuf = length buf.
Proof.
  intros H. apply calSpO2_spec in H. destruct H as [_ [r ->]].
  rewrite length_wr. unfold for_range. apply length_for_up.
  intros i a. apply length_wr.
Qed.

Lemma SPO2_analyse_ok (s s' : SPO2.state) (ev : list event) :
  SPO2_fields_ok s -> SPO2.analyse_wrap s = Some (s', ev) ->
  SPO2_fields_ok s' /\ SPO2.SPO2_Wave_index s' = 0
  /\ (SPO2.RED_INTENSITY_MIN <= SPO2.s_DACdata s ->
      SPO2.RED_INTENSITY_MIN <= SPO2.s_DACdata s')
  /\ (ev = [Analyze_SPO2Wave_call; calSpO2_call]
      \/ ev = [Analyze_SPO2Wave_call; calSpO2_call; AdjustDAC (SPO2.s_DACdata s')]).
Proof.
  intros (A1 & A2 & A3 & B1 & B2 & B3 & B4 & S1 & S2 & C1 & C2 & C3 & C4 & C5
          & D1 & D2 & D3 & D4 & D5 & D6 & D7) H.
  destruct (SPO2_analyse_spec _ _ _ H)
    as (ppR & ppI & thr & rv & rbuf & spo2 & dac & wait & gev
        & _ & C & G & E1 & E2).
  apply calSpO2_length in C.
  unfold SPO2.RED_INTENSITY_MAX, SPO2.ADJUST_STABLE_DELAY,
    SPO2.RED_INTENSITY_MIN in *.
  destruct (auto_gain_range _ _ _ _ _ _ D2 D1 G) as (G1 & G2 & G3 & G4).
  subst s' ev. unfold SPO2_fields_ok, SPO2.set_wrap. spo2_fields.
  unfold SPO2.RED_INTENSITY_MAX, SPO2.ADJUST_STABLE_DELAY.
  split; [| split; [reflexivity | split; [exact G3 |]]].
  - rewrite C.
    repeat (split; [first [exact A1 | exact A2 | exact A3 | exact B1 | exact B2
                          | exact B3 | exact B4 | exact S1 | exact S2
                          | exact C1 | exact C2 | exact C3 | exact C4 | exact C5
                          | exact G1 | exact G2 | exact D3 | exact D4 | exact D5
                          | exact D6] |]).
    exact D7.
  - destruct G4 as [-> | ->]; [left | right]; reflexivity.
Qed.

Lemma SPO2_skip_ok (s : SPO2.state) :
  SPO2_fields_ok s -> SPO2.adjust_wait_cnt s > 0 ->
  SPO2_fields_ok (SPO2.skip_wrap s).
Proof.
  intros (A1 & A2 & A3 & B1 & B2 & B3 & B4 & S1 & S2 & C1 & C2 & C3 & C4 & C5
          & D1 & D2 & D3 & D4 & D5 & D6 & D7) W.
  unfold SPO2_fields_ok, SPO2.skip_wrap, SPO2.set_wrap. spo2_fields.
  assert (D1' : 0 <= SPO2.adjust_wait_cnt s - 1 <= SPO2.ADJUST_STABLE_DELAY)
    by (unfold SPO2.ADJUST_STABLE_DELAY in *; lia).
  repeat (split; [first [exact A1 | exact A2 | exact A3 | exact B1 | exact B2
                        | exact B3 | exact B4 | exact S1 | exact S2
                        | exact C1 | exact C2 | exact C3 | exact C4 | exact C5
                        | exact D1' | exact D2 | exact D3 | exact D4 | exact D5
                        | exact D6] |]).
  exact D7.
Qed.

Lemma hr_sum_defined (b0 b1 b2 b3 b4 : Z) :
  Forall rate_range [b0; b1; b2; b3; b4] ->
  for_range_opt 0 5 (fun i sum => int_add sum (rd 0 [b0; b1; b2; b3; b4] i)) 0
  = Some (b0 + b1 + b2 + b3 + b4).
Proof.
  intros F.
  inversion_clear F as [| ? ? R0 F1]. inversion_clear F1 as [| ? ? R1 F2].
  inversion_clear F2 as [| ? ? R2 F3]. inversion_clear F3 as [| ? ? R3 F4].
  inversion_clear F4 as [| ? ? R4 _].
  unfold rate_range in *.
  assert (E : forall a b, -1000000 <= a + b <= 1000000 ->
                          int_add a b = Some (a + b)).
  { intros a b H. unfold int_add. rewrite in_int_small by exact H.
    reflexivity. }
  change (for_range_opt 0 5
            (fun i sum => int_add sum (rd 0 [b0; b1; b2; b3; b4] i)) 0)
    with (s1 <- int_add 0 b0 ;;
          s2 <- int_add s1 b1 ;;
          s3 <- int_add s2 b2 ;;
          s4 <- int_add s3 b3 ;;
          s5 <- int_add s4 b4 ;;
          Some s5).
  rewrite E by lia. cbn [bind].
  rewrite E by lia. cbn [bind].
  rewrite E by lia. cbn [bind].
  rewrite E by lia. cbn [bind].
  rewrite E by lia. cbn [bind].
  reflexivity.
Qed.

(** The batch averaging is defined in every state in which the five slots
    hold rates, and keeps them so. *)
Lemma average_ok (cur_hr hr cnt : Z) (buf : list Z) :
  length buf = 5%nat -> Forall rate_range buf -> rate_range hr ->
  rate_range cur_hr -> 0 <= cnt <= 5 ->
  exists hr' buf' cnt',
    SPO2.average cur_hr hr buf cnt = Some (hr', buf', cnt')
    /\ length buf' = 5%nat /\ Forall rate_range buf' /\ rate_range hr'
    /\ 0 <= cnt' <= 5.
Proof.
  intros L F Hh Hc Hn. unfold SPO2.average.
  destruct (Z.leb_spec cnt 4) as [Le | Gt].
  - eexists _, _, _. split; [reflexivity |].
    rewrite length_wr. split; [exact L |].
    split; [apply Forall_wr; assumption |]. split; [exact Hh | lia].
  - destruct (five_slots buf L) as (b0 & b1 & b2 & b3 & b4 & ->).
    rewrite hr_sum_defined by exact F. cbn [bind].
    eexists _, _, _. split; [reflexivity |].
    split; [reflexivity |]. split; [exact F |]. split; [| lia].
    inversion_clear F as [| ? ? R0 F1]. inversion_clear F1 as [| ? ? R1 F2].
    inversion_clear F2 as [| ? ? R2 F3]. inversion_clear F3 as [| ? ? R3 F4].
    inversion_clear F4 as [| ? ? R4 _].
    unfold rate_range in *.
    pose proof (Z.quot_rem' (b0 + b1 + b2 + b3 + b4) 5) as Q.
    pose proof (Z.rem_bound_abs (b0 + b1 + b2 + b3 + b4) 5 ltac:(lia)) as B.
    lia.
Qed.

Lemma SPO2_detect_ok (now : Z) (s s' : SPO2.state) :
  SPO2_fields_ok s -> SPO2.detect now s = Some s' ->
  SPO2_fields_ok s'
  /\ SPO2.SPO2_Wave_index s' = SPO2.SPO2_Wave_index s
  /\ SPO2.s_DACdata s' = SPO2.s_DACdata s.
Proof.
  intros (A1 & A2 & A3 & B1 & B2 & B3 & B4 & S1 & S2 & C1 & C2 & C3 & C4 & C5
          & D1 & D2 & D3 & D4 & D5 & D6 & D7) H.
  unfold SPO2.detect in H. destruct (SPO2.peak_detected s).
  - destruct (int_sub _ _) as [pp |] eqn:P; cbn [bind] in H; [| discriminate].
    destruct (SPO2.calRate _) as [cur_hr |] eqn:R; cbn [bind] in H;
      [| discriminate].
    assert (Rc : rate_range cur_hr).
    { unfold SPO2.calRate in R. destruct (Z.eq_dec pp 0) as [-> | NZ].
      - rewrite rate_of_zero_distance in R by reflexivity. discriminate R.
      - destruct (rate_of_signed_distance (i2d pp) pp) as [E B];
          [reflexivity | exact NZ |].
        rewrite E in R. apply Some_inj in R. subst cur_hr. exact B. }
    unfold SPO2.HR_AVG_N in *.
    destruct (average_ok cur_hr (SPO2.heartRate s) (SPO2.hr_cnt s)
                (SPO2.hr_buf s) C1 C2 C4 Rc C3)
      as (hr' & buf' & cnt' & Av & L' & F' & H' & N').
    rewrite Av in H. cbn [bind] in H. apply Some_inj in H. subst s'.
    unfold SPO2_fields_ok, SPO2.set_rate. spo2_fields.
    pose proof (to_int_range now) as TI.
    split; [| split; reflexivity].
    repeat (split; [first [exact A1 | exact A2 | exact A3 | exact B1 | exact B2
                          | exact B3 | exact B4 | exact S1 | exact S2
                          | exact L' | exact F' | exact N' | exact H' | exact C5
                          | exact D1 | exact D2 | exact D3 | exact D4 | exact D5
                          | exact TI] |]).
    reflexivity.
  - apply Some_inj in H. subst s'. split; [| split; reflexivity].
    unfold SPO2_fields_ok. auto 30.
Qed.

Lemma SPO2Task_ok (now : Z) (s s' : SPO2.state) (ev : list event) :
  SPO2_ok s -> SPO2.SPO2Task now s = Some (s', ev) ->
  SPO2_ok s'
  /\ SPO2.SPO2_Wave_index s'
     = (SPO2.SPO2_Wave_index s + 1) mod SPO2.SP_WAVE_LEN
  /\ (SPO2.RED_INTENSITY_MIN <= SPO2.s_DACdata s ->
      SPO2.RED_INTENSITY_MIN <= SPO2.s_DACdata s'
      /\ Forall drive_in_limits ev).
Proof.
  intros [Hi Ok] T. unfold SPO2_ok. unfold SPO2.SP_WAVE_LEN in *.
  destruct (SPO2Task_path _ _ _ _ T)
    as [s1 F I D E | s1 F I A E1 E2 | s1 F I A An].
  - pose proof (SPO2_front_fields _ _ Ok F) as Ok1.
    destruct (SPO2_front_keeps _ _ F) as (I1 & _ & DA & _).
    destruct (SPO2_detect_ok _ _ _ Ok1 D) as (Ok2 & I2 & D2).
    unfold SPO2.SP_WAVE_LEN in *.
    split; [split; [lia | exact Ok2] |].
    split; [rewrite Z.mod_small by lia; lia |].
    intros Hd. subst ev. split; [lia | constructor].
  - pose proof (SPO2_front_fields _ _ Ok F) as Ok1.
    destruct (SPO2_front_keeps _ _ F) as (I1 & W1 & DA & _).
    unfold SPO2.SP_WAVE_LEN in *.
    assert (Ok2 : SPO2_fields_ok (SPO2.skip_wrap s1))
      by (apply SPO2_skip_ok; [exact Ok1 | lia]).
    subst s' ev.
    split; [split; [cbn; lia | exact Ok2] |].
    split.
    + replace (SPO2.SPO2_Wave_index s + 1) with 300 by lia. reflexivity.
    + intros Hd. split; [| constructor].
      change (SPO2.s_DACdata (SPO2.skip_wrap s1)) with (SPO2.s_DACdata s1). lia.
  - pose proof (SPO2_front_fields _ _ Ok F) as Ok1.
    destruct (SPO2_front_keeps _ _ F) as (I1 & W1 & DA & _).
    unfold SPO2.SP_WAVE_LEN in *.
    destruct (SPO2_analyse_ok _ _ _ Ok1 An) as (Ok2 & I2 & D2 & Ev).
    split; [split; [lia | exact Ok2] |].
    split.
    + replace (SPO2.SPO2_Wave_index s + 1) with 300 by lia. exact I2.
    + intros Hd. rewrite DA in D2. specialize (D2 Hd). split; [exact D2 |].
      destruct Ok2 as (_ & _ & _ & _ & _ & _ & _ & _ & _ & _ & _ & _ & _ & _
                       & _ & Dr & _).
      destruct Ev as [-> | ->]; repeat constructor.
      * exact D2.
      * apply Dr.
Qed.

Lemma SPO2_LED_ok (adc : Z) (s : SPO2.state) :
  SPO2_ok s ->
  SPO2_ok (fst (SPO2.SPO2_LED_Task adc s))
  /\ SPO2.SPO2_Wave_index (fst (SPO2.SPO2_LED_Task adc s))
     = SPO2.SPO2_Wave_index s
  /\ SPO2.s_DACdata (fst (SPO2.SPO2_LED_Task adc s)) = SPO2.s_DACdata s.
Proof.
  intros [Hi (A1 & A2 & A3 & B1 & B2 & B3 & B4 & S1 & S2 & C1 & C2 & C3 & C4
              & C5 & D1 & D2 & D3 & D4 & D5 & D6 & D7)].
  pose proof (to_u16_range adc) as U.
  assert (P : 0 <= ((SPO2.led_state s + 1) mod 8) mod 256 <= 7).
  { pose proof (Z.mod_pos_bound (SPO2.led_state s + 1) 8 ltac:(lia)).
    rewrite Z.mod_small by lia. lia. }
  unfold SPO2.SPO2_LED_Task.
  set (st := ((SPO2.led_state s + 1) mod 8) mod 256) in *.
  destruct (st =? 0); [| destruct (st =? 2); [| destruct (st =? 4);
    [| destruct (st =? 6)]]];
    cbn [fst]; unfold SPO2_ok, SPO2_fields_ok, SPO2.set_led; spo2_fields;
    (split; [| split; reflexivity]);
    (split; [exact Hi |]);
    repeat (split; [first [exact A1 | exact A2 | exact A3 | exact B1 | exact B2
                          | exact B3 | exact B4 | exact S1 | exact S2
                          | exact C1 | exact C2 | exact C3 | exact C4 | exact C5
                          | exact D1 | exact D2 | exact P | exact D4 | exact D5
                          | exact U | exact D6] |]);
    exact D7.
Qed.

Lemma SPO2_boot_ok : SPO2_ok SPO2.boot.
Proof.
  unfold SPO2_ok, SPO2_fields_ok, smoother_ok, rate_range. cbn.
  repeat split; try reflexivity; try lia; try discriminate.
  repeat constructor; lia.
Qed.

Lemma SPO2_init_ok (s : SPO2.state) :
  SPO2_ok s -> SPO2_ok (fst (SPO2.InitSPO2 s)).
Proof.
  intros [Hi (A1 & A2 & A3 & B1 & B2 & B3 & B4 & S1 & S2 & C1 & C2 & C3 & C4
              & C5 & D1 & D2 & D3 & D4 & D5 & D6 & D7)].
  unfold SPO2_ok, SPO2_fields_ok, SPO2.InitSPO2. cbn [fst]. spo2_fields.
  assert (Dn : 0 <= 240 <= SPO2.RED_INTENSITY_MAX)
    by (unfold SPO2.RED_INTENSITY_MAX; lia).
  split; [exact Hi |].
  repeat (split; [first [exact A1 | exact A2 | exact A3 | exact B1 | exact B2
                        | reflexivity | exact S1 | exact S2
                        | exact C1 | exact C2 | exact C3 | exact C4 | exact C5
                        | exact D1 | exact Dn | exact D3 | exact D4 | exact D5
                        | exact D6] |]).
  exact D7.
Qed.

Lemma SPO2_reachable_ok (s : SPO2.state) : SPO2.reachable s -> SPO2_ok s.
Proof.
  intros R. induction R as [| s R IH | s adc R IH | s now s' ev R IH T].
  - exact SPO2_boot_ok.
  - apply SPO2_init_ok. exact IH.
  - exact (proj1 (SPO2_LED_ok adc s IH)).
  - exact (proj1 (SPO2Task_ok now s s' ev IH T)).
Qed.

(** X14.  In every state the SpO2 module reaches from its static
    initialisers by [InitSPO2], [SPO2_LED_Task] and [SPO2Task]: the write
    index lies in [0,299] and the three windows have 300 slots; the four
    delay lines have 3 slots; the fill counters of the two smoothers are at
    most 5 and their rings have 5 slots; the five slots of [hr_buf] hold
    rates in [-60000,60000], so that their sum never overflows, [hr_cnt]
    lies in [0,5] and the pulse rate in [-60000,60000]; the ratio history
    has 5 slots; the cool-down counter is 0 or 1; the drive is at most
    500; the LED phase lies in [0,7]; the two latched samples are 16-bit
    values; the two peak times are equal and an [int]. *)
Theorem X14_spo2_state_bounds :
  forall s : SPO2.state, SPO2.reachable s -> SPO2_ok s.
Proof. exact SPO2_reachable_ok. Qed.

Lemma X14_spo2_state_bounds_witness : SPO2_ok SPO2_started.
Proof.
  apply X14_spo2_state_bounds.
  apply (SPO2.reach_task
           (fst (SPO2.SPO2_LED_Task 0 (fst (SPO2.InitSPO2 SPO2.boot)))) 8 _ []).
  - apply SPO2.reach_led. apply SPO2.reach_init. apply SPO2.reach_boot.
  - vm_compute. reflexivity.
Defined.

Lemma SPO2_LED_events (adc : Z) (s : SPO2.state) :
  Forall drive_in_limits (snd (SPO2.SPO2_LED_Task adc s)).
Proof.
  unfold SPO2.SPO2_LED_Task.
  destruct (_ =? 0); [| destruct (_ =? 2); [| destruct (_ =? 4);
    [| destruct (_ =? 6)]]]; cbn [snd]; repeat constructor.
Qed.

Lemma SPO2_run_ok (cs : list SPO2.call) :
  forall (s s' : SPO2.state) (ev : list event),
    SPO2_ok s -> SPO2.run cs s = Some (s', ev) ->
    SPO2_ok s'
    /\ SPO2.SPO2_Wave_index s'
       = (SPO2.SPO2_Wave_index s + SPO2.tasks cs) mod SPO2.SP_WAVE_LEN
    /\ (SPO2.RED_INTENSITY_MIN <= SPO2.s_DACdata s ->
        SPO2.RED_INTENSITY_MIN <= SPO2.s_DACdata s'
        /\ Forall drive_in_limits ev).
Proof.
  induction cs as [| [adc | now] cs IH]; intros s s' ev Ok R.
  - cbn in R. apply Some_inj in R. apply pair_equal_spec in R.
    destruct R as [<- <-]. split; [exact Ok |]. split.
    + cbn [SPO2.tasks]. rewrite Z.add_0_r. symmetry. apply Z.mod_small.
      apply Ok.
    + intros H. split; [exact H | constructor].
  - cbn [SPO2.run] in R.
    destruct (SPO2.SPO2_LED_Task adc s) as [s1 e1] eqn:L.
    destruct (SPO2.run cs s1) as [[s2 e2] |] eqn:R2; cbn [bind] in R;
      [| discriminate].
    apply Some_inj in R. apply pair_equal_spec in R. destruct R as [<- <-].
    destruct (SPO2_LED_ok adc s Ok) as (Ok1 & I1 & D1).
    pose proof (SPO2_LED_events adc s) as E1.
    rewrite L in Ok1, I1, D1, E1. cbn [fst snd] in Ok1, I1, D1, E1.
    destruct (IH s1 s2 e2 Ok1 R2) as (Ok2 & I2 & D2).
    split; [exact Ok2 |]. split.
    + rewrite I2, I1. reflexivity.
    + intros H. rewrite D1 in D2. destruct (D2 H) as [D3 E2].
      split; [exact D3 |]. apply Forall_app. split; assumption.
  - cbn [SPO2.run] in R.
    destruct (SPO2.SPO2Task now s) as [[s1 e1] |] eqn:T; cbn [bind] in R;
      [| discriminate].
    destruct (SPO2.run cs s1) as [[s2 e2] |] eqn:R2; cbn [bind] in R;
      [| discriminate].
    apply Some_inj in R. apply pair_equal_spec in R. destruct R as [<- <-].
    destruct (SPO2Task_ok now s s1 e1 Ok T) as (Ok1 & I1 & D1).
    destruct (IH s1 s2 e2 Ok1 R2) as (Ok2 & I2 & D2).
    split; [exact Ok2 |]. split.
    + rewrite I2, I1. cbn [SPO2.tasks].
      rewrite Zplus_mod_idemp_l. f_equal. lia.
    + intros H. destruct (D1 H) as [D3 E1]. destruct (D2 D3) as [D4 E2].
      split; [exact D4 |]. apply Forall_app. split; assumption.
Qed.

(** X15.  After [InitSPO2], whatever calls of [SPO2_LED_Task] and
    [SPO2Task] follow, the LED drive [s_DACdata] stays in [100,500] and
    every call of [AdjustDAC] is given a value in that range. *)
Theorem X15_drive_within_limits :
  forall (s s' : SPO2.state) (cs : list SPO2.call) (ev : list event),
    SPO2.reachable s ->
    SPO2.run cs (fst (SPO2.InitSPO2 s)) = Some (s', ev) ->
    SPO2.RED_INTENSITY_MIN <= SPO2.s_DACdata s' <= SPO2.RED_INTENSITY_MAX
    /\ Forall drive_in_limits ev.
Proof.
  intros s s' cs ev R Run.
  assert (Ok : SPO2_ok (fst (SPO2.InitSPO2 s))).
  { apply SPO2_init_ok. apply SPO2_reachable_ok. exact R. }
  destruct (SPO2_run_ok cs _ _ _ Ok Run) as (Ok' & _ & D).
  destruct D as [D1 D2].
  { cbn. unfold SPO2.RED_INTENSITY_MIN. lia. }
  split; [| exact D2]. split; [exact D1 |].
  destruct Ok' as (_ & _ & _ & _ & _ & _ & _ & _ & _ & _ & _ & _ & _ & _ & _
                   & _ & Dr & _).
  apply Dr.
Qed.

Lemma X15_drive_within_limits_witness :
  SPO2.RED_INTENSITY_MIN <= SPO2.s_DACdata SPO2_started
                         <= SPO2.RED_INTENSITY_MAX.
Proof.
  assert (R : SPO2.run [SPO2.LED 0; SPO2.TASK 8] (fst (SPO2.InitSPO2 SPO2.boot))
              = Some (SPO2_started, [])) by (vm_compute; reflexivity).
  exact (proj1 (X15_drive_within_limits SPO2.boot SPO2_started _ _
                  SPO2.reach_boot R)).
Defined.

(** X16.  The dead band of the automatic gain: at a wrap that analyses,
    when the RED amplitude just measured lies in [20,80], or lies below 20
    with the drive already at its maximum, or above 80 with the drive at
    or below its minimum, the drive and the cool-down counter stay as they
    are and [AdjustDAC] is not called. *)
Theorem X16_gain_dead_band :
  forall (s s' : SPO2.state) (now : Z) (ev : list event),
    SPO2.SPO2_Wave_index s + 1 >= SPO2.SP_WAVE_LEN ->
    SPO2.adjust_wait_cnt s <= 0 ->
    SPO2.SPO2Task now s = Some (s', ev) ->
    ((20 <= SPO2.peak2peak_RED s')%Q /\ (SPO2.peak2peak_RED s' <= 80)%Q
     \/ (SPO2.peak2peak_RED s' < 20)%Q /\ SPO2.RED_INTENSITY_MAX <= SPO2.s_DACdata s
     \/ (80 < SPO2.peak2peak_RED s')%Q /\ SPO2.s_DACdata s <= SPO2.RED_INTENSITY_MIN) ->
    ev = [Analyze_SPO2Wave_call; calSpO2_call]
    /\ SPO2.s_DACdata s' = SPO2.s_DACdata s
    /\ SPO2.adjust_wait_cnt s' = SPO2.adjust_wait_cnt s.
Proof.
  intros s s' now ev I W T H.
  destruct (wrap_analysing now s s' ev T I W)
    as [s1 [ppR [ppI [thr [rv [rbuf [spo2 [dac [wait [gev [F [A [G [E Ev]]]]]]]]]]]]]].
  assert (P : SPO2.peak2peak_RED s' = ppR) by (rewrite E; reflexivity).
  assert (D : SPO2.s_DACdata s' = dac) by (rewrite E; reflexivity).
  assert (C : SPO2.adjust_wait_cnt s' = wait) by (rewrite E; reflexivity).
  rewrite P in H. rewrite D, C, Ev. clear E P D C T F A.
  rewrite auto_gain_hold in G.
  - apply pair_equal_spec in G. destruct G as [G1 G3].
    apply pair_equal_spec in G1. destruct G1 as [G1 G2].
    subst. repeat split.
  - destruct H as [[H _] | [[_ H] | [H _]]].
    + left. apply dlt_false. exact H.
    + right. exact H.
    + left. apply dlt_false. apply Qlt_le_weak.
      apply Qlt_trans with 80%Q; [reflexivity | exact H].
  - destruct H as [[_ H] | [[H _] | [_ H]]].
    + left. apply dlt_false. exact H.
    + left. apply dlt_false. apply Qlt_le_weak.
      apply Qlt_trans with 20%Q; [exact H | reflexivity].
    + right. exact H.
Qed.

Lemma X16_gain_dead_band_witness :
  SPO2.s_DACdata SPO2_steady' = 240
  /\ SPO2.adjust_wait_cnt SPO2_steady' = 0
  /\ SPO2.peak2peak_RED SPO2_steady' = 30%Q.
Proof.
  assert (I : SPO2.SPO2_Wave_index SPO2_steady + 1 >= SPO2.SP_WAVE_LEN)
    by (vm_compute; discriminate).
  assert (W : SPO2.adjust_wait_cnt SPO2_steady <= 0) by (vm_compute; discriminate).
  assert (T : SPO2.SPO2Task 0 SPO2_steady
              = Some (SPO2_steady', [Analyze_SPO2Wave_call; calSpO2_call]))
    by (vm_compute; reflexivity).
  assert (H : (20 <= SPO2.peak2peak_RED SPO2_steady')%Q
              /\ (SPO2.peak2peak_RED SPO2_steady' <= 80)%Q
              \/ (SPO2.peak2peak_RED SPO2_steady' < 20)%Q
                 /\ SPO2.RED_INTENSITY_MAX <= SPO2.s_DACdata SPO2_steady
              \/ (80 < SPO2.peak2peak_RED SPO2_steady')%Q
                 /\ SPO2.s_DACdata SPO2_steady <= SPO2.RED_INTENSITY_MIN).
  { left. split; vm_compute; discriminate. }
  destruct (X16_gain_dead_band SPO2_steady SPO2_steady' 0 _ I W T H)
    as (_ & D & C).
  split; [exact D |]. split; [exact C | reflexivity].
Defined.

Lemma never_both_app (a b : list event) :
  forall pins,
    never_both pins a = true -> never_both (leds_after pins a) b = true ->
    never_both pins (a ++ b) = true.
Proof.
  induction a as [| e a IH]; intros pins Ha Hb.
  - exact Hb.
  - cbn [app never_both] in *. apply andb_true_iff in Ha. destruct Ha as [H1 H2].
    rewrite H1. cbn [andb]. apply IH; assumption.
Qed.

Lemma leds_after_app (a b : list event) (pins : bool * bool) :
  leds_after pins (a ++ b) = leds_after (leds_after pins a) b.
Proof. unfold leds_after. apply fold_left_app. Qed.

Lemma led_phases (st : Z) :
  0 <= st <= 7 ->
  st = 0 \/ st = 1 \/ st = 2 \/ st = 3 \/ st = 4 \/ st = 5 \/ st = 6 \/ st = 7.
Proof. lia. Qed.

(** One call of the LED task, phase by phase. *)
Lemma SPO2_LED_step (adc : Z) (s : SPO2.state) :
  0 <= SPO2.led_state s <= 7 ->
  let s1 := fst (SPO2.SPO2_LED_Task adc s) in
  let ev := snd (SPO2.SPO2_LED_Task adc s) in
  SPO2.led_state s1 = (SPO2.led_state s + 1) mod 8
  /\ never_both (phase_pins (SPO2.led_state s)) ev = true
  /\ leds_after (phase_pins (SPO2.led_state s)) ev
     = phase_pins (SPO2.led_state s1)
  /\ (SPO2.led_state s = 1 /\ SPO2.SPO2_Wave_data_RED s1 = to_u16 adc
      \/ SPO2.led_state s <> 1
         /\ SPO2.SPO2_Wave_data_RED s1 = SPO2.SPO2_Wave_data_RED s)
  /\ (SPO2.led_state s = 5 /\ SPO2.SPO2_Wave_data_IR s1 = to_u16 adc
      \/ SPO2.led_state s <> 5
         /\ SPO2.SPO2_Wave_data_IR s1 = SPO2.SPO2_Wave_data_IR s).
Proof.
  intros H. apply led_phases in H. unfold SPO2.SPO2_LED_Task.
  destruct H as [H | [H | [H | [H | [H | [H | [H | H]]]]]]]; rewrite H;
    cbn; (split; [reflexivity |]); (split; [reflexivity |]);
    (split; [reflexivity |]);
    (split; [first [left; split; [reflexivity | reflexivity]
                   | right; split; [lia | reflexivity]] |]);
    first [left; split; [reflexivity | reflexivity]
          | right; split; [lia | reflexivity]].
Qed.

Lemma SPO2_front_led (s s1 : SPO2.state) :
  SPO2.front s = Some s1 -> SPO2.led_state s1 = SPO2.led_state s.
Proof.
  unfold SPO2.front. intros F. repeat split_pair.
  destruct (SPO2.SmoothingFilter_RED _ _) as [[q2 sr] |]; cbn [bind] in F;
    [| discriminate].
  destruct (SPO2.SmoothingFilter_IR _ _) as [[q3 si] |]; cbn [bind] in F;
    [| discriminate].
  apply Some_inj in F. subst s1. reflexivity.
Qed.

Lemma SPO2_detect_led (now : Z) (s s' : SPO2.state) :
  SPO2.detect now s = Some s' -> SPO2.led_state s' = SPO2.led_state s.
Proof.
  unfold SPO2.detect. intros H. destruct (SPO2.peak_detected s).
  - destruct (int_sub _ _) as [pp |]; cbn [bind] in H; [| discriminate].
    destruct (SPO2.calRate _) as [cur_hr |]; cbn [bind] in H; [| discriminate].
    destruct (SPO2.average _ _ _ _) as [[[hr buf] cnt] |]; cbn [bind] in H;
      [| discriminate].
    apply Some_inj in H. subst s'. reflexivity.
  - apply Some_inj in H. subst s'. reflexivity.
Qed.

(** [SPO2Task] leaves the LED state machine and the LED pins alone. *)
Lemma SPO2Task_led (now : Z) (s s' : SPO2.state) (ev : list event) :
  SPO2.SPO2Task now s = Some (s', ev) ->
  SPO2.led_state s' = SPO2.led_state s
  /\ forall pins, leds_after pins ev = pins
                  /\ never_both pins ev = negb (fst pins && snd pins).
Proof.
  intros T.
  destruct (SPO2Task_path _ _ _ _ T)
    as [s1 F I D E | s1 F I A E1 E2 | s1 F I A An].
  - rewrite (SPO2_detect_led _ _ _ D), (SPO2_front_led _ _ F). subst ev.
    split; [reflexivity |]. intros pins. cbn. rewrite andb_true_r.
    split; reflexivity.
  - subst s' ev.
    change (SPO2.led_state (SPO2.skip_wrap s1)) with (SPO2.led_state s1).
    rewrite (SPO2_front_led _ _ F).
    split; [reflexivity |]. intros pins. cbn. rewrite andb_true_r.
    split; reflexivity.
  - destruct (SPO2_analyse_spec _ _ _ An)
      as (ppR & ppI & thr & rv & rbuf & spo2 & dac & wait & gev
          & _ & _ & G & E1 & E2).
    assert (L : SPO2.led_state s' = SPO2.led_state s1) by (rewrite E1; reflexivity).
    rewrite L, (SPO2_front_led _ _ F). split; [reflexivity |].
    intros pins. destruct (auto_gain_arms _ _ _ _ _ _ G) as [[-> _] | [-> _]];
      subst ev; cbn; rewrite ?andb_true_r, ?andb_diag; split; reflexivity.
Qed.

Lemma SPO2_run_leds (cs : list SPO2.call) :
  forall (s s' : SPO2.state) (ev : list event),
    0 <= SPO2.led_state s <= 7 ->
    SPO2.run cs s = Some (s', ev) ->
    SPO2.led_state s' = (SPO2.led_state s + led_calls cs) mod 8
    /\ never_both (phase_pins (SPO2.led_state s)) ev = true
    /\ leds_after (phase_pins (SPO2.led_state s)) ev
       = phase_pins (SPO2.led_state s').
Proof.
  induction cs as [| [adc | now] cs IH]; intros s s' ev P R.
  - cbn in R. apply Some_inj in R. apply pair_equal_spec in R.
    destruct R as [<- <-]. cbn [led_calls]. rewrite Z.add_0_r.
    rewrite Z.mod_small by lia. split; [reflexivity |].
    split; [| reflexivity].
    apply led_phases in P.
    destruct P as [H | [H | [H | [H | [H | [H | [H | H]]]]]]]; rewrite H;
      reflexivity.
  - cbn [SPO2.run] in R.
    destruct (SPO2_LED_step adc s P) as (L1 & N1 & A1 & _).
    destruct (SPO2.SPO2_LED_Task adc s) as [s1 e1].
    cbn [fst snd] in L1, N1, A1.
    destruct (SPO2.run cs s1) as [[s2 e2] |] eqn:R2; cbn [bind] in R;
      [| discriminate].
    apply Some_inj in R. apply pair_equal_spec in R. destruct R as [<- <-].
    assert (P1 : 0 <= SPO2.led_state s1 <= 7).
    { rewrite L1. pose proof (Z.mod_pos_bound (SPO2.led_state s + 1) 8). lia. }
    destruct (IH s1 s2 e2 P1 R2) as (L2 & N2 & A2).
    split; [| split].
    + rewrite L2, L1. cbn [led_calls]. rewrite Zplus_mod_idemp_l.
      f_equal. lia.
    + apply never_both_app; [exact N1 | rewrite A1; exact N2].
    + rewrite leds_after_app, A1. exact A2.
  - cbn [SPO2.run] in R.
    destruct (SPO2.SPO2Task now s) as [[s1 e1] |] eqn:T; cbn [bind] in R;
      [| discriminate].
    destruct (SPO2.run cs s1) as [[s2 e2] |] eqn:R2; cbn [bind] in R;
      [| discriminate].
    apply Some_inj in R. apply pair_equal_spec in R. destruct R as [<- <-].
    destruct (SPO2Task_led _ _ _ _ T) as [L1 Q].
    destruct (Q (phase_pins (SPO2.led_state s))) as [A1 N1].
    assert (P1 : 0 <= SPO2.led_state s1 <= 7) by (rewrite L1; exact P).
    destruct (IH s1 s2 e2 P1 R2) as (L2 & N2 & A2).
    rewrite L1 in L2, N2, A2.
    split; [| split].
    + exact L2.
    + apply never_both_app; [| rewrite A1; exact N2].
      rewrite N1. apply led_phases in P.
      destruct P as [H | [H | [H | [H | [H | [H | [H | H]]]]]]]; rewrite H;
        reflexivity.
    + rewrite leds_after_app, A1. exact A2.
Qed.

(** X17.  The LED state machine.  A call of [SPO2_LED_Task] latches a
    RED sample exactly when it leaves phase 1, in which the red LED alone
    is lit, and an infrared sample exactly when it leaves phase 5, in which
    the infrared LED alone is lit.  Over any sequence of calls of the two
    periodic entry points that starts with the LED levels of its phase,
    the phase advances by one per call of [SPO2_LED_Task], modulo 8, the
    two LEDs are lit together at no point, not even between two writes,
    and the levels at the end are those of the phase reached; [SPO2Task]
    writes no LED.  The levels [InitSPO2] sets are those of phase 0. *)
Theorem X17_led_state_machine :
  (forall (adc : Z) (s : SPO2.state),
      0 <= SPO2.led_state s <= 7 ->
      let s1 := fst (SPO2.SPO2_LED_Task adc s) in
      (SPO2.led_state s = 1
       /\ phase_pins (SPO2.led_state s) = (true, false)
       /\ SPO2.SPO2_Wave_data_RED s1 = to_u16 adc
       \/ SPO2.led_state s <> 1
          /\ SPO2.SPO2_Wave_data_RED s1 = SPO2.SPO2_Wave_data_RED s)
      /\ (SPO2.led_state s = 5
          /\ phase_pins (SPO2.led_state s) = (false, true)
          /\ SPO2.SPO2_Wave_data_IR s1 = to_u16 adc
          \/ SPO2.led_state s <> 5
             /\ SPO2.SPO2_Wave_data_IR s1 = SPO2.SPO2_Wave_data_IR s))
  /\ (forall (cs : list SPO2.call) (s s' : SPO2.state) (ev : list event),
         0 <= SPO2.led_state s <= 7 ->
         SPO2.run cs s = Some (s', ev) ->
         SPO2.led_state s' = (SPO2.led_state s + led_calls cs) mod 8
         /\ never_both (phase_pins (SPO2.led_state s)) ev = true
         /\ leds_after (phase_pins (SPO2.led_state s)) ev
            = phase_pins (SPO2.led_state s'))
  /\ (forall pins, leds_after pins SPO2.ConfigCSGPIO
                   = phase_pins (SPO2.led_state SPO2.boot)).
Proof.
  split; [| split].
  - intros adc s P s1. subst s1.
    destruct (SPO2_LED_step adc s P) as (_ & _ & _ & R & I).
    split.
    + destruct R as [[R1 R2] | R]; [left | right; exact R].
      split; [exact R1 |]. split; [rewrite R1; reflexivity | exact R2].
    + destruct I as [[I1 I2] | I]; [left | right; exact I].
      split; [exact I1 |]. split; [rewrite I1; reflexivity | exact I2].
  - intros cs s s' ev P R. exact (SPO2_run_leds cs s s' ev P R).
  - intros [r i]. reflexivity.
Qed.

Lemma rd_app_next (pre post : list Z) (x y : Z) :
  rd 0 (pre ++ x :: y :: post) (Z.of_nat (length pre) + 1) = y.
Proof.
  replace (pre ++ x :: y :: post) with ((pre ++ [x]) ++ y :: post)
    by (rewrite <- app_assoc; reflexivity).
  replace (Z.of_nat (length pre) + 1) with (Z.of_nat (length (pre ++ [x])))
    by (rewrite length_app; cbn [length]; lia).
  apply rd_app_here.
Qed.

Lemma swap_keep (pre post : list Z) (x y : Z) :
  x <= y ->
  SPO2.bubble_swap (Z.of_nat (length pre)) (pre ++ x :: y :: post)
  = pre ++ x :: y :: post.
Proof.
  intros H. unfold SPO2.bubble_swap. rewrite rd_app_here, rd_app_next.
  destruct (Z.gtb_spec x y) as [G | G]; [lia | reflexivity].
Qed.

Lemma swap_do (pre post : list Z) (x y : Z) :
  y < x ->
  SPO2.bubble_swap (Z.of_nat (length pre)) (pre ++ x :: y :: post)
  = pre ++ y :: to_u16 x :: post.
Proof.
  intros H. unfold SPO2.bubble_swap. rewrite rd_app_here, rd_app_next.
  destruct (Z.gtb_spec x y) as [G | G]; [| lia].
  rewrite wr_app.
  replace (pre ++ y :: y :: post) with ((pre ++ [y]) ++ y :: post)
    by (rewrite <- app_assoc; reflexivity).
  replace (Z.of_nat (length pre) + 1) with (Z.of_nat (length (pre ++ [y])))
    by (rewrite length_app; cbn [length]; lia).
  rewrite wr_app. rewrite <- !app_assoc. reflexivity.
Qed.

Lemma bubbleSort_unfold5 (a b c d e : Z) :
  SPO2.bubbleSort [a; b; c; d; e] 5
  = SPO2.bubble_swap 0
      (SPO2.bubble_swap 1 (SPO2.bubble_swap 0
        (SPO2.bubble_swap 2 (SPO2.bubble_swap 1 (SPO2.bubble_swap 0
          (SPO2.bubble_swap 3 (SPO2.bubble_swap 2 (SPO2.bubble_swap 1
            (SPO2.bubble_swap 0 [a; b; c; d; e]))))))))).
Proof. reflexivity. Qed.

(** With three zeros in front and nothing negative behind, the sort leaves
    the zeros where they are. *)
Ltac keep_pair k l :=
  let E := fresh "E" in
  assert (E : SPO2.bubble_swap k l = l);
  [ first [ apply (swap_keep [] _ _ _) | apply (swap_keep [_] _ _ _)
          | apply (swap_keep [_; _] _ _ _) | apply (swap_keep [_; _; _] _ _ _) ];
    lia
  | rewrite E; clear E ].

Lemma bubbleSort_early (a r : Z) :
  0 <= a -> 0 <= r ->
  exists a' r', SPO2.bubbleSort [0; 0; 0; a; r] 5 = [0; 0; 0; a'; r'].
Proof.
  intros Ha Hr. rewrite bubbleSort_unfold5.
  keep_pair 0 [0; 0; 0; a; r].
  keep_pair 1 [0; 0; 0; a; r].
  keep_pair 2 [0; 0; 0; a; r].
  assert (T : exists a1 r1, SPO2.bubble_swap 3 [0; 0; 0; a; r] = [0; 0; 0; a1; r1]
                            /\ 0 <= a1).
  { destruct (Z_le_gt_dec a r) as [L | G].
    - exists a, r. split; [apply (swap_keep [0; 0; 0] [] a r L) | exact Ha].
    - exists r, (to_u16 a).
      split; [apply (swap_do [0; 0; 0] [] a r); lia | exact Hr]. }
  destruct T as [a1 [r1 [T H1]]]. rewrite T.
  keep_pair 0 [0; 0; 0; a1; r1].
  keep_pair 1 [0; 0; 0; a1; r1].
  keep_pair 2 [0; 0; 0; a1; r1].
  keep_pair 0 [0; 0; 0; a1; r1].
  keep_pair 1 [0; 0; 0; a1; r1].
  keep_pair 0 [0; 0; 0; a1; r1].
  exists a1, r1. reflexivity.
Qed.

Lemma median_early (a r : Z) :
  0 <= a -> 0 <= r -> SPO2.median [0; 0; 0; a; r] = 0.
Proof.
  intros Ha Hr. destruct (bubbleSort_early a r Ha Hr) as [a' [r' E]].
  change (SPO2.median [0; 0; 0; a; r])
    with (rd 0 (SPO2.bubbleSort [0; 0; 0; a; r] 5) 2).
  rewrite E. reflexivity.
Qed.

Lemma history_shift (b0 b1 b2 b3 b4 r : Z) :
  wr (for_range 0 (SPO2.R_BUFSIZE - 1) (fun i b => wr b i (rd 0 b (i + 1)))
        [b0; b1; b2; b3; b4]) (SPO2.R_BUFSIZE - 1) r
  = [b1; b2; b3; b4; r].
Proof. reflexivity. Qed.

Lemma trunc_between (q : Q) (M : Z) :
  0 <= M -> (inject_Z (- M) <= q)%Q -> (q <= inject_Z M)%Q ->
  - M <= trunc q <= M.
Proof.
  destruct q as [n d]. unfold Qle, trunc. cbn [Qnum Qden inject_Z].
  intros HM Lo Hi. destruct (Z_lt_le_dec n 0) as [N | P].
  - assert (E : Z.quot n (Z.pos d) = - Z.quot (- n) (Z.pos d)).
    { rewrite Z.quot_opp_l by lia. lia. }
    rewrite E. rewrite Z.quot_div_nonneg by lia.
    assert (0 <= - n / Z.pos d) by (apply Z.div_pos; lia).
    assert (- n / Z.pos d <= M) by (apply Z.div_le_upper_bound; lia).
    lia.
  - rewrite Z.quot_div_nonneg by lia.
    assert (0 <= n / Z.pos d) by (apply Z.div_pos; lia).
    assert (n / Z.pos d <= M) by (apply Z.div_le_upper_bound; lia).
    lia.
Qed.

(** X18.  When [calSpO2] has a defined result, and what it stores.  With
    an infrared amplitude of 0 the division has none.  With an infrared
    amplitude other than 0 and the ratio [redPeak/irPeak*1000] between
    -2147483646 and 2147483646, one inside the [int] range on both sides,
    the call has a result.  Every call with a result had an infrared
    amplitude other than 0; it moves the history on by one entry, the
    oldest leaving and the new one, the ratio it stores in [*rValue]
    truncated, entering at the end, and it stores the saturation that the
    table gives for the middle of the sorted copy of the new history,
    clamped. *)
Theorem X18_calSpO2_defined :
  forall (redPeak irPeak spo2 : double) (b0 b1 b2 b3 b4 : Z),
    ((irPeak == 0)%Q ->
       SPO2.calSpO2 redPeak irPeak [b0; b1; b2; b3; b4] spo2 = None)
    /\ (~ (irPeak == 0)%Q ->
        (inject_Z (- 2147483646) <= redPeak / irPeak * 1000)%Q ->
        (redPeak / irPeak * 1000 <= inject_Z 2147483646)%Q ->
        exists out,
          SPO2.calSpO2 redPeak irPeak [b0; b1; b2; b3; b4] spo2 = Some out)
    /\ (forall (rValue : double) (rbuf : list Z) (spo2' : double),
           SPO2.calSpO2 redPeak irPeak [b0; b1; b2; b3; b4] spo2
           = Some (rValue, rbuf, spo2') ->
           ~ (irPeak == 0)%Q
           /\ INT_MIN <= trunc rValue <= INT_MAX
           /\ rbuf = [b1; b2; b3; b4; trunc rValue]
           /\ spo2' = SPO2.clamp (SPO2.table (SPO2.median rbuf) spo2)).
Proof.
  intros red ir spo2 b0 b1 b2 b3 b4. unfold SPO2.calSpO2.
  split; [| split].
  - intros Z0. rewrite ddiv_zero by exact Z0. reflexivity.
  - intros NZ Lo Hi. rewrite ddiv_defined by exact NZ. cbn [bind].
    assert (E : (dmul (dquo red ir) 1000 == red / ir * 1000)%Q).
    { rewrite dmul_Qeq. rewrite dquo_Qeq. reflexivity. }
    unfold d2i. rewrite (trunc_Qeq _ _ E).
    assert (B : - 2147483646 <= trunc (red / ir * 1000)%Q <= 2147483646)
      by (apply (trunc_between _ 2147483646); [lia | exact Lo | exact Hi]).
    rewrite in_int_true by (unfold INT_MIN, INT_MAX; lia).
    cbn [bind]. eexists. reflexivity.
  - intros rv rbuf spo2' H.
    destruct (Qeq_dec ir 0) as [Z0 | NZ].
    { rewrite ddiv_zero in H by exact Z0. discriminate H. }
    rewrite ddiv_defined in H by exact NZ. cbn [bind] in H.
    unfold d2i in H.
    destruct (in_int (trunc (dmul (dquo red ir) 1000%Q))) eqn:B;
      cbn [bind] in H; [| discriminate H].
    rewrite history_shift in H.
    apply Some_inj in H. apply pair_equal_spec in H. destruct H as [H E3].
    apply pair_equal_spec in H. destruct H as [E1 E2].
    subst rv rbuf spo2'.
    split; [exact NZ |]. split; [| split; reflexivity].
    unfold in_int in B. apply andb_true_iff in B. destruct B as [B1 B2].
    apply Z.leb_le in B1, B2. split; assumption.
Qed.

Lemma X18_calSpO2_defined_witness :
  SPO2.calSpO2 10%Q 0%Q [0; 0; 0; 0; 0] 0%Q = None
  /\ (exists out, SPO2.calSpO2 30%Q 60%Q [0; 0; 0; 250; 300] 99%Q = Some out)
  /\ SPO2.calSpO2 30%Q 60%Q [0; 0; 0; 250; 300] 99%Q
     = Some (500%Q, [0; 0; 250; 300; 500], 99%Q)
  /\ trunc 500%Q = 500.
Proof.
  destruct (X18_calSpO2_defined 10%Q 0%Q 0%Q 0 0 0 0 0) as (A & _).
  destruct (X18_calSpO2_defined 30%Q 60%Q 99%Q 0 0 0 250 300) as (_ & B & C).
  assert (H : SPO2.calSpO2 30%Q 60%Q [0; 0; 0; 250; 300] 99%Q
              = Some (500%Q, [0; 0; 250; 300; 500], 99%Q))
    by (vm_compute; reflexivity).
  destruct (C _ _ _ H) as (_ & _ & _ & _).
  split; [apply A; reflexivity |].
  split; [apply B; [intros E; discriminate E | vm_compute; discriminate
                    | vm_compute; discriminate] |].
  split; [exact H | reflexivity].
Defined.

Lemma wrap_analysing_full (now : Z) (s s' : SPO2.state) (ev : list event) :
  SPO2.SPO2Task now s = Some (s', ev) ->
  SPO2.SPO2_Wave_index s + 1 >= SPO2.SP_WAVE_LEN ->
  SPO2.adjust_wait_cnt s <= 0 ->
  exists s1 ppR ppI thr rv rbuf spo2 dac wait,
    SPO2.front s = Some s1
    /\ SPO2.Analyze_SPO2Wave (SPO2.arr_SPO2_Wave_RED s1)
         (SPO2.arr_SPO2_Wave_IR s1) (SPO2.arr_SPO2_Wave_Rate s1)
         SPO2.SP_WAVE_LEN = (ppR, ppI, thr)
    /\ SPO2.calSpO2 ppR ppI (SPO2.rValue_buf s) (SPO2.value_SPO2 s)
       = Some (rv, rbuf, spo2)
    /\ s' = SPO2.set_wrap 0 thr ppR ppI rv spo2 rbuf dac wait s1.
Proof.
  intros H Hi Hw.
  destruct (SPO2Task_path _ _ _ _ H)
    as [s1 F I D E | s1 F I A E1 E2 | s1 F I A An]; try lia.
  destruct (SPO2_front_keeps _ _ F) as (_ & _ & _ & _ & V & B & _).
  destruct (SPO2_analyse_spec _ _ _ An)
    as (ppR & ppI & thr & rv & rbuf & spo2 & dac & wait & gev
        & HA & C & G & E1 & E2).
  rewrite V, B in C.
  exists s1, ppR, ppI, thr, rv, rbuf, spo2, dac, wait. auto.
Qed.

(** The amplitude [max - min] of a scanned wave is never negative. *)
Lemma scan_ordered (w : list double) (M m : double) :
  SPO2.scan w SPO2.SP_WAVE_LEN = (M, m) -> (m <= M)%Q.
Proof.
  intros H. apply SPO2_scan_spec in H; [| unfold SPO2.SP_WAVE_LEN; lia].
  destruct H as [[_ [_ U]] [_ [_ L]]].
  apply Qle_trans with (rd 0%Q w 0).
  - apply L. unfold SPO2.SP_WAVE_LEN. lia.
  - apply U. unfold SPO2.SP_WAVE_LEN. lia.
Qed.

Lemma Analyze_amplitudes (w1 w2 w3 : list double) (ppR ppI thr : double) :
  SPO2.Analyze_SPO2Wave w1 w2 w3 SPO2.SP_WAVE_LEN = (ppR, ppI, thr) ->
  (0 <= ppR)%Q /\ (0 <= ppI)%Q
  /\ ppR = (fst (SPO2.scan w1 SPO2.SP_WAVE_LEN)
            - snd (SPO2.scan w1 SPO2.SP_WAVE_LEN))%D
  /\ ppI = (fst (SPO2.scan w2 SPO2.SP_WAVE_LEN)
            - snd (SPO2.scan w2 SPO2.SP_WAVE_LEN))%D.
Proof.
  unfold SPO2.Analyze_SPO2Wave. intros HA.
  destruct (SPO2.scan w1 _) as [M1 m1] eqn:S1.
  destruct (SPO2.scan w2 _) as [M2 m2] eqn:S2.
  destruct (SPO2.scan w3 _) as [M3 m3].
  apply scan_ordered in S1, S2.
  apply pair_equal_spec in HA. destruct HA as [HA _].
  apply pair_equal_spec in HA. destruct HA as [H1 H2].
  subst ppR ppI. cbn [fst snd].
  repeat split.
  - rewrite dsub_Qeq. unfold Qminus. rewrite <- (Qplus_opp_r m1).
    apply Qplus_le_compat; [exact S1 | apply Qle_refl].
  - rewrite dsub_Qeq. unfold Qminus. rewrite <- (Qplus_opp_r m2).
    apply Qplus_le_compat; [exact S2 | apply Qle_refl].
Qed.

Lemma Analyze_parts (w1 w2 w3 : list double) (ppR ppI thr : double) :
  SPO2.Analyze_SPO2Wave w1 w2 w3 SPO2.SP_WAVE_LEN = (ppR, ppI, thr) ->
  exists M m,
    seeded_max 0%Q w3 0 SPO2.SP_WAVE_LEN M
    /\ seeded_min 4095%Q w3 0 SPO2.SP_WAVE_LEN m
    /\ (m <= thr)%Q /\ (thr <= M)%Q.
Proof.
  unfold SPO2.Analyze_SPO2Wave. intros HA.
  destruct (SPO2.scan w1 _) as [M1 m1].
  destruct (SPO2.scan w2 _) as [M2 m2].
  destruct (SPO2.scan w3 _) as [M3 m3] eqn:S3.
  pose proof (scan_ordered _ _ _ S3) as O.
  apply SPO2_scan_spec in S3; [| unfold SPO2.SP_WAVE_LEN; lia].
  apply pair_equal_spec in HA. destruct HA as [_ HA]. subst thr.
  destruct (third_point M3 m3 O) as [Q1 Q2].
  exists M3, m3. destruct S3 as [A B].
  split; [exact A |]. split; [exact B |].
  split; rewrite third_Qeq; [exact Q1 | exact Q2].
Qed.

(** X19.  What a wrap that analyses stores: a RED amplitude that is
    not negative, an infrared amplitude that is positive (with 0 the call
    has no defined result), the ratio 1000 times the one over the other,
    hence not negative, and a threshold between the minimum and the
    maximum of the scan of the rate window (all 300 samples, seeded with
    4095 and 0). *)
Theorem X19_spo2_analysis_values :
  forall (s s' : SPO2.state) (now : Z) (ev : list event),
    SPO2.SPO2_Wave_index s + 1 >= SPO2.SP_WAVE_LEN ->
    SPO2.adjust_wait_cnt s <= 0 ->
    SPO2.SPO2Task now s = Some (s', ev) ->
    (0 <= SPO2.peak2peak_RED s')%Q
    /\ (0 < SPO2.peak2peak_IR s')%Q
    /\ (SPO2.value_R s'
        == SPO2.peak2peak_RED s' / SPO2.peak2peak_IR s' * 1000)%Q
    /\ (0 <= SPO2.value_R s')%Q
    /\ exists M m,
         seeded_max 0%Q (SPO2.arr_SPO2_Wave_Rate s') 0 SPO2.SP_WAVE_LEN M
         /\ seeded_min 4095%Q (SPO2.arr_SPO2_Wave_Rate s') 0 SPO2.SP_WAVE_LEN m
         /\ (m <= SPO2.peakThreshold s')%Q
         /\ (SPO2.peakThreshold s' <= M)%Q.
Proof.
  intros s s' now ev I W T.
  destruct (wrap_analysing_full now s s' ev T I W)
    as (s1 & ppR & ppI & thr & rv & rbuf & spo2 & dac & wait
        & F & A & C & E).
  destruct (Analyze_amplitudes _ _ _ _ _ _ A) as (PR & PI & _).
  destruct (Analyze_parts _ _ _ _ _ _ A) as (M & m & S1 & S2 & T1 & T2).
  assert (NZ : ~ (ppI == 0)%Q /\ (rv == ppR / ppI * 1000)%Q).
  { unfold SPO2.calSpO2 in C. destruct (Qeq_dec ppI 0) as [Z0 | NZ].
    - rewrite ddiv_zero in C by exact Z0. discriminate C.
    - rewrite ddiv_defined in C by exact NZ. cbn [bind] in C.
      destruct (d2i _); cbn [bind] in C; [| discriminate C].
      apply Some_inj in C. apply pair_equal_spec in C. destruct C as [C _].
      apply pair_equal_spec in C. destruct C as [C _]. subst rv.
      split; [exact NZ |]. rewrite dmul_Qeq. rewrite dquo_Qeq. reflexivity. }
  destruct NZ as [NZ Rv].
  assert (V1 : SPO2.peak2peak_RED s' = ppR) by (rewrite E; reflexivity).
  assert (V2 : SPO2.peak2peak_IR s' = ppI) by (rewrite E; reflexivity).
  assert (V3 : SPO2.value_R s' = rv) by (rewrite E; reflexivity).
  assert (V4 : SPO2.peakThreshold s' = thr) by (rewrite E; reflexivity).
  assert (V5 : SPO2.arr_SPO2_Wave_Rate s' = SPO2.arr_SPO2_Wave_Rate s1)
    by (rewrite E; reflexivity).
  rewrite V1, V2, V3, V4, V5. clear E V1 V2 V3 V4 V5 T F A C.
  split; [exact PR |].
  split.
  { apply Qle_lteq in PI. destruct PI as [PI | PI]; [exact PI |].
    exfalso. apply NZ. symmetry. exact PI. }
  split; [exact Rv |].
  split; [rewrite Rv; apply ratio_nonneg; [exact PR | exact PI | exact NZ] |].
  exists M, m. split; [exact S1 |]. split; [exact S2 |].
  split; [exact T1 | exact T2].
Qed.

Lemma X19_spo2_analysis_values_witness :
  (0 <= SPO2.peak2peak_RED SPO2_second')%Q
  /\ (0 < SPO2.peak2peak_IR SPO2_second')%Q
  /\ (SPO2.value_R SPO2_second'
      == SPO2.peak2peak_RED SPO2_second' / SPO2.peak2peak_IR SPO2_second'
         * 1000)%Q.
Proof.
  assert (I : SPO2.SPO2_Wave_index SPO2_second + 1 >= SPO2.SP_WAVE_LEN)
    by (vm_compute; discriminate).
  assert (W : SPO2.adjust_wait_cnt SPO2_second <= 0) by (vm_compute; discriminate).
  assert (T : SPO2.SPO2Task 0 SPO2_second
              = Some (SPO2_second',
                      [Analyze_SPO2Wave_call; calSpO2_call; AdjustDAC 280]))
    by (vm_compute; reflexivity).
  destruct (X19_spo2_analysis_values SPO2_second SPO2_second' 0 _ I W T)
    as (A & B & C & _).
  split; [exact A |]. split; [exact B | exact C].
Defined.

Lemma calSpO2_value (red ir spo2 rv spo2' : double) (b0 b1 b2 b3 b4 : Z)
      (rbuf : list Z) :
  SPO2.calSpO2 red ir [b0; b1; b2; b3; b4] spo2 = Some (rv, rbuf, spo2') ->
  ~ (ir == 0)%Q
  /\ (rv == red / ir * 1000)%Q
  /\ rbuf = [b1; b2; b3; b4; trunc (red / ir * 1000)%Q]
  /\ spo2' = SPO2.clamp (SPO2.table (SPO2.median rbuf) spo2).
Proof.
  unfold SPO2.calSpO2. intros H.
  destruct (Qeq_dec ir 0) as [Z0 | NZ].
  - rewrite ddiv_zero in H by exact Z0. discriminate H.
  - rewrite ddiv_defined in H by exact NZ. cbn [bind] in H.
    assert (E : (dmul (dquo red ir) 1000 == red / ir * 1000)%Q).
    { rewrite dmul_Qeq. rewrite dquo_Qeq. reflexivity. }
    unfold d2i in H. rewrite (trunc_Qeq _ _ E) in H.
    destruct (in_int _); cbn [bind] in H; [| discriminate H].
    rewrite history_shift in H. apply Some_inj in H.
    apply pair_equal_spec in H. destruct H as [H H3].
    apply pair_equal_spec in H. destruct H as [H1 H2].
    subst rv rbuf spo2'. repeat split; assumption.
Qed.

(** X20.  The first analyses after a reset report 99 whatever the
    signal: at a wrap that analyses with zeros in the three middle slots
    of the ratio history and nothing negative in the last, as after at
    most one analysis, the median of the new history is 0 and the stored
    saturation is 99; the new entry of the history is the ratio
    truncated, and not negative. *)
Theorem X20_startup_saturation :
  forall (s s' : SPO2.state) (now : Z) (ev : list event) (x a : Z),
    SPO2.SPO2_Wave_index s + 1 >= SPO2.SP_WAVE_LEN ->
    SPO2.adjust_wait_cnt s <= 0 ->
    SPO2.rValue_buf s = [x; 0; 0; 0; a] -> 0 <= a ->
    SPO2.SPO2Task now s = Some (s', ev) ->
    SPO2.value_SPO2 s' = 99%Q
    /\ exists r, 0 <= r /\ SPO2.rValue_buf s' = [0; 0; 0; a; r]
                 /\ r = trunc (SPO2.value_R s').
Proof.
  intros s s' now ev x a I W B Ha T.
  destruct (wrap_analysing_full now s s' ev T I W)
    as (s1 & ppR & ppI & thr & rv & rbuf & spo2 & dac & wait
        & F & A & C & E).
  rewrite B in C. apply calSpO2_value in C.
  destruct C as (NZ & Rv & Rb & Sp).
  destruct (Analyze_amplitudes _ _ _ _ _ _ A) as (PR & PI & _).
  assert (R0 : 0 <= trunc (ppR / ppI * 1000)%Q).
  { apply trunc_nonneg_le. apply ratio_nonneg; assumption. }
  assert (V : SPO2.value_SPO2 s' = spo2) by (rewrite E; reflexivity).
  assert (Bf : SPO2.rValue_buf s' = rbuf) by (rewrite E; reflexivity).
  assert (Vr : SPO2.value_R s' = rv) by (rewrite E; reflexivity).
  rewrite V, Bf, Vr. clear E V Bf Vr T F A.
  split.
  - rewrite Sp, Rb. rewrite median_early by assumption. reflexivity.
  - exists (trunc (ppR / ppI * 1000)%Q). split; [exact R0 |].
    split; [exact Rb |]. symmetry. apply trunc_Qeq. exact Rv.
Qed.

Lemma X20_startup_saturation_witness :
  SPO2.value_SPO2 SPO2_second' = 99%Q
  /\ exists r, 0 <= r /\ SPO2.rValue_buf SPO2_second' = [0; 0; 0; 250; r]
               /\ r = trunc (SPO2.value_R SPO2_second').
Proof.
  assert (I : SPO2.SPO2_Wave_index SPO2_second + 1 >= SPO2.SP_WAVE_LEN)
    by (vm_compute; discriminate).
  assert (W : SPO2.adjust_wait_cnt SPO2_second <= 0) by (vm_compute; discriminate).
  assert (B : SPO2.rValue_buf SPO2_second = [0; 0; 0; 0; 250]) by reflexivity.
  assert (A : 0 <= 250) by lia.
  assert (T : SPO2.SPO2Task 0 SPO2_second
              = Some (SPO2_second',
                      [Analyze_SPO2Wave_call; calSpO2_call; AdjustDAC 280]))
    by (vm_compute; reflexivity).
  exact (X20_startup_saturation SPO2_second SPO2_second' 0 _ 0 250 I W B A T).
Defined.

Lemma SPO2Task_wrap (now : Z) (s s1 : SPO2.state) :
  SPO2.front s = Some s1 ->
  SPO2.SPO2_Wave_index s + 1 >= SPO2.SP_WAVE_LEN ->
  SPO2.adjust_wait_cnt s <= 0 ->
  SPO2.SPO2Task now s
  = ('(s2, ev) <- SPO2.analyse_wrap s1 ;;
     s3 <- SPO2.detect now s2 ;; Some (s3, ev)).
Proof.
  intros F I W. unfold SPO2.SPO2Task. rewrite F. cbn [bind].
  destruct (SPO2_front_keeps _ _ F) as [E [A _]]. rewrite E, A.
  rewrite Z.geb_leb, (proj2 (Z.leb_le _ _)) by lia.
  rewrite Z.gtb_ltb, (proj2 (Z.ltb_ge _ _)) by lia.
  reflexivity.
Qed.

(** A wave that has one value everywhere, inside the range of the
    converter, has that value as its maximum and as its minimum. *)
Lemma scan_flat (w : list double) (c M m : double) :
  (forall i, 0 <= i < SPO2.SP_WAVE_LEN -> (rd 0%Q w i == c)%Q) ->
  (0 <= c)%Q -> (c <= 4095)%Q ->
  SPO2.scan w SPO2.SP_WAVE_LEN = (M, m) -> (M == c)%Q /\ (m == c)%Q.
Proof.
  intros Hw H0 H1 H. apply SPO2_scan_spec in H; [| unfold SPO2.SP_WAVE_LEN; lia].
  destruct H as [[SM [LM UM]] [Sm [Lm Um]]].
  assert (I0 : 0 <= 0 < SPO2.SP_WAVE_LEN) by (unfold SPO2.SP_WAVE_LEN; lia).
  assert (U0 := UM 0 I0). assert (L0 := Um 0 I0). rewrite (Hw 0 I0) in U0, L0.
  split.
  - destruct SM as [-> | [i [Hi ->]]]; [| apply Hw; exact Hi].
    apply Qle_antisym; assumption.
  - destruct Sm as [-> | [i [Hi ->]]]; [| apply Hw; exact Hi].
    apply Qle_antisym; assumption.
Qed.

(** X21.  An infrared window without amplitude: when, at a wrap with no
    cool-down pending, the 300 samples of the infrared window all have the
    same value between 0 and 4095, the infrared amplitude is 0 and the
    division of [calSpO2] by it leaves the call of [SPO2Task] without a
    defined result. *)
Theorem X21_flat_ir_undefined :
  forall (now : Z) (s s1 : SPO2.state) (c : double),
    SPO2.front s = Some s1 ->
    SPO2.SPO2_Wave_index s + 1 >= SPO2.SP_WAVE_LEN ->
    SPO2.adjust_wait_cnt s <= 0 ->
    (forall i, 0 <= i < SPO2.SP_WAVE_LEN ->
               (rd 0%Q (SPO2.arr_SPO2_Wave_IR s1) i == c)%Q) ->
    (0 <= c)%Q -> (c <= 4095)%Q ->
    SPO2.SPO2Task now s = None.
Proof.
  intros now s s1 c F I W Hw H0 H1.
  rewrite (SPO2Task_wrap now s s1 F I W).
  unfold SPO2.analyse_wrap, SPO2.Analyze_SPO2Wave.
  destruct (SPO2.scan (SPO2.arr_SPO2_Wave_RED s1) _) as [M1 m1].
  destruct (SPO2.scan (SPO2.arr_SPO2_Wave_IR s1) _) as [M2 m2] eqn:S2.
  destruct (SPO2.scan (SPO2.arr_SPO2_Wave_Rate s1) _) as [M3 m3].
  destruct (scan_flat _ c M2 m2 Hw H0 H1 S2) as [EM Em].
  unfold SPO2.calSpO2. rewrite ddiv_zero; [reflexivity |].
  rewrite dsub_Qeq, EM, Em. unfold Qminus. apply Qplus_opp_r.
Qed.

Lemma X21_flat_ir_undefined_witness : SPO2.SPO2Task 0 SPO2_dark = None.
Proof.
  assert (F : SPO2.front SPO2_dark = Some SPO2_dark_1) by (vm_compute; reflexivity).
  assert (I : SPO2.SPO2_Wave_index SPO2_dark + 1 >= SPO2.SP_WAVE_LEN)
    by (vm_compute; discriminate).
  assert (W : SPO2.adjust_wait_cnt SPO2_dark <= 0) by (vm_compute; discriminate).
  assert (Hw : forall i, 0 <= i < SPO2.SP_WAVE_LEN ->
                         (rd 0%Q (SPO2.arr_SPO2_Wave_IR SPO2_dark_1) i == 0)%Q).
  { intros i _.
    change (SPO2.arr_SPO2_Wave_IR SPO2_dark_1) with (repeat 0%Q 300).
    rewrite rd_repeat. reflexivity. }
  assert (H0 : (0 <= 0)%Q) by discriminate.
  assert (H1 : (0 <= 4095)%Q) by discriminate.
  exact (X21_flat_ir_undefined 0 SPO2_dark SPO2_dark_1 0%Q F I W Hw H0 H1).
Defined.

Lemma SPO2_front_windows (s s1 : SPO2.state) :
  SPO2.front s = Some s1 ->
  SPO2.arr_SPO2_Wave_Rate s = SPO2.arr_SPO2_Wave_IR s ->
  SPO2.arr_SPO2_Wave_Rate s1 = SPO2.arr_SPO2_Wave_IR s1.
Proof.
  unfold SPO2.front. intros F E. repeat split_pair.
  destruct (SPO2.SmoothingFilter_RED _ _) as [[q2 sr] |]; cbn [bind] in F;
    [| discriminate].
  destruct (SPO2.SmoothingFilter_IR _ _) as [[q3 si] |]; cbn [bind] in F;
    [| discriminate].
  apply Some_inj in F. subst s1.
  cbn [SPO2.arr_SPO2_Wave_Rate SPO2.arr_SPO2_Wave_IR]. rewrite E. reflexivity.
Qed.

Lemma SPO2Task_windows (now : Z) (s s' : SPO2.state) (ev : list event) :
  SPO2.SPO2Task now s = Some (s', ev) ->
  SPO2.arr_SPO2_Wave_Rate s = SPO2.arr_SPO2_Wave_IR s ->
  SPO2.arr_SPO2_Wave_Rate s' = SPO2.arr_SPO2_Wave_IR s'.
Proof.
  intros T E.
  destruct (SPO2Task_path _ _ _ _ T)
    as [s1 F I D E1 | s1 F I A E1 E2 | s1 F I A An].
  - pose proof (SPO2_front_windows _ _ F E) as E'.
    destruct (SPO2_detect_keeps _ _ _ D)
      as (_ & _ & _ & _ & _ & _ & _ & _ & _ & K1 & _ & K3).
    rewrite K1, K3. exact E'.
  - pose proof (SPO2_front_windows _ _ F E) as E'. subst s'. exact E'.
  - pose proof (SPO2_front_windows _ _ F E) as E'.
    destruct (SPO2_analyse_spec _ _ _ An)
      as (ppR & ppI & thr & rv & rbuf & spo2 & dac & wait & gev
          & _ & _ & _ & E1 & _).
    rewrite E1. exact E'.
Qed.

Lemma SPO2_reachable_windows (s : SPO2.state) :
  SPO2.reachable s -> SPO2.arr_SPO2_Wave_Rate s = SPO2.arr_SPO2_Wave_IR s.
Proof.
  intros R. induction R as [| s R IH | s adc R IH | s now s' ev R IH T].
  - reflexivity.
  - exact IH.
  - unfold SPO2.SPO2_LED_Task.
    destruct (_ =? 0); [| destruct (_ =? 2); [| destruct (_ =? 4);
      [| destruct (_ =? 6)]]]; exact IH.
  - exact (SPO2Task_windows now s s' ev T IH).
Qed.

Lemma Analyze_same_wave (w1 w2 : list double) (ppR ppI thr : double) :
  SPO2.Analyze_SPO2Wave w1 w2 w2 SPO2.SP_WAVE_LEN = (ppR, ppI, thr) ->
  exists M, seeded_max 0%Q w2 0 SPO2.SP_WAVE_LEN M
            /\ (thr == M - ppI / 3)%Q.
Proof.
  unfold SPO2.Analyze_SPO2Wave. intros HA.
  destruct (SPO2.scan w1 _) as [M1 m1].
  destruct (SPO2.scan w2 _) as [M2 m2] eqn:S2.
  apply SPO2_scan_spec in S2; [| unfold SPO2.SP_WAVE_LEN; lia].
  apply pair_equal_spec in HA. destruct HA as [HA H3].
  apply pair_equal_spec in HA. destruct HA as [_ H2].
  subst thr ppI. exists M2. split; [apply S2 |].
  rewrite dsub_Qeq, dquo_Qeq. reflexivity.
Qed.

(** X22.  The window of the pulse detection is a copy of the infrared
    window in every state the module reaches, since [SPO2Task] writes the
    same sample to both; at a wrap that analyses, the threshold is thus the
    infrared maximum (seeded with 0) minus a third of the infrared
    amplitude just stored. *)
Theorem X22_pulse_threshold_from_ir :
  forall (s s' : SPO2.state) (now : Z) (ev : list event),
    SPO2.reachable s ->
    SPO2.SPO2Task now s = Some (s', ev) ->
    SPO2.arr_SPO2_Wave_Rate s' = SPO2.arr_SPO2_Wave_IR s'
    /\ (SPO2.SPO2_Wave_index s + 1 >= SPO2.SP_WAVE_LEN ->
        SPO2.adjust_wait_cnt s <= 0 ->
        exists M,
          seeded_max 0%Q (SPO2.arr_SPO2_Wave_IR s') 0 SPO2.SP_WAVE_LEN M
          /\ (SPO2.peakThreshold s' == M - SPO2.peak2peak_IR s' / 3)%Q).
Proof.
  intros s s' now ev R T.
  pose proof (SPO2_reachable_windows s R) as E.
  split; [exact (SPO2Task_windows now s s' ev T E) |].
  intros I W.
  destruct (wrap_analysing_full now s s' ev T I W)
    as (s1 & ppR & ppI & thr & rv & rbuf & spo2 & dac & wait
        & F & A & C & E1).
  rewrite (SPO2_front_windows _ _ F E) in A.
  destruct (Analyze_same_wave _ _ _ _ _ A) as (M & SM & Th).
  assert (V1 : SPO2.peak2peak_IR s' = ppI) by (rewrite E1; reflexivity).
  assert (V2 : SPO2.peakThreshold s' = thr) by (rewrite E1; reflexivity).
  assert (V3 : SPO2.arr_SPO2_Wave_IR s' = SPO2.arr_SPO2_Wave_IR s1)
    by (rewrite E1; reflexivity).
  rewrite V1, V2, V3. exists M. split; [exact SM | exact Th].
Qed.

Lemma X22_pulse_threshold_from_ir_witness :
  SPO2.arr_SPO2_Wave_Rate SPO2_started = SPO2.arr_SPO2_Wave_IR SPO2_started
  /\ exists M,
       seeded_max 0%Q (SPO2.arr_SPO2_Wave_IR C1_post) 0 SPO2.SP_WAVE_LEN M
       /\ (SPO2.peakThreshold C1_post == M - SPO2.peak2peak_IR C1_post / 3)%Q.
Proof.
  assert (R : SPO2.reachable
                (fst (SPO2.SPO2_LED_Task 0 (fst (SPO2.InitSPO2 SPO2.boot))))).
  { apply SPO2.reach_led. apply SPO2.reach_init. apply SPO2.reach_boot. }
  assert (T : SPO2.SPO2Task 8
                (fst (SPO2.SPO2_LED_Task 0 (fst (SPO2.InitSPO2 SPO2.boot))))
              = Some (SPO2_started, [])) by (vm_compute; reflexivity).
  assert (R' : SPO2.reachable C1_pre).
  { eapply (run_reachable C1_calls (fst (SPO2.InitSPO2 SPO2.boot))).
    - apply SPO2.reach_init. apply SPO2.reach_boot.
    - vm_compute. reflexivity. }
  assert (T' : SPO2.SPO2Task 2400 C1_pre
               = Some (C1_post, [Analyze_SPO2Wave_call; calSpO2_call;
                                 AdjustDAC 280]))
    by (vm_compute; reflexivity).
  assert (I : SPO2.SPO2_Wave_index C1_pre + 1 >= SPO2.SP_WAVE_LEN)
    by (vm_compute; discriminate).
  assert (W : SPO2.adjust_wait_cnt C1_pre <= 0) by (vm_compute; discriminate).
  split; [exact (proj1 (X22_pulse_threshold_from_ir _ _ 8 _ R T)) |].
  exact (proj2 (X22_pulse_threshold_from_ir _ _ 2400 _ R' T') I W).
Defined.

Lemma SPO2Task_plain (now : Z) (s s1 : SPO2.state) :
  SPO2.front s = Some s1 ->
  SPO2.SPO2_Wave_index s + 1 < SPO2.SP_WAVE_LEN ->
  SPO2.SPO2Task now s = (s3 <- SPO2.detect now s1 ;; Some (s3, [])).
Proof.
  intros F I. unfold SPO2.SPO2Task. rewrite F. cbn [bind].
  destruct (SPO2_front_keeps _ _ F) as [E _]. rewrite E.
  rewrite Z.geb_leb, (proj2 (Z.leb_gt _ _) I). reflexivity.
Qed.

(** X23.  The rate of one pulse: when a call of [SPO2Task] between two
    wraps detects a peak at the time [now], after a last peak at
    [t1 < now] (times that fit an [int]), with at most four rates stored,
    it writes 60000/(now - t1), truncated, to the slot [hr_cnt] of
    [hr_buf], counts it, keeps [now] as the time of the last peak, and
    leaves the displayed rate alone.  With [t1 = now] the call has no
    defined result. *)
Theorem X23_spo2_rate_sample :
  forall (now t1 : Z) (s s1 : SPO2.state),
    SPO2.front s = Some s1 ->
    SPO2.SPO2_Wave_index s + 1 < SPO2.SP_WAVE_LEN ->
    SPO2.peak_detected s1 = true ->
    SPO2.lastPeak_index s = t1 ->
    0 <= t1 -> t1 <= now -> now <= INT_MAX ->
    SPO2.hr_cnt s <= 4 ->
    (t1 < now ->
       exists s',
         SPO2.SPO2Task now s = Some (s', [])
         /\ SPO2.hr_buf s'
            = wr (SPO2.hr_buf s) (SPO2.hr_cnt s) (Z.quot 60000 (now - t1))
         /\ SPO2.hr_cnt s' = SPO2.hr_cnt s + 1
         /\ SPO2.heartRate s' = SPO2.heartRate s
         /\ SPO2.lastPeak_index s' = now)
    /\ (t1 = now -> SPO2.SPO2Task now s = None).
Proof.
  intros now t1 s s1 F I P L H0 H1 H2 C.
  rewrite (SPO2Task_plain now s s1 F I).
  unfold SPO2.detect. rewrite P.
  rewrite to_int_small by lia.
  assert (K : SPO2.lastPeak_index s1 = t1 /\ SPO2.hr_cnt s1 = SPO2.hr_cnt s
              /\ SPO2.hr_buf s1 = SPO2.hr_buf s
              /\ SPO2.heartRate s1 = SPO2.heartRate s).
  { clear - F L. unfold SPO2.front in F. repeat split_pair.
    destruct (SPO2.SmoothingFilter_RED _ _) as [[q2 sr] |]; cbn [bind] in F;
      [| discriminate].
    destruct (SPO2.SmoothingFilter_IR _ _) as [[q3 si] |]; cbn [bind] in F;
      [| discriminate].
    apply Some_inj in F. subst s1. repeat split; try reflexivity. exact L. }
  destruct K as [K1 [K2 [K3 K4]]]. rewrite K1, K2, K3, K4.
  unfold int_sub. rewrite in_int_true by (unfold INT_MIN, INT_MAX in *; lia).
  cbn [bind]. unfold SPO2.calRate. split.
  - intros Hlt.
    rewrite (rate_of_distance (i2d (now - t1)) (now - t1)) by (reflexivity || lia).
    cbn [bind]. unfold SPO2.average.
    rewrite (proj2 (Z.leb_le _ _) C). cbn [bind].
    eexists. split; [reflexivity |]. repeat split.
  - intros <-. rewrite Z.sub_diag.
    rewrite rate_of_zero_distance by reflexivity. reflexivity.
Qed.

Lemma X23_spo2_rate_sample_witness :
  exists s',
    SPO2.SPO2Task 1800 SPO2_beat = Some (s', [])
    /\ SPO2.hr_buf s' = [60; 75; 0; 0; 0]
    /\ SPO2.hr_cnt s' = 2
    /\ SPO2.heartRate s' = 0
    /\ SPO2.lastPeak_index s' = 1800.
Proof.
  assert (F : SPO2.front SPO2_beat = Some SPO2_beat_1) by (vm_compute; reflexivity).
  assert (I : SPO2.SPO2_Wave_index SPO2_beat + 1 < SPO2.SP_WAVE_LEN)
    by (vm_compute; reflexivity).
  assert (P : SPO2.peak_detected SPO2_beat_1 = true) by (vm_compute; reflexivity).
  assert (L : SPO2.lastPeak_index SPO2_beat = 1000) by reflexivity.
  assert (H0 : 0 <= 1000) by lia.
  assert (H1 : 1000 <= 1800) by lia.
  assert (H2 : 1800 <= INT_MAX) by (unfold INT_MAX; lia).
  assert (C : SPO2.hr_cnt SPO2_beat <= 4) by (simpl; lia).
  assert (Hlt : 1000 < 1800) by lia.
  destruct (proj1 (X23_spo2_rate_sample 1800 1000 SPO2_beat SPO2_beat_1
                     F I P L H0 H1 H2 C) Hlt) as [s' [A [B [D [E G]]]]].
  exists s'. repeat split; [exact A | exact B | exact D | exact E | exact G].
Defined.

(** X24.  [OLED_SPO2] applies no plausibility band: in every state the
    module reaches it puts out the stored pulse rate as it is and the
    stored saturation, which is 0, as the static initialiser leaves it,
    or a value of the table, 79 to 99; it never puts out the error
    marker. *)
Theorem X24_spo2_display_unfiltered :
  forall (s : SPO2.state),
    SPO2.reachable s ->
    exists v,
      SPO2.OLED_SPO2 s
      = Some (s, [printf "[[3,%d]]\r\n" [SPO2.heartRate s];
                  printf "[[4,%d]]\r\n" [v]])
      /\ SPO2.value_SPO2 s = inject_Z v
      /\ (v = 0 \/ 79 <= v <= 99)
      /\ readings [printf "[[3,%d]]\r\n" [SPO2.heartRate s];
                   printf "[[4,%d]]\r\n" [v]] = [SPO2.heartRate s; v]
      /\ error_marker [printf "[[3,%d]]\r\n" [SPO2.heartRate s];
                       printf "[[4,%d]]\r\n" [v]] = false.
Proof.
  intros s R. apply reachable_saturation_inv in R.
  assert (V : exists v, SPO2.value_SPO2 s = inject_Z v /\ (v = 0 \/ 79 <= v <= 99)).
  { destruct R as [[E _] | [z [Hz E]]].
    - exists 0. split; [exact E | left; reflexivity].
    - exists z. split; [exact E | right; exact Hz]. }
  destruct V as [v [E Hv]]. exists v.
  unfold SPO2.OLED_SPO2. rewrite E, d2i_inject_Z.
  - cbn [bind]. repeat split; try assumption.
  - unfold INT_MIN, INT_MAX. lia.
Qed.

Lemma X24_spo2_display_unfiltered_witness :
  exists v,
    SPO2.OLED_SPO2 SPO2.boot
    = Some (SPO2.boot, [printf "[[3,%d]]\r\n" [SPO2.heartRate SPO2.boot];
                        printf "[[4,%d]]\r\n" [v]])
    /\ v = 0.
Proof.
  destruct (X24_spo2_display_unfiltered SPO2.boot SPO2.reach_boot)
    as (v & A & B & _).
  exists v. split; [exact A |].
  apply (f_equal trunc) in B. rewrite trunc_inject_Z in B. symmetry. exact B.
Defined.

(** ** The three channels *)

Lemma ECG_detect_blind (now : Z) (s : ECG.state) :
  ECG.ECG_Wave_index s <= 1 \/ ECG.HR_WAVE_LEN - 1 <= ECG.ECG_Wave_index s ->
  ECG.detect now s = Some s.
Proof.
  intros H. unfold ECG.detect, ECG.peak_detected.
  assert (G : (ECG.ECG_Wave_index s >? 1)
              && (ECG.ECG_Wave_index s <? ECG.HR_WAVE_LEN - 1) = false).
  { apply andb_false_iff. destruct H as [H | H].
    - left. rewrite Z.gtb_ltb. apply Z.ltb_ge. exact H.
    - right. apply Z.ltb_ge. exact H. }
  rewrite G. reflexivity.
Qed.

Lemma RESP_detect_blind (now : Z) (s : RESP.state) :
  RESP.BR_Wave_index s <= 1 \/ RESP.BR_WAVE_LEN - 1 <= RESP.BR_Wave_index s ->
  RESP.detect now s = Some s.
Proof.
  intros H. unfold RESP.detect, RESP.peak_detected.
  assert (G : (RESP.BR_Wave_index s >? 1)
              && (RESP.BR_Wave_index s <? RESP.BR_WAVE_LEN - 1) = false).
  { apply andb_false_iff. destruct H as [H | H].
    - left. rewrite Z.gtb_ltb. apply Z.ltb_ge. exact H.
    - right. apply Z.ltb_ge. exact H. }
  rewrite G. reflexivity.
Qed.

Lemma SPO2_detect_blind (now : Z) (s : SPO2.state) :
  SPO2.SPO2_Wave_index s <= 1 \/ SPO2.SP_WAVE_LEN - 1 <= SPO2.SPO2_Wave_index s ->
  SPO2.detect now s = Some s.
Proof.
  intros H. unfold SPO2.detect, SPO2.peak_detected.
  assert (G : (SPO2.SPO2_Wave_index s >? 1)
              && (SPO2.SPO2_Wave_index s <? SPO2.SP_WAVE_LEN - 1) = false).
  { apply andb_false_iff. destruct H as [H | H].
    - left. rewrite Z.gtb_ltb. apply Z.ltb_ge. exact H.
    - right. apply Z.ltb_ge. exact H. }
  rewrite G. reflexivity.
Qed.

Lemma SPO2_front_rates (s s1 : SPO2.state) :
  SPO2.front s = Some s1 ->
  SPO2.lastPeak_index s1 = SPO2.lastPeak_index s
  /\ SPO2.heartRate s1 = SPO2.heartRate s
  /\ SPO2.hr_buf s1 = SPO2.hr_buf s
  /\ SPO2.hr_cnt s1 = SPO2.hr_cnt s.
Proof.
  unfold SPO2.front. intros F. repeat split_pair.
  destruct (SPO2.SmoothingFilter_RED _ _) as [[q2 sr] |]; cbn [bind] in F;
    [| discriminate].
  destruct (SPO2.SmoothingFilter_IR _ _) as [[q3 si] |]; cbn [bind] in F;
    [| discriminate].
  apply Some_inj in F. subst s1. repeat split; reflexivity.
Qed.

(** X25.  The write index counts the calls of its task modulo the
    length of the window: from any reachable state, after a sequence of
    calls, the index of ECG is the old one plus the number of calls modulo
    300, that of RESP modulo 1000, and that of SpO2 the old one plus the
    number of calls of [SPO2Task] modulo 300. *)
Theorem X25_window_cycle :
  (forall (e e' : ECG.state) (cs : list (Z * Z)),
      ECG.reachable e -> ECG.run cs e = Some e' ->
      ECG.ECG_Wave_index e'
      = (ECG.ECG_Wave_index e + Z.of_nat (length cs)) mod ECG.HR_WAVE_LEN)
  /\ (forall (r r' : RESP.state) (cs : list (Z * Z)),
         RESP.reachable r -> RESP.run cs r = Some r' ->
         RESP.BR_Wave_index r'
         = (RESP.BR_Wave_index r + Z.of_nat (length cs)) mod RESP.BR_WAVE_LEN)
  /\ (forall (s s' : SPO2.state) (cs : list SPO2.call) (ev : list event),
         SPO2.reachable s -> SPO2.run cs s = Some (s', ev) ->
         SPO2.SPO2_Wave_index s'
         = (SPO2.SPO2_Wave_index s + SPO2.tasks cs) mod SPO2.SP_WAVE_LEN).
Proof.
  split; [| split].
  - intros e e' cs R Run.
    exact (proj2 (ECG_run_ok cs e e' (ECG_reachable_ok e R) Run)).
  - intros r r' cs R Run.
    exact (proj2 (RESP_run_ok cs r r' (RESP_reachable_ok r R) Run)).
  - intros s s' cs ev R Run.
    exact (proj1 (proj2 (SPO2_run_ok cs s s' ev (SPO2_reachable_ok s R) Run))).
Qed.

Lemma X25_window_cycle_witness :
  ECG.ECG_Wave_index ECG_one_call = 1
  /\ RESP.BR_Wave_index RESP_one_call = 1
  /\ SPO2.SPO2_Wave_index SPO2_started = 1.
Proof.
  destruct X25_window_cycle as (A & B & C).
  split; [| split].
  - apply (A ECG.boot ECG_one_call [(0, 5)] ECG.reach_boot).
    vm_compute. reflexivity.
  - apply (B (RESP.InitRESP RESP.boot) RESP_one_call [(0, 10)]).
    + apply RESP.reach_init. apply RESP.reach_boot.
    + vm_compute. reflexivity.
  - apply (C (fst (SPO2.InitSPO2 SPO2.boot)) SPO2_started
             [SPO2.LED 0; SPO2.TASK 8] []).
    + apply SPO2.reach_init. apply SPO2.reach_boot.
    + vm_compute. reflexivity.
Defined.

(** X26.  Three calls in every window cannot detect a peak: a call of
    [ECGTask], [RESPTask] or [SPO2Task] that finds the write index at 0,
    or at one of the last two places of the window (the call before the
    wrap and the one that wraps), leaves the rate and the time of the
    last peak, and for SpO2 the batch of rates, as they are, whatever the
    samples. *)
Theorem X26_detection_blind_calls :
  (forall (inp now : Z) (e e' : ECG.state),
      ECG.ECGTask inp now e = Some e' ->
      ECG.ECG_Wave_index e = 0
      \/ ECG.HR_WAVE_LEN - 2 <= ECG.ECG_Wave_index e ->
      ECG.heartRate e' = ECG.heartRate e
      /\ ECG.lastPeak_index e' = ECG.lastPeak_index e)
  /\ (forall (inp now : Z) (r r' : RESP.state),
         RESP.RESPTask inp now r = Some r' ->
         RESP.BR_Wave_index r = 0
         \/ RESP.BR_WAVE_LEN - 2 <= RESP.BR_Wave_index r ->
         RESP.breathRate r' = RESP.breathRate r
         /\ RESP.lastPeak_index r' = RESP.lastPeak_index r)
  /\ (forall (now : Z) (s s' : SPO2.state) (ev : list event),
         SPO2.SPO2Task now s = Some (s', ev) ->
         SPO2.SPO2_Wave_index s = 0
         \/ SPO2.SP_WAVE_LEN - 2 <= SPO2.SPO2_Wave_index s ->
         SPO2.heartRate s' = SPO2.heartRate s
         /\ SPO2.hr_buf s' = SPO2.hr_buf s
         /\ SPO2.hr_cnt s' = SPO2.hr_cnt s
         /\ SPO2.lastPeak_index s' = SPO2.lastPeak_index s).
Proof.
  split; [| split].
  - intros inp now e e' T I. unfold ECG.ECGTask in T.
    destruct (ECG.front inp e) as [e1 |] eqn:F; cbn [bind] in T; [| discriminate].
    destruct (ECG_front_keeps _ _ _ F) as (K1 & _ & K3).
    destruct (ECG_front_threshold _ _ _ F) as [W1 W2].
    rewrite ECG_detect_blind in T.
    + apply Some_inj in T. subst e'. split; assumption.
    + unfold ECG.HR_WAVE_LEN in *.
      destruct (Z_lt_le_dec (ECG.ECG_Wave_index e + 1) 300) as [Lt | Ge].
      * destruct (W2 Lt) as [_ E]. rewrite E. lia.
      * destruct (W1 ltac:(lia)) as [_ E]. rewrite E. lia.
  - intros inp now r r' T I. unfold RESP.RESPTask in T.
    destruct (RESP.front inp r) as [r1 |] eqn:F; cbn [bind] in T; [| discriminate].
    destruct (RESP_front_keeps _ _ _ F) as (K1 & _ & K3).
    destruct (RESP_front_threshold _ _ _ F) as [W1 W2].
    rewrite RESP_detect_blind in T.
    + apply Some_inj in T. subst r'. split; assumption.
    + unfold RESP.BR_WAVE_LEN in *.
      destruct (Z_lt_le_dec (RESP.BR_Wave_index r + 1) 1000) as [Lt | Ge].
      * destruct (W2 Lt) as [_ E]. rewrite E. lia.
      * destruct (W1 ltac:(lia)) as [_ E]. rewrite E. lia.
  - intros now s s' ev T I. unfold SPO2.SP_WAVE_LEN in *.
    destruct (SPO2Task_path _ _ _ _ T)
      as [s1 F J D E | s1 F J A E1 E2 | s1 F J A An].
    + destruct (SPO2_front_rates _ _ F) as (K1 & K2 & K3 & K4).
      destruct (SPO2_front_keeps _ _ F) as (I1 & _).
      rewrite SPO2_detect_blind in D
        by (unfold SPO2.SP_WAVE_LEN in *; rewrite I1; lia).
      apply Some_inj in D. subst s'. auto.
    + destruct (SPO2_front_rates _ _ F) as (K1 & K2 & K3 & K4).
      subst s'. auto.
    + destruct (SPO2_front_rates _ _ F) as (K1 & K2 & K3 & K4).
      destruct (SPO2_analyse_spec _ _ _ An)
        as (ppR & ppI & thr & rv & rbuf & spo2 & dac & wait & gev
            & _ & _ & _ & E1 & _).
      rewrite E1. auto.
Qed.

(** ** The calibration table on ratios of any size *)

(** X27.  The table of [calSpO2] on what it takes for the median.  In
    every state the module can reach, and in every state whose stored
    saturation is a value of the table, a call of [SPO2Task] that runs the
    analysis stores the saturation the table gives for [rInt], the middle
    of the sorted copy that [calSpO2] makes of the ratio history: 99 up to
    450, then row by row with both bounds inclusive down to 79 for 1171 to
    1200.  For [rInt] above 1200 the stored saturation is left as it was.
    After the analysis the stored saturation lies in [70,100].  The table
    does not increase with [rInt]; at its ends, 450 gives 99, 451 gives
    98, 1200 gives 79 and 1201 gives back what was stored.  [rInt] is the
    median of the history whenever the five ratios lie in 0..65535. *)
Theorem X27_table_of_sorted_middle :
  forall (s s' : SPO2.state) (now : Z) (ev : list event),
    SPO2.reachable s \/ table_value (SPO2.value_SPO2 s) ->
    SPO2.SPO2Task now s = Some (s', ev) ->
    In calSpO2_call ev ->
    let rInt := SPO2.median (SPO2.rValue_buf s') in
    (rInt <= 450 -> SPO2.value_SPO2 s' = 99%Q)
    /\ (forall lo hi v, In (lo, hi, v) table_rows -> lo <= rInt <= hi ->
                        SPO2.value_SPO2 s' = inject_Z v)
    /\ (rInt > 1200 -> SPO2.value_SPO2 s' = SPO2.value_SPO2 s)
    /\ (70 <= SPO2.value_SPO2 s')%Q
    /\ (SPO2.value_SPO2 s' <= 100)%Q
    /\ (forall r1 r2 prev, r1 <= r2 -> r2 <= 1200 ->
                           (SPO2.table r2 prev <= SPO2.table r1 prev)%Q)
    /\ (forall prev, SPO2.table 450 prev = 99%Q
                     /\ SPO2.table 451 prev = 98%Q
                     /\ SPO2.table 1200 prev = 79%Q
                     /\ SPO2.table 1201 prev = prev)
    /\ (forall a b c d e,
          SPO2.rValue_buf s' = [a; b; c; d; e] ->
          u16 a -> u16 b -> u16 c -> u16 d -> u16 e ->
          middle_of rInt [a; b; c; d; e]).
Proof.
  intros s s' now ev R H HIn rInt. subst rInt.
  assert (Inv : saturation_inv s).
  { destruct R as [R | TV]; [exact (reachable_saturation_inv s R) |].
    right. exact TV. }
  destruct (SPO2Task_path _ _ _ _ H)
    as [s1 F I D E | s1 F I A E1 E2 | s1 F I A An];
    try (subst ev; destruct HIn).
  destruct (SPO2_front_keeps _ _ F) as (_ & _ & _ & _ & V & B & _).
  destruct (SPO2_analyse_spec _ _ _ An)
    as (ppR & ppI & thr & rv & rbuf & spo2 & dac & wait & gev
        & _ & HC & _ & -> & _).
  rewrite V, B in HC.
  change (SPO2.value_SPO2 (SPO2.set_wrap 0 thr ppR ppI rv spo2 rbuf dac wait s1))
    with spo2.
  change (SPO2.rValue_buf (SPO2.set_wrap 0 thr ppR ppI rv spo2 rbuf dac wait s1))
    with rbuf.
  destruct (calSpO2_inv _ _ _ _ _ _ _ Inv HC) as (TV & E & Hold).
  destruct (table_value_bounds _ TV) as [Lo Hi].
  split; [intros L; rewrite E; apply table_low; exact L |].
  split; [intros lo hi v HR Hr; rewrite E;
          apply (table_row _ lo hi); assumption |].
  split; [exact Hold |]. split; [exact Lo |]. split; [exact Hi |].
  split; [intros r1 r2 prev; apply table_monotone |].
  split; [intros prev; repeat split |].
  intros a b c d e -> Ha Hb Hc Hd He.
  apply median_within_u16; assumption.
Qed.

Lemma X27_table_of_sorted_middle_witness :
  SPO2.rValue_buf SPO2_in_row' = [480; 500; 520; 540; 500]
  /\ SPO2.median (SPO2.rValue_buf SPO2_in_row') = 500
  /\ SPO2.value_SPO2 SPO2_in_row = 98%Q
  /\ SPO2.value_SPO2 SPO2_in_row' = 97%Q
  /\ SPO2.rValue_buf SPO2_above' = [1300; 1400; 1500; 1600; 500]
  /\ SPO2.median (SPO2.rValue_buf SPO2_above') = 1400
  /\ SPO2.value_SPO2 SPO2_above' = SPO2.value_SPO2 SPO2_above
  /\ SPO2.reachable SPO2_first_pre
  /\ SPO2.median (SPO2.rValue_buf SPO2_first_post) = 0
  /\ SPO2.value_SPO2 SPO2_first_post = 99%Q.
Proof.
  assert (HIn : In calSpO2_call [Analyze_SPO2Wave_call; calSpO2_call])
    by (right; left; reflexivity).
  assert (T1 : table_value (SPO2.value_SPO2 SPO2_in_row))
    by (exists 98; split; [lia | reflexivity]).
  assert (H1 : SPO2.SPO2Task 2400 SPO2_in_row
               = Some (SPO2_in_row', [Analyze_SPO2Wave_call; calSpO2_call]))
    by (vm_compute; reflexivity).
  assert (M1 : SPO2.median (SPO2.rValue_buf SPO2_in_row') = 500)
    by (vm_compute; reflexivity).
  assert (T2 : table_value (SPO2.value_SPO2 SPO2_above))
    by (exists 97; split; [lia | reflexivity]).
  assert (H2 : SPO2.SPO2Task 2400 SPO2_above
               = Some (SPO2_above', [Analyze_SPO2Wave_call; calSpO2_call]))
    by (vm_compute; reflexivity).
  assert (M2 : SPO2.median (SPO2.rValue_buf SPO2_above') = 1400)
    by (vm_compute; reflexivity).
  assert (R3 : SPO2.reachable SPO2_first_pre).
  { eapply (run_reachable SPO2_first_calls SPO2.boot).
    - apply SPO2.reach_boot.
    - vm_compute. reflexivity. }
  assert (H3 : SPO2.SPO2Task 2400 SPO2_first_pre
               = Some (SPO2_first_post, [Analyze_SPO2Wave_call; calSpO2_call]))
    by (vm_compute; reflexivity).
  assert (M3 : SPO2.median (SPO2.rValue_buf SPO2_first_post) = 0)
    by (vm_compute; reflexivity).
  destruct (X27_table_of_sorted_middle SPO2_in_row SPO2_in_row' 2400 _
              (or_intror T1) H1 HIn) as (_ & Row & _).
  destruct (X27_table_of_sorted_middle SPO2_above SPO2_above' 2400 _
              (or_intror T2) H2 HIn) as (_ & _ & Hold & _).
  destruct (X27_table_of_sorted_middle SPO2_first_pre SPO2_first_post 2400 _
              (or_introl R3) H3 HIn) as (Low & _).
  split; [reflexivity |]. split; [exact M1 |]. split; [reflexivity |].
  split; [apply (Row 471 510 97);
          [right; left; reflexivity | rewrite M1; lia] |].
  split; [reflexivity |]. split; [exact M2 |].
  split; [apply Hold; rewrite M2; lia |].
  split; [exact R3 |]. split; [exact M3 |].
  apply Low. rewrite M3. lia.
Defined.
